(** * Video-Reel: the video assembly pipeline

  A shallow embedding of the server-side video compilation code
  (subtitle processor, FFmpeg-based processors, the Revideo wrapper and
  the generation routine of the routes file) together with the
  properties of the specification that concern it.

  Conventions of the embedding:
  - a JavaScript string that is inspected character by character
    (caption text) is a list of UTF-16 code units, each an [N];
    paths, tool arguments and messages are [string]s;
  - a JavaScript number that carries a duration or a time stamp is a
    rational ([Q]); sums are written in the order in which the code
    performs them.  Where a property depends on what a division and
    the additions that follow it amount to (the windows of the subtitle
    lines, the time given to each image), the operations are those of
    IEEE 754 doubles, [JS.fadd], [JS.fsub], [JS.fmul] and [JS.fdiv],
    which round their exact result;
  - code that awaits external tools runs in a small monad over a world
    (files on disk, spawned processes, the video record), the tools'
    answers being read from an environment record. *)

From Stdlib Require Import List String Ascii Bool Arith PeanoNat.
From Stdlib Require Import ZArith NArith QArith Qabs Qround Lia Lqa DecimalString.
Import ListNotations.

Local Open Scope list_scope.

(* ================================================================== *)
(** * JavaScript strings and the built-ins the code uses *)
(* ================================================================== *)

Module JS.

(** A string is a sequence of UTF-16 code units. *)
Definition jsstring : Type := list N.

Definition of_string (s : string) : jsstring :=
  map N_of_ascii (list_ascii_of_string s).

(** A string is truthy exactly when it is not empty. *)
Definition truthy (s : jsstring) : bool :=
  match s with [] => false | _ :: _ => true end.

Definition SPACE : N := 32%N.
Definition DOT : N := 46%N.

(** [\w] : ASCII letters, digits and the underscore. *)
Definition is_word (c : N) : bool :=
  ((48 <=? c) && (c <=? 57) || (65 <=? c) && (c <=? 90)
   || (c =? 95) || (97 <=? c) && (c <=? 122))%N.

(** [\s] : the WhiteSpace and LineTerminator code points; [trim]
    removes the same set. *)
Definition is_space (c : N) : bool :=
  ((9 <=? c) && (c <=? 13) || (c =? 32) || (c =? 160) || (c =? 5760)
   || (8192 <=? c) && (c <=? 8202) || (c =? 8232) || (c =? 8233)
   || (c =? 8239) || (c =? 8287) || (c =? 12288) || (c =? 65279))%N.

(** [s.split(sep)] for a one-character separator: never empty, the
    empty string splits into one empty piece. *)
Fixpoint split (sep : N) (s : jsstring) : list jsstring :=
  match s with
  | [] => [[]]
  | c :: r =>
      if (c =? sep)%N then [] :: split sep r
      else match split sep r with
           | w :: ws => (c :: w) :: ws
           | [] => [[c]]
           end
  end.

(** [s.replace(/\s+/g, ' ')]: every maximal run of white space becomes
    one space; [in_run] tells that the previous unit was white space. *)
Fixpoint replace_space_runs (in_run : bool) (s : jsstring) : jsstring :=
  match s with
  | [] => []
  | c :: r =>
      if is_space c
      then (if in_run then replace_space_runs true r
            else SPACE :: replace_space_runs true r)
      else c :: replace_space_runs false r
  end.

Fixpoint trimStart (s : jsstring) : jsstring :=
  match s with
  | [] => []
  | c :: r => if is_space c then trimStart r else s
  end.

Fixpoint trimEnd (s : jsstring) : jsstring :=
  match s with
  | [] => []
  | c :: r =>
      match trimEnd r with
      | [] => if is_space c then [] else [c]
      | r' => c :: r'
      end
  end.

Definition trim (s : jsstring) : jsstring := trimEnd (trimStart s).

(** [s.substring(0, n)] *)
Definition substring0 (n : nat) (s : jsstring) : jsstring := firstn n s.

(** [Array.prototype.join] on texts. *)
Fixpoint join_text (sep : jsstring) (l : list jsstring) : jsstring :=
  match l with
  | [] => []
  | [a] => a
  | a :: r => a ++ sep ++ join_text sep r
  end.

(** ** [parseFloat]

    The longest prefix that is a decimal literal (sign, digits, fraction,
    exponent), after leading white space; [None] stands for [NaN].  The
    literal [Infinity] is outside the model. *)

Definition digit (c : N) : option Z :=
  if ((48 <=? c) && (c <=? 57))%N then Some (Z.of_N (c - 48)) else None.

(** The digits at the head of [s]: their value after [acc], how many
    there are, and what follows them. *)
Fixpoint read_digits (s : jsstring) (acc : Z) (count : nat) : Z * nat * jsstring :=
  match s with
  | [] => (acc, count, [])
  | c :: r =>
      match digit c with
      | Some d => read_digits r (acc * 10 + d)%Z (S count)
      | None => (acc, count, s)
      end
  end.

Definition read_sign (s : jsstring) : bool * jsstring :=
  match s with
  | c :: r => if (c =? 45)%N then (true, r)
              else if (c =? 43)%N then (false, r) else (false, s)
  | [] => (false, [])
  end.

Definition pow10 (e : Z) : Q :=
  if (0 <=? e)%Z then inject_Z (10 ^ e) else / inject_Z (10 ^ (- e)).

(** The exponent part at the head of [s], zero when there is none. *)
Definition read_exponent (s : jsstring) : Z :=
  match s with
  | c :: r =>
      if ((c =? 101) || (c =? 69))%N then
        let '(negative, r1) := read_sign r in
        let '(v, n, _) := read_digits r1 0%Z 0%nat in
        match n with
        | O => 0%Z
        | S _ => if negative then (- v)%Z else v
        end
      else 0%Z
  | [] => 0%Z
  end.

Definition parseFloat (s : jsstring) : option Q :=
  let '(negative, s1) := read_sign (trimStart s) in
  let '(int_part, n_int, s2) := read_digits s1 0%Z 0%nat in
  let '(mantissa, n_frac, s3) :=
    match s2 with
    | c :: r => if (c =? 46)%N then read_digits r int_part 0%nat
                else (int_part, 0%nat, s2)
    | [] => (int_part, 0%nat, s2)
    end in
  match (n_int + n_frac)%nat with
  | O => None
  | S _ =>
      let magnitude :=
        inject_Z mantissa * pow10 (- Z.of_nat n_frac) * pow10 (read_exponent s3) in
      Some (if negative then - magnitude else magnitude)
  end.

(** ** Arithmetic on numbers

    A JavaScript number is an IEEE 754 double.  Every finite double is a
    rational, and an arithmetic operation returns the double nearest to
    the exact result, a tie going to the one with an even significand
    (53 bits; below [2 ^ -1022] the spacing stays [2 ^ -1074]).  Results
    beyond the largest double, [NaN] and the sign of zero are outside
    the model; like [Qdiv], [fdiv] by zero gives 0, where JavaScript
    gives [Infinity] or [NaN]. *)

(** [floor (log2 (n / d))] for positive [n] and [d]. *)
Definition ilog2 (n d : Z) : Z :=
  let k := (Z.log2 n - Z.log2 d)%Z in
  if (0 <=? k)%Z
  then (if (d * 2 ^ k <=? n)%Z then k else k - 1)%Z
  else (if (d <=? n * 2 ^ (- k))%Z then k else k - 1)%Z.

(** The integer nearest to [num / den], a tie going to the even one. *)
Definition nearest_even (num den : Z) : Z :=
  let q := (num / den)%Z in
  match (2 * (num mod den) ?= den)%Z with
  | Lt => q
  | Eq => if Z.even q then q else (q + 1)%Z
  | Gt => (q + 1)%Z
  end.

(** The double nearest to [x], as a fraction in lowest terms. *)
Definition to_double (x : Q) : Q :=
  match Qnum x with
  | 0%Z => 0
  | _ =>
      let n := Z.abs (Qnum x) in
      let d := Zpos (Qden x) in
      let e := Z.max (ilog2 n d - 52) (-1074) in
      let v :=
        if (0 <=? e)%Z
        then inject_Z (nearest_even n (d * 2 ^ e) * 2 ^ e)
        else Qred (nearest_even (n * 2 ^ (- e)) d # Z.to_pos (2 ^ (- e))) in
      if (Qnum x <? 0)%Z then - v else v
  end.

Definition fadd (x y : Q) : Q := to_double (x + y).
Definition fsub (x y : Q) : Q := to_double (x - y).
Definition fmul (x y : Q) : Q := to_double (x * y).
Definition fdiv (x y : Q) : Q := to_double (x / y).

(** [n] as a number, for a length or a count. *)
Definition of_nat (n : nat) : Q := inject_Z (Z.of_nat n).

End JS.

(* ================================================================== *)
(** * subtitleProcessor.ts *)
(* ================================================================== *)

Module SubtitleProcessor.
Import JS.

(** The callers hand over objects with (at least) a text and a
    duration. *)
Record TimedText : Type := mkTimed { text : jsstring; duration : Q }.

Record SubtitleSegment : Type :=
  mkSubtitle { startTime : Q; endTime : Q; subText : jsstring }.

(** The body of [words.forEach]: the pair is ([lines], [currentLine]). *)
Definition wrap_word (st : list jsstring * jsstring) (word : jsstring)
  : list jsstring * jsstring :=
  let '(lines, currentLine) := st in
  if (List.length (currentLine ++ [SPACE] ++ word) <=? 60)%nat
  then (lines,
        if truthy currentLine then currentLine ++ [SPACE] ++ word else word)
  else ((if truthy currentLine then lines ++ [currentLine] else lines),
        word).

(** The lines of one segment: the loop over the words, then the last
    pending line. *)
Definition wrap_lines (txt : jsstring) : list jsstring :=
  let words := split SPACE txt in
  let '(lines, currentLine) := fold_left wrap_word words ([], []) in
  if truthy currentLine then lines ++ [currentLine] else lines.

(** The body of [lines.forEach]: the pair is ([segments], [currentTime]). *)
Definition push_line (lineDuration : Q)
           (st : list SubtitleSegment * Q) (line : jsstring)
  : list SubtitleSegment * Q :=
  let '(segments, currentTime) := st in
  (segments ++ [mkSubtitle currentTime (fadd currentTime lineDuration) line],
   fadd currentTime lineDuration).

Definition lineDuration_of (segment : TimedText) (lines : list jsstring) : Q :=
  fdiv (duration segment) (of_nat (List.length lines)).

(** The body of [scriptSegments.forEach]. *)
Definition push_segment (st : list SubtitleSegment * Q) (segment : TimedText)
  : list SubtitleSegment * Q :=
  let lines := wrap_lines (text segment) in
  fold_left (push_line (lineDuration_of segment lines)) lines st.

Definition createSubtitleSegments
           (scriptSegments : list TimedText) (startTime : Q)
  : list SubtitleSegment :=
  fst (fold_left push_segment scriptSegments ([], startTime)).

End SubtitleProcessor.

(* ================================================================== *)
(** * The subtitle timeline written as recursive functions *)
(* ================================================================== *)

Module SubtitleTimeline.
Import JS SubtitleProcessor.

(** The time windows that [lines.forEach] appends, written as a
    recursive function of the running time. *)
Fixpoint windows (t ld : Q) (lines : list jsstring) : list SubtitleSegment :=
  match lines with
  | [] => []
  | l :: r => mkSubtitle t (fadd t ld) l :: windows (fadd t ld) ld r
  end.

(** The running time after [k] lines. *)
Fixpoint advance (t ld : Q) (k : nat) : Q :=
  match k with
  | O => t
  | S k' => advance (fadd t ld) ld k'
  end.

(** The windows of one segment entered at time [t]. *)
Definition segment_block (t : Q) (segment : TimedText) : list SubtitleSegment :=
  let lines := wrap_lines (text segment) in
  windows t (lineDuration_of segment lines) lines.

Definition segment_exit (t : Q) (segment : TimedText) : Q :=
  let lines := wrap_lines (text segment) in
  advance t (lineDuration_of segment lines) (List.length lines).

(** The blocks of all segments, the exit time of one being the entry
    time of the next. *)
Fixpoint blocks (t : Q) (segs : list TimedText) : list (list SubtitleSegment) :=
  match segs with
  | [] => []
  | s :: r => segment_block t s :: blocks (segment_exit t s) r
  end.

(** Entries follow one another without a gap. *)
Fixpoint contiguous (l : list SubtitleSegment) : Prop :=
  match l with
  | [] => True
  | a :: r =>
      match r with
      | [] => True
      | b :: _ => endTime a = startTime b /\ contiguous r
      end
  end.

(** A line that fits the subtitle width. *)
Definition short (w : jsstring) : Prop := (List.length w <= 60)%nat.

(** The white-space separated words of a text: the maximal runs of
    units that are not white space. *)
Fixpoint whitespace_words_from (cur : jsstring) (s : jsstring) : list jsstring :=
  match s with
  | [] => if truthy cur then [cur] else []
  | c :: r =>
      if is_space c
      then (if truthy cur then cur :: whitespace_words_from [] r
            else whitespace_words_from [] r)
      else whitespace_words_from (cur ++ [c]) r
  end.

Definition whitespace_words (s : jsstring) : list jsstring :=
  whitespace_words_from [] s.

End SubtitleTimeline.

(* ================================================================== *)
(** * The Node.js side: paths, child processes, files, promises *)
(* ================================================================== *)

Module Node.
Import JS.

Definition string_of_nat (n : nat) : string :=
  NilZero.string_of_uint (Nat.to_uint n).

Definition string_of_Z (z : Z) : string :=
  NilZero.string_of_int (Z.to_int z).

(** [s.includes(sub)] on messages. *)
Fixpoint includes (sub s : string) : bool :=
  match s with
  | EmptyString => String.prefix sub s
  | String _ r => String.prefix sub s || includes sub r
  end.

(** [Array.prototype.join] on strings. *)
Fixpoint join (sep : string) (l : list string) : string :=
  match l with
  | [] => EmptyString
  | [a] => a
  | a :: r => (a ++ sep ++ join sep r)%string
  end.

(** [path.join(dir, name)] and [path.dirname(p)] for paths that need no
    normalisation. *)
Definition path_join (dir name : string) : string :=
  (dir ++ "/" ++ name)%string.

Fixpoint before_last_slash (p : string) : option string :=
  match p with
  | EmptyString => None
  | String c r =>
      match before_last_slash r with
      | Some d => Some (String c d)
      | None => if Ascii.eqb c "/"%char then Some EmptyString else None
      end
  end.

Definition dirname (p : string) : string :=
  match before_last_slash p with
  | Some EmptyString => "/"%string
  | Some d => d
  | None => "."%string
  end.

(** A string assembled by a template literal or by concatenation: the
    literal parts, the printed numbers and the embedded caption text are
    kept apart, so that no number has to be printed in the model. *)
Inductive piece : Type :=
| Lit (s : string)
| Num (q : Q)          (* String(q), q.toString() *)
| Fixed2 (q : Q)       (* q.toFixed(2) *)
| Txt (t : jsstring).

Definition tstring : Type := list piece.

Definition lit (s : string) : tstring := [Lit s].

(** [Array.prototype.join] on assembled strings. *)
Fixpoint tjoin (sep : string) (l : list tstring) : tstring :=
  match l with
  | [] => []
  | [a] => a
  | a :: r => a ++ [Lit sep] ++ tjoin sep r
  end.

(** ** What the outside world answers *)

(** How a child process ends: the [close] event with its exit code, or
    the [error] event. *)
Inductive exit : Type :=
| Close (code : Z)
| ProcError (message : string).

(** The answer of a child process: how it ends, what it printed, how long
    it ran (milliseconds) and which files it wrote. *)
Record answer : Type := mkAnswer {
  exit_of : exit;
  stdout : string;
  stderr : string;
  elapsed : N;
  written : list string
}.

(** The answer of an awaited service: a value or the message of the
    error it rejects with. *)
Record reply (A : Type) : Type := mkReply {
  value : A + string;
  took : N;
  wrote : list string
}.
Arguments mkReply {A} _ _ _.
Arguments value {A} _.
Arguments took {A} _.
Arguments wrote {A} _.

(** ** Files *)

(** The files on disk, by path. *)
Definition files : Type := list string.

Definition existsSync (p : string) (f : files) : bool :=
  existsb (String.eqb p) f.

Definition remove_file (p : string) (f : files) : files :=
  filter (fun q => negb (String.eqb p q)) f.

Definition write_file (p : string) (f : files) : files :=
  p :: remove_file p f.

Definition write_files (l : list string) (f : files) : files :=
  fold_left (fun acc p => write_file p acc) l f.

(** What a job does to the outside, in order. *)
Inductive event : Type :=
| Spawned (tool : string) (args : list tstring)
| Wrote (path : string) (content : option string)
| Unlinked (path : string).

End Node.

(* ================================================================== *)
(** * The data the routes work on *)
(* ================================================================== *)

Module Script.
Import JS.

(** One unit of the generated script. *)
Record ScriptSegment : Type := mkSegment {
  text : jsstring;
  imagePrompt : jsstring;
  duration : Q
}.

End Script.

Module Schema.
Import JS.

(** The fields of a video row that the generation code reads or
    updates.  [status] is the string the code stores. *)
Record Video : Type := mkVideo {
  id : string;
  topic : string;
  duration : Q;
  language : option string;
  voiceStyle : option string;
  imageStyle : option string;
  imageProvider : option string;
  runwareModel : option string;
  subtitles : bool;
  status : string;
  script : option jsstring;
  videoUrl : option string;
  errorMessage : option string;
  assets : option (list string * list string);
  subtitleData : option (list SubtitleProcessor.SubtitleSegment)
}.

End Schema.

(* ================================================================== *)
(** * Running asynchronous code *)
(* ================================================================== *)

Module Run.
Import JS Node.

(** The outside world: the working directory, the size of a file, the
    child processes, the HTTP download and the services the routes
    await.  [https_get_throws] is the error that [https.get] throws at
    once for a URL it cannot use (one that does not parse, or whose
    protocol is not [https:]), if any. *)
Record env : Type := mkEnv {
  cwd : string;
  file_size : string -> N;
  run : string -> list tstring -> answer;
  https_get : string -> reply unit;
  https_get_throws : string -> option string;
  generateScript : string -> Q -> string -> reply (list Script.ScriptSegment);
  generateFallbackScript : string -> Q -> string -> list Script.ScriptSegment;
  generateImage : jsstring -> string -> reply string;
  generateImageWithRunware : jsstring -> string -> string -> reply string;
  generateAudio : jsstring -> string -> string -> string -> reply unit;
  has_chrome : bool;
  renderVideo : string -> string -> reply string
}.

(** The state a job can observe or change: the files, what was done so
    far (oldest first), the video rows, a clock in
    milliseconds, the expiry of the running timer if one is armed, and
    the array [tempFiles] of the generation routine, which outlives a
    failed generation. *)
Record world : Type := mkWorld {
  fs : files;
  trace : list event;
  videos : list (string * Schema.Video);
  clock : N;
  deadline : option N;
  tempFiles : list string
}.

Definition with_fs (f : files -> files) (w : world) : world :=
  mkWorld (f (fs w)) (trace w) (videos w) (clock w) (deadline w) (tempFiles w).

Definition with_event (e : event) (w : world) : world :=
  mkWorld (fs w) (trace w ++ [e]) (videos w) (clock w) (deadline w) (tempFiles w).

Definition with_videos (f : list (string * Schema.Video) -> list (string * Schema.Video))
           (w : world) : world :=
  mkWorld (fs w) (trace w) (f (videos w)) (clock w) (deadline w) (tempFiles w).

Definition with_clock (c : N) (w : world) : world :=
  mkWorld (fs w) (trace w) (videos w) c (deadline w) (tempFiles w).

Definition with_deadline (d : option N) (w : world) : world :=
  mkWorld (fs w) (trace w) (videos w) (clock w) d (tempFiles w).

Definition with_tempFiles (f : list string -> list string) (w : world) : world :=
  mkWorld (fs w) (trace w) (videos w) (clock w) (deadline w) (f (tempFiles w)).

(** A promise settles with a value or with an error (its message); the
    third outcome is the expiry of the armed timer while the promise is
    still pending.  A timer cancels nothing: the pending promise goes on
    once the thing it awaits has arrived, and [rest] is what it does then,
    in the world as it is at that time. *)
#[warnings="-register-all"]
Inductive outcome (A : Type) : Type :=
| Ok (a : A)
| Throw (message : string)
| Expired (rest : world -> outcome A * world).
Arguments Ok {A} _.
Arguments Throw {A} _.
Arguments Expired {A} _.

Definition M (A : Type) : Type := world -> outcome A * world.

Definition ret {A} (a : A) : M A := fun w => (Ok a, w).

(** What follows a pending promise follows it as well when it is taken
    up again. *)
Fixpoint resume_then {A B} (k : A -> M B) (o : outcome A) (w : world) {struct o}
  : outcome B * world :=
  match o with
  | Ok a => k a w
  | Throw e => (Throw e, w)
  | Expired rest =>
      (Expired (fun w2 => resume_then k (fst (rest w2)) (snd (rest w2))), w)
  end.

Definition bind {A B} (m : M A) (k : A -> M B) : M B :=
  fun w =>
    match m w with
    | (Ok a, w') => k a w'
    | (Throw e, w') => (Throw e, w')
    | (Expired rest, w') =>
        (Expired (fun w2 => resume_then k (fst (rest w2)) (snd (rest w2))), w')
    end.

Definition throw {A} (message : string) : M A := fun w => (Throw message, w).

(** A pending promise that is taken up again inside a [try] block is
    still guarded by its [catch]. *)
Fixpoint resume_catch {A} (h : string -> M A) (o : outcome A) (w : world) {struct o}
  : outcome A * world :=
  match o with
  | Ok a => (Ok a, w)
  | Throw e => h e w
  | Expired rest =>
      (Expired (fun w2 => resume_catch h (fst (rest w2)) (snd (rest w2))), w)
  end.

(** [try { m } catch (error) { h error }] *)
Definition try_catch {A} (m : M A) (h : string -> M A) : M A :=
  fun w =>
    match m w with
    | (Ok a, w') => (Ok a, w')
    | (Throw e, w') => h e w'
    | (Expired rest, w') =>
        (Expired (fun w2 => resume_catch h (fst (rest w2)) (snd (rest w2))), w')
    end.

Notation "x <- c1 ;; c2" := (bind c1 (fun x => c2))
  (at level 61, c1 at next level, right associativity).
Notation "c1 ;;; c2" := (bind c1 (fun _ => c2))
  (at level 61, right associativity).

(** Waiting [ms] milliseconds for something outside.  When the armed
    timer expires first, the clock stops at the expiry and the promise is
    left pending: what it awaits still arrives [ms] milliseconds after the
    wait began, and [k] runs then. *)
Definition await {A} (ms : N) (k : M A) : M A :=
  fun w =>
    match deadline w with
    | Some d =>
        if (d <? clock w + ms)%N
        then (Expired (fun w2 => k (with_clock (N.max (clock w2) (clock w + ms)) w2)),
              with_clock d w)
        else k (with_clock (clock w + ms)%N w)
    | None => k (with_clock (clock w + ms)%N w)
    end.

(** [Promise.race([m, timeoutPromise])] with a timer of [ms]
    milliseconds that rejects with [message]: the outcome of the race and
    the world at the moment it settles.  When the timer wins, [m] is not
    cancelled; [still_running] gives what it goes on to do. *)
Definition race_timeout {A} (ms : N) (message : string) (m : M A) : M A :=
  fun w =>
    let saved := deadline w in
    match m (with_deadline (Some (clock w + ms)%N) w) with
    | (Expired _, w') => (Throw message, with_deadline saved w')
    | (r, w') => (r, with_deadline saved w')
    end.



(** ** File operations *)

Definition fs_existsSync (p : string) : M bool :=
  fun w => (Ok (existsSync p (fs w)), w).

Definition fs_unlinkSync (p : string) : M unit :=
  fun w =>
    if existsSync p (fs w)
    then (Ok tt, with_event (Unlinked p) (with_fs (remove_file p) w))
    else (Throw ("ENOENT: no such file or directory, unlink '" ++ p ++ "'")%string, w).

(** [fs.unlink(p, callback)] with a callback that ignores the error.
    The file is taken to be gone once the call is made, also where the
    code does not wait for the callback. *)
Definition fs_unlink (p : string) : M unit :=
  fun w =>
    if existsSync p (fs w)
    then (Ok tt, with_event (Unlinked p) (with_fs (remove_file p) w))
    else (Ok tt, w).

Definition fs_writeFileSync (p : string) (content : option string) : M unit :=
  fun w => (Ok tt, with_event (Wrote p content) (with_fs (write_file p) w)).

Definition fs_mkdirSync (p : string) : M unit :=
  fun w => (Ok tt, with_fs (write_file p) w).

(** [fs.rmSync(p, { recursive: true, force: true })]: the directory
    and everything below it. *)
Definition fs_rmSync (p : string) : M unit :=
  fun w =>
    (Ok tt,
     with_fs (filter (fun q => negb (String.eqb p q || String.prefix (p ++ "/") q)%string)) w).

(** [fs.createWriteStream(p)]: the file exists from then on. *)
Definition fs_createWriteStream (p : string) : M unit :=
  fun w => (Ok tt, with_fs (write_file p) w).

Section WithEnv.
Variable E : env.

(** [spawn(tool, args)] followed by the wait for [close] or [error]. *)
Definition spawn (tool : string) (args : list tstring) : M answer :=
  fun w =>
    let a := run E tool args in
    await (elapsed a)
          (fun w' => (Ok a, with_fs (write_files (written a)) w'))
          (with_event (Spawned tool args) w).

(** [fs.statSync(p).size] *)
Definition fs_statSync_size (p : string) : M N :=
  fun w =>
    if existsSync p (fs w) then (Ok (file_size E p), w)
    else (Throw ("ENOENT: no such file or directory, stat '" ++ p ++ "'")%string, w).

(** The await of a service. *)
Definition call {A} (r : reply A) : M A :=
  await (took r)
        (fun w =>
           let w' := with_fs (write_files (wrote r)) w in
           match value r with
           | inl a => (Ok a, w')
           | inr e => (Throw e, w')
           end).

End WithEnv.

End Run.

(* ================================================================== *)
(** * The interfaces shared by the processors *)
(* ================================================================== *)

Module Assets.
Import SubtitleProcessor.

Record VideoAssets : Type := mkAssets {
  images : list string;
  audioSegments : list string;
  scriptSegments : option (list TimedText)
}.

(** The optional [subtitles] argument of [createVideo]. *)
Record Subtitles : Type := mkSubtitles {
  segments : list TimedText;
  enabled : bool
}.

Definition no_assets_message : string := "No assets provided for video creation".

(** [x || fallback] on an optional string: the empty string is falsy. *)
Definition or_default (x : option string) (fallback : string) : string :=
  match x with
  | Some EmptyString => fallback
  | Some v => v
  | None => fallback
  end.

End Assets.

(* ================================================================== *)
(** * enhancedVideoProcessor.ts *)
(* ================================================================== *)

Module EnhancedVideoProcessor.
Import JS Node Run Assets SubtitleProcessor.

Section WithEnv.
Variable E : env.

(** [for (const x of l) { body x }] *)
Fixpoint for_of {A} (body : A -> M unit) (l : list A) : M unit :=
  match l with
  | [] => ret tt
  | x :: r => body x ;;; for_of body r
  end.

(** The write stream is created first.  An error that [https.get]
    throws at once rejects the promise before the [error] handler is
    attached, so that nothing unlinks the file; an error reported by the
    [error] event unlinks it. *)
Definition downloadImage (url outputPath : string) : M string :=
  fs_createWriteStream outputPath ;;;
  match https_get_throws E url with
  | Some error => throw error
  | None =>
      try_catch
        (call (https_get E url) ;;; ret outputPath)
        (fun error => fs_unlink outputPath ;;; throw error)
  end.

Definition check_audio (audioPath : string) : M unit :=
  present <- fs_existsSync audioPath ;;
  if negb present then throw ("Audio file not found: " ++ audioPath)%string
  else
    size <- fs_statSync_size E audioPath ;;
    if (size =? 0)%N then throw ("Audio file is empty: " ++ audioPath)%string
    else ret tt.

Definition single_audio_args (input outputPath : string) : list tstring :=
  map lit ["-y"; "-i"; input; "-c:a"; "pcm_s16le"; "-ar"; "44100";
           "-af"; "volume=0.8"; outputPath]%string.

Definition multi_audio_args (listFilePath outputPath : string) : list tstring :=
  map lit ["-y"; "-f"; "concat"; "-safe"; "0"; "-i"; listFilePath;
           "-c:a"; "pcm_s16le"; "-ar"; "44100"; "-af"; "volume=0.8";
           outputPath]%string.

Definition list_line (audioPath : string) : string :=
  ("file '" ++ audioPath ++ "'")%string.

(** The newline that joins the lines of the list file. *)
Definition NL : string := String (ascii_of_nat 10) EmptyString.

(** [try { fs.unlinkSync(p) } catch (e) { console.warn(...) }] *)
Definition unlink_quietly (p : string) : M unit :=
  try_catch (fs_unlinkSync p) (fun _ => ret tt).

Definition processAudio (audioSegments : list string) (outputPath : string) : M unit :=
  for_of check_audio audioSegments ;;;
  if (List.length audioSegments =? 1)%nat then
    a <- spawn E "ffmpeg" (single_audio_args (hd EmptyString audioSegments) outputPath) ;;
    match exit_of a with
    | Close code =>
        if (code =? 0)%Z then ret tt
        else throw ("Single audio processing failed: " ++ string_of_Z code)%string
    | ProcError error => throw error
    end
  else
    let listFilePath := path_join (dirname outputPath) "audio_list.txt" in
    let listContent := join NL (map list_line audioSegments) in
    fs_writeFileSync listFilePath (Some listContent) ;;;
    a <- spawn E "ffmpeg" (multi_audio_args listFilePath outputPath) ;;
    match exit_of a with
    | Close code =>
        unlink_quietly listFilePath ;;;
        if (code =? 0)%Z then ret tt
        else throw ("Multi audio processing failed: " ++ string_of_Z code)%string
    | ProcError error =>
        unlink_quietly listFilePath ;;;
        throw error
    end.

Record Options : Type := mkOptions {
  subtitles : option Subtitles;
  textColor : option string;
  videoTopic : option string;
  totalDuration : Q
}.

Definition is_quote (c : N) : bool := ((c =? 39) || (c =? 34))%N.

(** The characters that the second replacement leaves alone:
    [\w], [\s] and the four marks [. ! ? -]. *)
Definition kept (c : N) : bool :=
  (is_word c || is_space c || (c =? 46) || (c =? 33) || (c =? 63) || (c =? 45))%N.

(** The text cleaning applied to each caption before it is put into the
    [drawtext] filter. *)
Definition cleanText (text : jsstring) : jsstring :=
  let cleaned :=
    trim (replace_space_runs false
            (map (fun c => if kept c then c else SPACE)
                 (filter (fun c => negb (is_quote c)) text))) in
  if (55 <? List.length cleaned)%nat
  then substring0 52 cleaned ++ [DOT; DOT; DOT]
  else cleaned.

Definition fontPath : string := "/usr/share/fonts/truetype/dejavu/DejaVuSans-Bold.ttf".

Definition image_input (seconds : Q) (imagePath : string) : list tstring :=
  [lit "-loop"; lit "1"; lit "-t"; [Num seconds]; lit "-i"; lit imagePath].

Definition image_filter (durationPerImage : Q) (index : nat) : tstring :=
  [Lit "["; Lit (string_of_nat (index + 1)%nat);
   Lit ":v]scale=1920:1080:force_original_aspect_ratio=decrease,pad=1920:1080:(ow-iw)/2:(oh-ih)/2:color=black,zoompan=z='min(zoom+0.001,1.1)':x='iw/2-(iw/zoom/2)':y='ih/2-(ih/zoom/2)':d=125:s=1920x1080,format=yuv420p,fade=t=in:st=0:d=0.5,fade=t=out:st=";
   Num (fsub durationPerImage (1 # 2));
   Lit ":d=0.5,setpts=PTS-STARTPTS[v"; Lit (string_of_nat index); Lit "]"].

Definition concat_input (index : nat) : tstring :=
  [Lit "[v"; Lit (string_of_nat index); Lit "]"].

Definition drawtext (cleaned : jsstring) (color : string) (startTime endTime : Q) : tstring :=
  [Lit "drawtext=text='"; Txt cleaned; Lit "':fontfile="; Lit fontPath;
   Lit ":fontsize=32:fontcolor="; Lit color;
   Lit ":x=(w-text_w)/2:y=h-th-80:borderw=3:bordercolor=black:shadowcolor=black:shadowx=2:shadowy=2:enable='between(t,";
   Fixed2 startTime; Lit ","; Fixed2 endTime; Lit ")'"].

(** The loop over [options.subtitles.segments], [currentTime] being the
    running start time. *)
Fixpoint textFilters (color : string) (currentTime : Q) (segs : list TimedText)
  : list tstring :=
  match segs with
  | [] => []
  | segment :: r =>
      drawtext (cleanText (text segment)) color
               currentTime (currentTime + duration segment)
      :: textFilters color (currentTime + duration segment) r
  end.

Definition overlays_wanted (o : Options) : option (list TimedText) :=
  match subtitles o with
  | Some sub =>
      if enabled sub && (0 <? List.length (segments sub))%nat
      then Some (segments sub) else None
  | None => None
  end.

Definition durationPerImage_of (o : Options) (imagePaths : list string) : Q :=
  fdiv (totalDuration o) (of_nat (List.length imagePaths)).

Definition advanced_args (imagePaths : list string) (audioPath outputPath : string)
           (o : Options) : list tstring :=
  let durationPerImage := durationPerImage_of o imagePaths in
  let indices := seq 0 (List.length imagePaths) in
  let videoFilters := tjoin ";" (map (image_filter durationPerImage) indices) in
  let concatInputs := List.concat (map concat_input indices) in
  let graph :=
    videoFilters ++ [Lit ";"] ++ concatInputs
    ++ [Lit "concat=n="; Lit (string_of_nat (List.length imagePaths));
        Lit ":v=1:a=0[video]"] in
  [lit "-y"; lit "-i"; lit audioPath]
  ++ List.concat (map (image_input (fadd durationPerImage 1)) imagePaths)
  ++ match overlays_wanted o with
     | Some segs =>
         let chain := tjoin "," (textFilters (or_default (textColor o) "yellow") 0 segs) in
         [lit "-filter_complex";
          graph ++ [Lit ";[video]"] ++ chain ++ [Lit "[final]"];
          lit "-map"; lit "[final]"; lit "-map"; lit "0:a"]
     | None =>
         [lit "-filter_complex"; graph;
          lit "-map"; lit "[video]"; lit "-map"; lit "0:a"]
     end
  ++ map lit ["-c:v"; "libx264"; "-preset"; "medium"; "-crf"; "20";
              "-pix_fmt"; "yuv420p"; "-c:a"; "aac"; "-b:a"; "128k";
              "-shortest"; outputPath]%string.

Definition check_image (imagePath : string) : M unit :=
  present <- fs_existsSync imagePath ;;
  if negb present then throw ("Image file not found: " ++ imagePath)%string
  else ret tt.

Definition createAdvancedVideo (imagePaths : list string) (audioPath outputPath : string)
           (o : Options) : M unit :=
  for_of check_image imagePaths ;;;
  a <- spawn E "ffmpeg" (advanced_args imagePaths audioPath outputPath o) ;;
  match exit_of a with
  | Close code =>
      if (code =? 0)%Z then ret tt
      else throw ("Advanced video creation failed: " ++ string_of_Z code)%string
  | ProcError error => throw error
  end.

Definition createVideo (assets : VideoAssets) (outputPath : string) (totalDuration : Q)
           (subtitles : option Subtitles)
           (videoTopic textFont textColor : option string) : M string :=
  if (List.length (images assets) =? 0)%nat
     || (List.length (audioSegments assets) =? 0)%nat
  then throw no_assets_message
  else
    try_catch
      (let audioPath := path_join (dirname outputPath) "final_audio.wav" in
       processAudio (audioSegments assets) audioPath ;;;
       createAdvancedVideo (images assets) audioPath outputPath
                           (mkOptions subtitles textColor videoTopic totalDuration) ;;;
       ret outputPath)
      (fun error => throw error).

End WithEnv.

End EnhancedVideoProcessor.

(* ================================================================== *)
(** * basicVideoProcessor.ts *)
(* ================================================================== *)

Module BasicVideoProcessor.
Import JS Node Run Assets SubtitleProcessor.

Section WithEnv.
Variable E : env.

Definition normalize_args (inputPath outputPath : string) : list tstring :=
  map lit ["-y"; "-i"; inputPath; "-acodec"; "pcm_s16le"; "-ar"; "44100";
           "-ac"; "1"; outputPath]%string.

Definition normalizeAudio (inputPath outputPath : string) : M unit :=
  a <- spawn E "ffmpeg" (normalize_args inputPath outputPath) ;;
  match exit_of a with
  | Close code =>
      if (code =? 0)%Z then ret tt
      else throw ("Audio normalization failed: " ++ string_of_Z code)%string
  | ProcError error => throw error
  end.

Definition concatenate_args (audioPaths : list string) (outputPath : string)
  : list tstring :=
  [lit "-y"]
  ++ List.concat (map (fun audioPath => [lit "-i"; lit audioPath]) audioPaths)
  ++ [lit "-filter_complex";
      [Lit "concat=n="; Lit (string_of_nat (List.length audioPaths)); Lit ":v=0:a=1"];
      lit "-acodec"; lit "pcm_s16le"; lit "-ar"; lit "44100"; lit outputPath].

Definition concatenateAudio (audioPaths : list string) (outputPath : string) : M unit :=
  a <- spawn E "ffmpeg" (concatenate_args audioPaths outputPath) ;;
  match exit_of a with
  | Close code =>
      if (code =? 0)%Z then ret tt
      else throw ("Audio concatenation failed: " ++ string_of_Z code)%string
  | ProcError error => throw error
  end.

Definition normalizedPath_of (outputDir : string) (i : nat) : string :=
  path_join outputDir ("norm_" ++ string_of_nat i ++ ".wav")%string.

(** The loop [for (let i = 0; i < audioSegments.length; i++)], entered at
    index [i] with the paths normalised so far. *)
Fixpoint normalize_from (outputDir : string) (i : nat) (rest : list string)
         (normalizedAudio : list string) : M (list string) :=
  match rest with
  | [] => ret normalizedAudio
  | segment :: r =>
      normalizeAudio segment (normalizedPath_of outputDir i) ;;;
      normalize_from outputDir (S i) r
                     (normalizedAudio ++ [normalizedPath_of outputDir i])
  end.

Definition unlink_if_present (file : string) : M unit :=
  present <- fs_existsSync file ;;
  if present then fs_unlinkSync file else ret tt.

Definition processAudio (audioSegments : list string) (outputDir : string) : M string :=
  let processedAudioPath := path_join outputDir "processed_audio.wav" in
  normalizedAudio <- normalize_from outputDir 0 audioSegments [] ;;
  concatenateAudio normalizedAudio processedAudioPath ;;;
  EnhancedVideoProcessor.for_of unlink_if_present normalizedAudio ;;;
  ret processedAudioPath.

Record Options : Type := mkOptions {
  subtitles : option Subtitles;
  textFont : option string;
  textColor : option string;
  videoTopic : option string
}.

Definition getSimpleEffect (index : nat) : string :=
  nth (index mod 3)
      ["scale=1.1*iw:1.1*ih"; "scale=1920:1080"; "scale=1.05*iw:1.05*ih"]%string
      EmptyString.

(** The title text: quotes, backslashes and colons go, then every
    character outside [\w \s . , ! ? -], then at most 30 units stay. *)
Definition safeText (topic : jsstring) : jsstring :=
  substring0 30
    (filter (fun c => is_word c || is_space c
                      || (c =? 46) || (c =? 44) || (c =? 33) || (c =? 63) || (c =? 45))%N
       (filter (fun c => negb ((c =? 39) || (c =? 34) || (c =? 92) || (c =? 58)))%N
               topic)).

Definition image_filter (index : nat) : tstring :=
  [Lit "["; Lit (string_of_nat index);
   Lit ":v]scale=1920:1080:force_original_aspect_ratio=decrease,pad=1920:1080:(ow-iw)/2:(oh-ih)/2:color=black,format=yuv420p,";
   Lit (getSimpleEffect index);
   Lit ",setpts=PTS-STARTPTS[v"; Lit (string_of_nat index); Lit "]"].

Definition overlay_wanted (assets : VideoAssets) (o : Options) : bool :=
  match subtitles o, scriptSegments assets with
  | Some sub, Some segs => enabled sub && (0 <? List.length segs)%nat
  | _, _ => false
  end.

Definition basic_args (assets : VideoAssets) (outputPath audioPath : string)
           (totalDuration : Q) (o : Options) : list tstring :=
  let n := List.length (images assets) in
  let durationPerImage := fdiv totalDuration (of_nat n) in
  let indices := seq 0 n in
  let imageFilters := tjoin ";" (map image_filter indices) in
  let videoInputs := List.concat (map EnhancedVideoProcessor.concat_input indices) in
  let graph :=
    imageFilters ++ [Lit ";"] ++ videoInputs
    ++ [Lit "concat=n="; Lit (string_of_nat n); Lit ":v=1:a=0[video]"] in
  [lit "-y"]
  ++ List.concat
       (map (EnhancedVideoProcessor.image_input (fadd durationPerImage (1 # 2)))
            (images assets))
  ++ [lit "-i"; lit audioPath; lit "-filter_complex";
      (if overlay_wanted assets o
       then graph
            ++ [Lit ";[video]drawtext=fontfile=/usr/share/fonts/truetype/dejavu/DejaVuSans-Bold.ttf:text='";
                Txt (safeText (of_string (or_default (videoTopic o) "Video")));
                Lit "':fontsize=60:fontcolor=";
                Lit (or_default (textColor o) "yellow");
                Lit ":x=(w-text_w)/2:y=100:shadowcolor=black@0.8:shadowx=2:shadowy=2[outv]"]
       else graph ++ [Lit ";[video]copy[outv]"]);
      lit "-map"; lit "[outv]"; lit "-map";
      [Lit (string_of_nat n); Lit ":a"]]
  ++ map lit ["-c:v"; "libx264"; "-preset"; "medium"; "-crf"; "23";
              "-c:a"; "aac"; "-b:a"; "128k"; "-pix_fmt"; "yuv420p";
              "-shortest"; outputPath]%string.

Definition createBasicVideo (assets : VideoAssets) (outputPath audioPath : string)
           (totalDuration : Q) (o : Options) : M unit :=
  a <- spawn E "ffmpeg" (basic_args assets outputPath audioPath totalDuration o) ;;
  match exit_of a with
  | Close code =>
      if (code =? 0)%Z then ret tt
      else throw ("Basic video creation failed: " ++ string_of_Z code)%string
  | ProcError error => throw error
  end.

Definition createVideo (assets : VideoAssets) (outputPath : string) (totalDuration : Q)
           (subtitles : option Subtitles)
           (videoTopic textFont textColor : option string) : M string :=
  if (List.length (images assets) =? 0)%nat
     || (List.length (audioSegments assets) =? 0)%nat
  then throw no_assets_message
  else
    try_catch
      (processedAudioPath <- processAudio (audioSegments assets) (dirname outputPath) ;;
       createBasicVideo assets outputPath processedAudioPath totalDuration
                        (mkOptions subtitles textFont textColor videoTopic) ;;;
       unlink_if_present processedAudioPath ;;;
       ret outputPath)
      (fun error => throw error).

End WithEnv.

End BasicVideoProcessor.

(* ================================================================== *)
(** * videoProcessor.ts *)
(* ================================================================== *)

Module VideoProcessor.
Import JS Node Run Assets SubtitleProcessor.

Section WithEnv.
Variable E : env.

(** A spawned process watched by a timer of [limit] milliseconds:
    [None] when the timer fires before the process ends. *)
Definition spawn_within (limit : N) (tool : string) (args : list tstring)
  : M (option answer) :=
  fun w =>
    let a := run E tool args in
    if (limit <? elapsed a)%N
    then await limit (ret None) (with_event (Spawned tool args) w)
    else await (elapsed a)
               (fun w' => (Ok (Some a), with_fs (write_files (written a)) w'))
               (with_event (Spawned tool args) w).

Definition cleanTopic (topic : jsstring) : jsstring :=
  substring0 50 (filter (fun c => negb (EnhancedVideoProcessor.is_quote c)) topic).

Definition title_args (topic titlePagePath : string) : list tstring :=
  [lit "-y"; lit "-f"; lit "lavfi"; lit "-i";
   lit "color=c=0x1e3a8a:size=1920x1080:duration=0.1";
   lit "-filter_complex";
   tjoin ";"
     [[Lit "[0:v]drawtext=fontfile=/usr/share/fonts/truetype/dejavu/DejaVuSans-Bold.ttf:text='";
       Txt (cleanTopic (of_string topic));
       Lit "':fontsize=72:fontcolor=white:x=(w-text_w)/2:y=(h-text_h)/2-50:shadowcolor=black:shadowx=3:shadowy=3[title]"];
      [Lit "[title]drawtext=fontfile=/usr/share/fonts/truetype/dejavu/DejaVuSans.ttf:text='Explainer Video':fontsize=36:fontcolor=0xe2e8f0:x=(w-text_w)/2:y=(h-text_h)/2+50+5*sin(t*2):shadowcolor=black:shadowx=2:shadowy=2:alpha='if(between(t,0.5,2),1,0)'[final]"]];
   lit "-map"; lit "[final]"; lit "-frames:v"; lit "1";
   lit "-pix_fmt"; lit "yuv420p"; lit titlePagePath].

(** Resolves with the path of the title page, or with [null] when
    FFmpeg fails. *)
Definition createTitlePage (topic outputDir : string) : M (option string) :=
  let titlePagePath := path_join outputDir "title_page.png" in
  a <- spawn E "ffmpeg" (title_args topic titlePagePath) ;;
  match exit_of a with
  | Close code => if (code =? 0)%Z then ret (Some titlePagePath) else ret None
  | ProcError _ => ret None
  end.

Definition truthy_string (s : option string) : option string :=
  match s with
  | Some EmptyString => None
  | Some v => Some v
  | None => None
  end.

Definition titleDuration_of (titlePagePath : option string) : Q :=
  match truthy_string titlePagePath with Some _ => 2 | None => 0 end.

Definition durationPerImage_of (totalDuration : Q) (titlePagePath : option string)
           (assets : VideoAssets) : Q :=
  let titleDuration := titleDuration_of titlePagePath in
  let contentDuration := fsub totalDuration titleDuration in
  fdiv contentDuration (of_nat (List.length (images assets))).

Definition image_filter (imageStartIndex index : nat) : tstring :=
  [Lit "["; Lit (string_of_nat (imageStartIndex + index)%nat);
   Lit ":v]scale=1920:1080:force_original_aspect_ratio=decrease,pad=1920:1080:(ow-iw)/2:(oh-ih)/2:color=black,format=yuv420p,setpts=PTS-STARTPTS[v";
   Lit (string_of_nat index); Lit "]"].

Definition audio_input_label (audioStartIndex index : nat) : tstring :=
  [Lit "["; Lit (string_of_nat (audioStartIndex + index)%nat); Lit ":a]"].

Definition video_args (assets : VideoAssets) (outputPath : string) (totalDuration : Q)
           (titlePagePath : option string) : list tstring :=
  let title := truthy_string titlePagePath in
  let titleDuration := titleDuration_of titlePagePath in
  let durationPerImage := durationPerImage_of totalDuration titlePagePath assets in
  let n := List.length (images assets) in
  let imageStartIndex := match title with Some _ => 1%nat | None => 0%nat end in
  let filterComplex :=
    match title with
    | Some _ => [Lit "[0:v]scale=1920:1080:force_original_aspect_ratio=decrease,pad=1920:1080:(ow-iw)/2:(oh-ih)/2:color=black,format=yuv420p,fade=in:0:30,setpts=PTS-STARTPTS[title];"]
    | None => []
    end
    ++ tjoin ";" (map (image_filter imageStartIndex) (seq 0 n)) in
  let videoInputs :=
    match title with Some _ => [lit "[title]"] | None => [] end
    ++ map EnhancedVideoProcessor.concat_input (seq 0 n) in
  let concatFilter :=
    List.concat videoInputs
    ++ [Lit "concat=n="; Lit (string_of_nat (List.length videoInputs));
        Lit ":v=1:a=0[outv]"] in
  let audioStartIndex := (n + imageStartIndex)%nat in
  let audioFilter :=
    List.concat (map (audio_input_label audioStartIndex)
                     (seq 0 (List.length (audioSegments assets))))
    ++ [Lit "concat=n="; Lit (string_of_nat (List.length (audioSegments assets)));
        Lit ":v=0:a=1[concatenated_audio]"]
    ++ match title with
       | Some _ => [Lit ";aevalsrc=0:d="; Num titleDuration;
                    Lit "[silence];[silence][concatenated_audio]concat=n=2:v=0:a=1[outa]"]
       | None => [Lit ";[concatenated_audio]acopy[outa]"]
       end in
  [lit "-y"]
  ++ match title with
     | Some p => [lit "-loop"; lit "1"; lit "-t"; [Num titleDuration]; lit "-i"; lit p]
     | None => []
     end
  ++ List.concat
       (map (EnhancedVideoProcessor.image_input (fadd durationPerImage (1 # 2)))
            (images assets))
  ++ List.concat (map (fun audioPath => [lit "-i"; lit audioPath]) (audioSegments assets))
  ++ [lit "-filter_complex";
      filterComplex ++ [Lit ";"] ++ concatFilter ++ [Lit ";"] ++ audioFilter;
      lit "-map"; lit "[outv]"; lit "-map"; lit "[outa]"]
  ++ map lit ["-c:v"; "libx264"; "-preset"; "medium"; "-crf"; "23";
              "-c:a"; "aac"; "-b:a"; "128k"; "-pix_fmt"; "yuv420p";
              outputPath]%string.

(** The closure [cleanup]: the title page is unlinked when it exists. *)
Definition cleanup (titlePagePath : option string) : M unit :=
  match truthy_string titlePagePath with
  | Some p =>
      present <- fs_existsSync p ;;
      if present then fs_unlink p else ret tt
  | None => ret tt
  end.

Definition explain (code : Z) (errorOutput : string) : string :=
  if includes "No such file or directory" errorOutput
  then "Video compilation failed: Missing input files"
  else if includes "Invalid data" errorOutput
  then "Video compilation failed: Corrupted audio or image data"
  else if includes "Permission denied" errorOutput
  then "Video compilation failed: File access permission error"
  else if includes "Disk full" errorOutput
  then "Video compilation failed: Insufficient disk space"
  else if includes "codec" errorOutput
  then "Video compilation failed: Audio/video encoding error"
  else ("FFmpeg process failed (exit code: " ++ string_of_Z code ++ ")")%string.

(** Five minutes, in milliseconds. *)
Definition ffmpeg_limit : N := (5 * 60 * 1000)%N.

Definition createVideo (assets : VideoAssets) (outputPath : string) (totalDuration : Q)
           (subtitles : option Subtitles)
           (videoTopic textFont textColor : option string) : M string :=
  if (List.length (images assets) =? 0)%nat
     || (List.length (audioSegments assets) =? 0)%nat
  then throw no_assets_message
  else
    titlePagePath <-
      match truthy_string videoTopic with
      | Some topic => createTitlePage topic (dirname outputPath)
      | None => ret None
      end ;;
    r <- spawn_within ffmpeg_limit "ffmpeg"
           (video_args assets outputPath totalDuration titlePagePath) ;;
    match r with
    | None =>
        (* the timer callback kills the process and rejects; [cleanup]
           runs only in the [close] handler of the killed process, after
           the promise has settled *)
        throw "Video creation timed out after 5 minutes"
    | Some a =>
        cleanup titlePagePath ;;;
        match exit_of a with
        | Close code =>
            if (code =? 0)%Z then ret outputPath
            else throw (explain code (stderr a))
        | ProcError message =>
            throw ("Failed to start FFmpeg: " ++ message)%string
        end
    end.

(** [Promise.all] over unlinks whose errors are ignored. *)
Fixpoint cleanupTempFiles (filePaths : list string) : M unit :=
  match filePaths with
  | [] => ret tt
  | filePath :: r => fs_unlink filePath ;;; cleanupTempFiles r
  end.

Definition ensureTempDirectory : M string :=
  let tempDir := path_join (cwd E) "temp" in
  present <- fs_existsSync tempDir ;;
  (if negb present then fs_mkdirSync tempDir else ret tt) ;;;
  ret tempDir.

End WithEnv.

End VideoProcessor.

(* ================================================================== *)
(** * revideoRenderer.ts and createVideoWithRevideo.ts *)
(* ================================================================== *)

Module Revideo.
Import JS Node Run Assets SubtitleProcessor.

Record RevideoRenderOptions : Type := mkRenderOptions {
  script : list TimedText;
  images : list string;
  audioPath : string;
  outputPath : string;
  textColor : string;
  textFont : string;
  topic : string;
  totalDuration : Q
}.

Definition missing_dependencies : string :=
  "Missing required system dependencies for Revideo (Chrome/Puppeteer libraries)".

Section WithEnv.
Variable E : env.

(** [execSync('which google-chrome || which chromium-browser')] succeeds
    or throws. *)
Definition checkSystemDependencies : M bool := ret (has_chrome E).

Definition renderWithProgrammaticAPI (projectPath outputPath : string) : M unit :=
  try_catch
    (hasRequiredDependencies <- checkSystemDependencies ;;
     if negb hasRequiredDependencies
     then throw missing_dependencies
     else call (renderVideo E projectPath outputPath) ;;; ret tt)
    (fun error => throw error).

(** The text of the generated project file is not inspected by any
    property; the file is recorded as written. *)
Definition renderVideoWithRevideo (o : RevideoRenderOptions) : M unit :=
  try_catch
    (let projectDir := path_join (dirname (outputPath o)) "revideo-project" in
     present <- fs_existsSync projectDir ;;
     (if negb present then fs_mkdirSync projectDir else ret tt) ;;;
     let projectPath := path_join projectDir "project.ts" in
     fs_writeFileSync projectPath None ;;;
     renderWithProgrammaticAPI projectPath (outputPath o) ;;;
     still <- fs_existsSync projectDir ;;
     if still then fs_rmSync projectDir else ret tt)
    (fun error => throw error).

Definition concat_args (fileListPath outputPath : string) : list tstring :=
  map lit ["-y"; "-f"; "concat"; "-safe"; "0"; "-i"; fileListPath;
           "-c:a"; "pcm_s16le"; "-ar"; "44100"; "-ac"; "1"; outputPath]%string.

Definition concatenateAudioSegments (audioSegments : list string) (outputDir : string)
  : M string :=
  let outputPath := path_join outputDir "final_audio.wav" in
  let fileListPath := path_join outputDir "audio_files.txt" in
  let fileListContent :=
    join EnhancedVideoProcessor.NL (map EnhancedVideoProcessor.list_line audioSegments) in
  fs_writeFileSync fileListPath (Some fileListContent) ;;;
  a <- spawn E "ffmpeg" (concat_args fileListPath outputPath) ;;
  match exit_of a with
  | Close code =>
      BasicVideoProcessor.unlink_if_present fileListPath ;;;
      if (code =? 0)%Z then ret outputPath
      else throw ("Audio concatenation failed with code " ++ string_of_Z code)%string
  | ProcError error => throw error
  end.

(** The argument [subtitleData]; its entries carry a start and an end
    time besides the text and the duration. *)
Record SubtitleEntry : Type := mkEntry {
  entryText : jsstring;
  entryStart : Q;
  entryEnd : Q;
  entryDuration : Q
}.

Record SubtitleData : Type := mkSubtitleData {
  segments : list SubtitleEntry;
  enabled : bool
}.

(** The same object seen through the parameter type of the FFmpeg
    processor, which reads the text and the duration only. *)
Definition as_subtitles (d : SubtitleData) : Subtitles :=
  mkSubtitles (map (fun e => mkTimed (entryText e) (entryDuration e)) (segments d))
              (enabled d).

(** The body of the [try] block: the Revideo attempt. *)
Definition revideo_attempt (assets : VideoAssets) (outputPath : string)
           (totalAudioDuration : Q) (topic : string)
           (textFont textColor : option string) : M unit :=
  audioPath <- concatenateAudioSegments (audioSegments assets) (dirname outputPath) ;;
  renderVideoWithRevideo
    (mkRenderOptions
       (match scriptSegments assets with Some l => l | None => [] end)
       (Assets.images assets) audioPath outputPath
       (or_default textColor "yellow") (or_default textFont "Arial")
       topic totalAudioDuration).

(** The body of the [catch] block: the FFmpeg processor on the same
    arguments. *)
Definition ffmpeg_fallback (assets : VideoAssets) (outputPath : string)
           (totalAudioDuration : Q) (subtitleData : SubtitleData) (topic : string)
           (textFont textColor : option string) : M unit :=
  EnhancedVideoProcessor.createVideo E assets outputPath totalAudioDuration
    (Some (as_subtitles subtitleData)) (Some topic) textFont textColor ;;;
  ret tt.

Definition createVideoWithRevideo (assets : VideoAssets) (outputPath : string)
           (totalAudioDuration : Q) (subtitleData : SubtitleData) (topic : string)
           (textFont textColor : option string) : M unit :=
  try_catch
    (revideo_attempt assets outputPath totalAudioDuration topic textFont textColor)
    (fun _ =>
       ffmpeg_fallback assets outputPath totalAudioDuration subtitleData topic
                       textFont textColor).

End WithEnv.

End Revideo.

(* ================================================================== *)
(** * routes.ts: the duration probe and the generation routine *)
(* ================================================================== *)

Module Routes.
Import JS Node Run Assets SubtitleProcessor.

Section WithEnv.
Variable E : env.

Definition ffprobe_args (audioPath : string) : list tstring :=
  map lit ["-v"; "quiet"; "-show_entries"; "format=duration";
           "-of"; "csv=p=0"; audioPath]%string.

(** The actual duration of an audio file, asked from [ffprobe]. *)
Definition getAudioDuration (audioPath : string) : M Q :=
  a <- spawn E "ffprobe" (ffprobe_args audioPath) ;;
  match exit_of a with
  | Close code =>
      if (code =? 0)%Z then
        match parseFloat (trim (of_string (stdout a))) with
        | Some duration => ret duration
        | None => throw "Could not parse audio duration"
        end
      else throw ("ffprobe failed with code " ++ string_of_Z code)%string
  | ProcError error => throw error
  end.

(** ** The storage *)

Fixpoint lookup (videoId : string) (l : list (string * Schema.Video)) : option Schema.Video :=
  match l with
  | [] => None
  | (k, v) :: r => if String.eqb videoId k then Some v else lookup videoId r
  end.

Definition getVideo (videoId : string) : M (option Schema.Video) :=
  fun w => (Ok (lookup videoId (videos w)), w).

Definition updateVideo (videoId : string) (change : Schema.Video -> Schema.Video) : M unit :=
  fun w =>
    (Ok tt,
     with_videos
       (map (fun kv => if String.eqb videoId (fst kv) then (fst kv, change (snd kv)) else kv))
       w).

Definition set_script (text : jsstring) (v : Schema.Video) : Schema.Video :=
  Schema.mkVideo (Schema.id v) (Schema.topic v) (Schema.duration v) (Schema.language v)
    (Schema.voiceStyle v) (Schema.imageStyle v) (Schema.imageProvider v)
    (Schema.runwareModel v) (Schema.subtitles v) (Schema.status v)
    (Some text) (Schema.videoUrl v) (Schema.errorMessage v) (Schema.assets v)
    (Schema.subtitleData v).

Definition set_failed (errorMessage : string) (v : Schema.Video) : Schema.Video :=
  Schema.mkVideo (Schema.id v) (Schema.topic v) (Schema.duration v) (Schema.language v)
    (Schema.voiceStyle v) (Schema.imageStyle v) (Schema.imageProvider v)
    (Schema.runwareModel v) (Schema.subtitles v) "failed"
    (Schema.script v) (Schema.videoUrl v) (Some errorMessage) (Schema.assets v)
    (Schema.subtitleData v).

Definition set_completed (videoUrl : string) (images audioSegments : list string)
           (subtitleData : option (list SubtitleSegment)) (v : Schema.Video)
  : Schema.Video :=
  Schema.mkVideo (Schema.id v) (Schema.topic v) (Schema.duration v) (Schema.language v)
    (Schema.voiceStyle v) (Schema.imageStyle v) (Schema.imageProvider v)
    (Schema.runwareModel v) (Schema.subtitles v) "completed"
    (Schema.script v) (Some videoUrl) (Schema.errorMessage v)
    (Some (images, audioSegments)) subtitleData.

Definition push_tempFile (p : string) : M unit :=
  fun w => (Ok tt, with_tempFiles (fun l => l ++ [p]) w).

Definition read_tempFiles : M (list string) :=
  fun w => (Ok (tempFiles w), w).

(** ** The steps of [generationPromise] *)

Definition script_step (video : Schema.Video) : M (list Script.ScriptSegment) :=
  let language := or_default (Schema.language video) "english" in
  try_catch
    (call (generateScript E (Schema.topic video) (Schema.duration video) language))
    (fun message =>
       if includes "quota" message
       then ret (generateFallbackScript E (Schema.topic video) (Schema.duration video) language)
       else throw message).

Definition imagePath_of (tempDir videoId : string) (i : nat) : string :=
  path_join tempDir ("image-" ++ videoId ++ "-" ++ string_of_nat i ++ ".jpg")%string.

Definition audioPath_of (tempDir videoId : string) (i : nat) : string :=
  path_join tempDir ("audio-" ++ videoId ++ "-" ++ string_of_nat i ++ ".mp3")%string.

(** The image loop entered at index [i]. *)
Fixpoint images_from (video : Schema.Video) (tempDir videoId : string) (i : nat)
         (rest : list Script.ScriptSegment) (imagePaths : list string)
  : M (list string) :=
  match rest with
  | [] => ret imagePaths
  | segment :: r =>
      let imageStyle := or_default (Schema.imageStyle video) "modern" in
      let imageProvider := or_default (Schema.imageProvider video) "dalle" in
      imageUrl <-
        (if String.eqb imageProvider "runware"
         then call (generateImageWithRunware E (Script.imagePrompt segment) imageStyle
                      (or_default (Schema.runwareModel video) "runware:100@1"))
         else call (generateImage E (Script.imagePrompt segment) imageStyle)) ;;
      let imagePath := imagePath_of tempDir videoId i in
      EnhancedVideoProcessor.downloadImage E imageUrl imagePath ;;;
      push_tempFile imagePath ;;;
      images_from video tempDir videoId (S i) r (imagePaths ++ [imagePath])
  end.

(** The audio loop entered at index [i]. *)
Fixpoint audio_from (video : Schema.Video) (tempDir videoId : string) (i : nat)
         (rest : list Script.ScriptSegment) (audioPaths : list string)
  : M (list string) :=
  match rest with
  | [] => ret audioPaths
  | segment :: r =>
      let audioPath := audioPath_of tempDir videoId i in
      call (generateAudio E (Script.text segment)
              (or_default (Schema.voiceStyle video) "professional") audioPath
              (or_default (Schema.language video) "english")) ;;;
      push_tempFile audioPath ;;;
      audio_from video tempDir videoId (S i) r (audioPaths ++ [audioPath])
  end.

(** The duration used for segment [i]: the probed one, or the script's
    own duration when the probe fails. *)
Definition duration_for (audioPath : string) (segment : Script.ScriptSegment) : M Q :=
  try_catch (getAudioDuration audioPath) (fun _ => ret (Script.duration segment)).

(** The subtitle timing loop entered at index [i] with the running start
    time and the entries pushed so far. *)
Fixpoint timing_from (audioPaths : list string) (i : nat)
         (rest : list Script.ScriptSegment) (currentStartTime : Q)
         (segments : list SubtitleSegment) : M (list SubtitleSegment) :=
  match rest with
  | [] => ret segments
  | segment :: r =>
      audioDuration <- duration_for (nth i audioPaths EmptyString) segment ;;
      timing_from audioPaths (S i) r (currentStartTime + audioDuration)
        (segments ++ [mkSubtitle currentStartTime (currentStartTime + audioDuration)
                                 (Script.text segment)])
  end.

Definition subtitle_step (video : Schema.Video)
           (scriptSegments : list Script.ScriptSegment) (audioPaths : list string)
  : M (option (list SubtitleSegment)) :=
  if Schema.subtitles video && (0 <? List.length scriptSegments)%nat
  then segments <- timing_from audioPaths 0 scriptSegments 0 [] ;; ret (Some segments)
  else ret None.

Definition as_timed (s : Script.ScriptSegment) : TimedText :=
  mkTimed (Script.text s) (Script.duration s).

Definition generationPromise (video : Schema.Video) (tempDir videoId : string) : M unit :=
  scriptSegments <- script_step video ;;
  updateVideo videoId
    (set_script (join_text [SPACE] (map Script.text scriptSegments))) ;;;
  imagePaths <- images_from video tempDir videoId 0 scriptSegments [] ;;
  audioPaths <- audio_from video tempDir videoId 0 scriptSegments [] ;;
  let videoPath := path_join tempDir ("video-" ++ videoId ++ ".mp4")%string in
  EnhancedVideoProcessor.createVideo E
    (mkAssets imagePaths audioPaths None) videoPath (Schema.duration video)
    (if Schema.subtitles video
     then Some (mkSubtitles (map as_timed scriptSegments) true) else None)
    None None None ;;;
  subtitleData <- subtitle_step video scriptSegments audioPaths ;;
  updateVideo videoId (set_completed videoPath imagePaths audioPaths subtitleData).

(** Ten minutes, in milliseconds. *)
Definition generation_limit : N := (10 * 60 * 1000)%N.

Definition timeout_message : string := "Video generation timed out after 10 minutes".

(** [const tempFiles: string[] = []] *)
Definition fresh_tempFiles : M unit :=
  fun w => (Ok tt, with_tempFiles (fun _ => []) w).

(** The outer [catch] block. *)
Definition on_failure (videoId errorMessage : string) : M unit :=
  updateVideo videoId (set_failed errorMessage) ;;;
  registered <- read_tempFiles ;;
  VideoProcessor.cleanupTempFiles registered ;;;
  throw errorMessage.

Definition generateVideoContent (videoId : string) : M unit :=
  found <- getVideo videoId ;;
  match found with
  | None => throw "Video not found"
  | Some video =>
      tempDir <- VideoProcessor.ensureTempDirectory E ;;
      fresh_tempFiles ;;;
      try_catch
        (race_timeout generation_limit timeout_message
                      (generationPromise video tempDir videoId))
        (on_failure videoId)
  end.



(** ** The audio loop of [compileVideoInBackground]

    The compile route generates and probes each clip; here the probe is
    not guarded. *)
Fixpoint compile_audio_from (video : Schema.Video) (tempDir : string) (i : nat)
         (rest : list Script.ScriptSegment)
         (audioSegments : list string) (audioDurations : list Q)
  : M (list string * list Q) :=
  match rest with
  | [] => ret (audioSegments, audioDurations)
  | segment :: r =>
      let audioPath := path_join tempDir ("audio_" ++ string_of_nat i ++ ".mp3")%string in
      call (generateAudio E (Script.text segment)
              (or_default (Schema.voiceStyle video) "professional") audioPath
              (or_default (Schema.language video) "english")) ;;;
      duration <- getAudioDuration audioPath ;;
      compile_audio_from video tempDir (S i) r
        (audioSegments ++ [audioPath]) (audioDurations ++ [duration])
  end.

End WithEnv.

End Routes.

(* ================================================================== *)
(** * Shapes of cleaned caption text *)
(* ================================================================== *)

Module CaptionText.
Import JS EnhancedVideoProcessor.

(** White space occurs only as single plain spaces; [after_space] tells
    that the text is read right after a space (or at its start, where a
    space is excluded as well). *)
Fixpoint single_spaced (after_space : bool) (s : jsstring) : Prop :=
  match s with
  | [] => True
  | c :: r =>
      if is_space c
      then c = SPACE /\ after_space = false /\ single_spaced true r
      else single_spaced false r
  end.

(** What the cleaning establishes: only kept characters, single plain
    spaces, none at either end. *)
Definition tidy (s : jsstring) : Prop :=
  Forall (fun c => kept c = true) s /\ single_spaced true s /\ trimEnd s = s.

(** The text of the specification's example; 34 is the double quote. *)
Definition wow_input : jsstring :=
  of_string "He said: " ++ [34%N] ++ of_string "Wow!!" ++ [34%N] ++ of_string " <script>".

(** Two runs of forty letters joined by a tab (code unit 9). *)
Definition tabbed_text : jsstring :=
  repeat 97%N 40 ++ [9%N] ++ repeat 98%N 40.

(** Two words of forty letters: two subtitle lines. *)
Definition two_line_text : jsstring :=
  repeat 97%N 40 ++ [SPACE] ++ repeat 98%N 40.

(** Three words of forty letters: three subtitle lines. *)
Definition three_line_text : jsstring :=
  repeat 97%N 40 ++ [SPACE] ++ repeat 98%N 40 ++ [SPACE] ++ repeat 99%N 40.

End CaptionText.

(* ================================================================== *)
(** * Caption timing as a function of the measured durations *)
(* ================================================================== *)

Module Measured.
Import JS Node Run SubtitleProcessor.

(** The entries built from a start time, the durations and the texts. *)
Fixpoint captions (t : Q) (ds : list Q) (texts : list jsstring) : list SubtitleSegment :=
  match ds, texts with
  | d :: ds', x :: xs => mkSubtitle t (t + d) x :: captions (t + d) ds' xs
  | _, _ => []
  end.

(** The sum of the durations, added from left to right starting at 0. *)
Definition sum_durations (ds : list Q) : Q := fold_left Qplus ds 0.

(** The probe of [audioPath] exits with 0 and prints [d]. *)
Definition measures (E : env) (audioPath : string) (d : Q) : Prop :=
  exit_of (run E "ffprobe" (Routes.ffprobe_args audioPath)) = Close 0
  /\ parseFloat (trim (of_string (stdout (run E "ffprobe" (Routes.ffprobe_args audioPath)))))
     = Some d.

Definition probe_ms (E : env) (audioPath : string) : N :=
  elapsed (run E "ffprobe" (Routes.ffprobe_args audioPath)).

Definition total_ms (E : env) (audioPaths : list string) : N :=
  fold_right (fun p acc => (probe_ms E p + acc)%N) 0%N audioPaths.

(** No armed timer expires within the next [ms] milliseconds. *)
Definition in_time (ms : N) (w : world) : Prop :=
  match deadline w with
  | Some d => (clock w + ms <= d)%N
  | None => True
  end.

(** The world in which the generation of a job starts: the temporary
    directory exists, [tempFiles] is empty and the timer is armed. *)
Definition at_start (E : env) (w : world) : world :=
  let w1 := with_tempFiles (fun _ => [])
              (snd (VideoProcessor.ensureTempDirectory E w)) in
  with_deadline (Some (clock w1 + Routes.generation_limit)%N) w1.

Definition tempDir_of (E : env) : string := path_join (cwd E) "temp".

(** The world right after a process has ended. *)
Definition after_spawn (E : env) (tool : string) (args : list tstring) (w : world)
  : world :=
  with_fs (write_files (written (run E tool args)))
          (with_clock (clock w + elapsed (run E tool args))%N
                      (with_event (Spawned tool args) w)).

(** A computation that neither adds nor drops a video row. *)
Definition keeps_rows {A} (m : M A) : Prop :=
  forall w r w', m w = (r, w') -> map fst (videos w') = map fst (videos w).

(** The processes spawned in a trace, in order. *)
Fixpoint spawns (t : list event) : list (string * list tstring) :=
  match t with
  | [] => []
  | Spawned tool args :: r => (tool, args) :: spawns r
  | _ :: r => spawns r
  end.

End Measured.

(* ================================================================== *)
(** * A sample job

    Three script segments planned at 10 seconds each, whose audio clips
    really last 9.2, 11.0 and 9.8 seconds; three images; video [v1]. *)
(* ================================================================== *)

Module Scenario.
Import JS Node Run.

Definition segment (t : string) : Script.ScriptSegment :=
  Script.mkSegment (of_string t) (of_string ("picture of " ++ t)%string) 10.

Definition three_segments : list Script.ScriptSegment :=
  [segment "Volcanoes form"; segment "Magma rises"; segment "Lava cools"].

Definition video1 : Schema.Video :=
  Schema.mkVideo "v1" "Volcanoes" 30 None None None None None true "pending"
                 None None None None None.

Definition start : world :=
  mkWorld [] [] [("v1"%string, video1)] 0%N None [].

(** The file an FFmpeg call writes: its last argument. *)
Definition last_arg (args : list tstring) : string :=
  match last args [] with
  | [Lit p] => p
  | _ => EmptyString
  end.

Definition measured_output (audioPath : string) : string :=
  if String.eqb audioPath "/app/temp/audio-v1-0.mp3" then "9.2"
  else if String.eqb audioPath "/app/temp/audio-v1-1.mp3" then "11.0"
  else if String.eqb audioPath "/app/temp/audio-v1-2.mp3" then "9.8"
  else "N/A".

(** Every tool succeeds; FFmpeg takes [ffmpeg_ms] milliseconds. *)
Definition run_fine (ffmpeg_ms : N) (tool : string) (args : list tstring) : answer :=
  if String.eqb tool "ffprobe"
  then mkAnswer (Close 0) (measured_output (last_arg args)) "" 50%N []
  else mkAnswer (Close 0) "" "" ffmpeg_ms [last_arg args].


(** [ffprobe] exits with 1, everything else succeeds. *)
Definition run_probe_fails (tool : string) (args : list tstring) : answer :=
  if String.eqb tool "ffprobe"
  then mkAnswer (Close 1) "" "" 50%N []
  else mkAnswer (Close 0) "" "" 2000%N [last_arg args].

(** Every child process exits with 1. *)
Definition run_broken (tool : string) (args : list tstring) : answer :=
  mkAnswer (Close 1) "" "" 100%N [].

Definition outside (run : string -> list tstring -> answer) (chrome : bool) : env :=
  mkEnv "/app" (fun _ => 2048%N) run
        (fun _ => mkReply (inl tt) 300%N [])
        (fun _ => None)
        (fun _ _ _ => mkReply (inl three_segments) 2000%N [])
        (fun _ _ _ => three_segments)
        (fun _ _ => mkReply (inl "https://images.example/1.png"%string) 3000%N [])
        (fun _ _ _ => mkReply (inl "https://images.example/2.png"%string) 3000%N [])
        (fun _ _ audioPath _ => mkReply (inl tt) 1500%N [audioPath])
        chrome
        (fun _ outFile => mkReply (inl outFile) 60000%N [outFile]).

Definition fine : env := outside (run_fine 2000%N) true.
Definition slow_render : env := outside (run_fine (11 * 60 * 1000)%N) true.
Definition probe_fails : env := outside run_probe_fails true.
Definition no_chrome_broken_ffmpeg : env := outside run_broken false.
Definition no_chrome : env := outside (run_fine 2000%N) false.

Definition audio_paths : list string :=
  ["/app/temp/audio-v1-0.mp3"; "/app/temp/audio-v1-1.mp3";
   "/app/temp/audio-v1-2.mp3"]%string.

Definition two_clips : list string := ["/app/temp/a.mp3"; "/app/temp/b.mp3"]%string.

Definition three_images : list string :=
  ["/app/temp/1.jpg"; "/app/temp/2.jpg"; "/app/temp/3.jpg"]%string.

(** A disk that holds the clips and the images. *)
Definition with_media : world :=
  mkWorld (two_clips ++ three_images) [] [] 0%N None [].

Definition some_assets : Assets.VideoAssets :=
  Assets.mkAssets three_images two_clips (Some []).

Definition no_images : Assets.VideoAssets :=
  Assets.mkAssets [] two_clips None.

End Scenario.

(* ================================================================== *)
(** * What a filter graph carries *)
(* ================================================================== *)

Module Overlay.
Import JS Node.

(** The caption texts embedded in an argument list, in order. *)
Definition text_of (p : piece) : list jsstring :=
  match p with
  | Txt t => [t]
  | _ => []
  end.

Definition texts_of (args : list tstring) : list jsstring :=
  flat_map (flat_map text_of) args.

(** The time stamps printed with two decimals, in order. *)
Definition stamp_of (p : piece) : list Q :=
  match p with
  | Fixed2 q => [q]
  | _ => []
  end.

Definition stamps_of (args : list tstring) : list Q :=
  flat_map (flat_map stamp_of) args.

(** The characters with a meaning of their own in a filter graph or in
    the text of [drawtext]: the two quotes, colon, backslash, comma,
    semicolon, brackets, equals sign and percent sign. *)
Definition is_meta (c : N) : bool :=
  existsb (N.eqb c) [39; 34; 58; 92; 44; 59; 91; 93; 61; 37]%N.

(** The start and the end of each caption, one after the other. *)
Definition bounds (l : list SubtitleProcessor.SubtitleSegment) : list Q :=
  flat_map (fun e => [SubtitleProcessor.startTime e; SubtitleProcessor.endTime e]) l.

(** A trace event that removes a file. *)
Definition is_unlink (e : event) : bool :=
  match e with
  | Unlinked _ => true
  | _ => false
  end.

End Overlay.

(* ================================================================== *)
(** * More sample surroundings *)
(* ================================================================== *)

Module Cases.
Import JS Node Run.

(** The argument list has [s] as one of its plain arguments. *)
Definition mentions (s : string) (args : list tstring) : bool :=
  existsb (fun a => match a with
                    | [Lit x] => String.eqb x s
                    | _ => false
                    end) args.

(** A tool exits with 1 exactly when its arguments mention [s]; a call
    that succeeds writes its last argument. *)
Definition run_rejecting (s : string) (tool : string) (args : list tstring) : answer :=
  if mentions s args
  then mkAnswer (Close 1) "" "" 500%N []
  else mkAnswer (Close 0) "" "" 2000%N [Scenario.last_arg args].

(** FFmpeg fails exactly when it is asked for a filter graph. *)
Definition no_filters : env := Scenario.outside (run_rejecting "-filter_complex") true.

(** FFmpeg fails on the second clip. *)
Definition bad_second_clip : env :=
  Scenario.outside (run_rejecting "/app/temp/b.mp3") true.

(** The title page cannot be drawn: FFmpeg fails on the [lavfi] source. *)
Definition no_title : env := Scenario.outside (run_rejecting "lavfi") true.

(** [https.get] throws for a URL that does not start with [https://];
    the network is down for the others. *)
Definition picky : env :=
  mkEnv "/app" (fun _ => 2048%N) (Scenario.run_fine 2000%N)
        (fun _ => mkReply (inr "getaddrinfo ENOTFOUND"%string) 300%N [])
        (fun url => if String.prefix "https://" url then None else Some "Invalid URL"%string)
        (fun _ _ _ => mkReply (inl Scenario.three_segments) 2000%N [])
        (fun _ _ _ => Scenario.three_segments)
        (fun _ _ => mkReply (inl "https://images.example/1.png"%string) 3000%N [])
        (fun _ _ _ => mkReply (inl "https://images.example/2.png"%string) 3000%N [])
        (fun _ _ audioPath _ => mkReply (inl tt) 1500%N [audioPath])
        true
        (fun _ outFile => mkReply (inl outFile) 60000%N [outFile]).

(** A disk with one clip only. *)
Definition one_clip : world :=
  mkWorld ["/app/temp/a.mp3"%string] [] [] 0%N None [].

Definition two_captions : list SubtitleProcessor.TimedText :=
  [SubtitleProcessor.mkTimed (of_string "It's 50% off: [today]") 4;
   SubtitleProcessor.mkTimed (of_string "a,b;c=d") (5 # 2)].

End Cases.

(* ================================================================== *)
(** * What the subtitle timeline covers *)
(* ================================================================== *)

Module Coverage.
Import JS SubtitleProcessor.

(** The words of a text: the pieces between plain spaces that are not
    empty. *)
Definition words_of (txt : jsstring) : list jsstring :=
  filter truthy (split SPACE txt).

(** A text without a word: empty, or plain spaces only. *)
Definition blank (txt : jsstring) : bool :=
  forallb (fun c => (c =? SPACE)%N) txt.

End Coverage.

(* ================================================================== *)
(** * Sample surroundings with a failing script service *)
(* ================================================================== *)

Module Outage.
Import JS Node Run.

(** The script service rejects with [message]; everything else is as in
    the sample job. *)
Definition script_fails (message : string) : env :=
  mkEnv "/app" (fun _ => 2048%N) (Scenario.run_fine 2000%N)
        (fun _ => mkReply (inl tt) 300%N [])
        (fun _ => None)
        (fun _ _ _ => mkReply (inr message) 2000%N [])
        (fun _ _ _ => Scenario.three_segments)
        (fun _ _ => mkReply (inl "https://images.example/1.png"%string) 3000%N [])
        (fun _ _ _ => mkReply (inl "https://images.example/2.png"%string) 3000%N [])
        (fun _ _ audioPath _ => mkReply (inl tt) 1500%N [audioPath])
        true
        (fun _ outFile => mkReply (inl outFile) 60000%N [outFile]).

End Outage.

(* ================================================================== *)
(** * Bookkeeping of temporary files *)
(* ================================================================== *)

Module Bookkeeping.
Import Node Run.

(** A computation that leaves the list of registered temporary files as
    it is. *)
Definition keeps_temp {A} (m : M A) : Prop :=
  forall w r w', m w = (r, w') -> tempFiles w' = tempFiles w.

(** The image and audio files of a job with [n] script segments. *)
Definition image_files (tempDir videoId : string) (n : nat) : list string :=
  map (Routes.imagePath_of tempDir videoId) (seq 0 n).

Definition audio_files (tempDir videoId : string) (n : nat) : list string :=
  map (Routes.audioPath_of tempDir videoId) (seq 0 n).

End Bookkeeping.

(* ================================================================== *)
(** * VideoComposition.tsx: what a frame shows *)
(* ================================================================== *)

Module Composition.
Import JS SubtitleProcessor.

(** [frame >= lo && frame < hi] *)
Definition within (frame lo hi : Q) : bool :=
  Qle_bool lo frame && negb (Qle_bool hi frame).

(** The loop that looks for the segment of the current frame, entered at
    index [i] with the frames of the segments before it added up; [None]
    when the loop ends without a [break]. *)
Fixpoint find_segment (fps frame frameOffset : Q) (i : nat) (rest : list TimedText)
  : option nat :=
  match rest with
  | [] => None
  | s :: r =>
      let segmentFrames := duration s * fps in
      if within frame frameOffset (frameOffset + segmentFrames)
      then Some i
      else find_segment fps frame (frameOffset + segmentFrames) (S i) r
  end.

(** [currentSegmentIndex] starts at 0 and is set when the loop breaks. *)
Definition currentSegmentIndex (fps frame : Q) (script : list TimedText) : nat :=
  match find_segment fps frame 0 0 script with
  | Some i => i
  | None => 0%nat
  end.

(** [Math.min(currentSegmentIndex, images.length - 1)] *)
Definition currentImageIndex (fps frame : Q) (script : list TimedText)
           (images : list string) : Z :=
  Z.min (Z.of_nat (currentSegmentIndex fps frame script))
        (Z.of_nat (List.length images) - 1).







End Composition.

(* ================================================================== *)
(** * fallbackScript.ts *)
(* ================================================================== *)

Module FallbackScript.
Import Node.

Record Segment : Type := mkSegment {
  text : string;
  imagePrompt : string;
  startTime : Q;
  endTime : Q;
  duration : Q
}.

(** [toLowerCase] on the bytes of a topic: the ASCII capitals change,
    everything else is left alone.  The keywords looked for below are
    ASCII, none of them has a [k] or ends in [i], so the lowering of
    other letters cannot make or break a match. *)
Definition lower_ascii (c : ascii) : ascii :=
  let n := nat_of_ascii c in
  if ((65 <=? n) && (n <=? 90))%nat then ascii_of_nat (n + 32) else c.

Fixpoint toLowerCase (s : string) : string :=
  match s with
  | EmptyString => EmptyString
  | String c r => String (lower_ascii c) (toLowerCase r)
  end.

Definition segmentsCount (duration : Q) : Z := Z.max 2 (Qfloor (duration / 15)).

Definition timePerSegment (duration : Q) : Q :=
  duration / inject_Z (segmentsCount duration).

Definition photosynthesis : list (string * string) :=
  [("Photosynthesis is the amazing process plants use to make their own food using sunlight, water, and carbon dioxide.",
    "Green plants with sunlight rays, showing leaves absorbing light energy");
   ("Chloroplasts in plant leaves contain chlorophyll, the green pigment that captures light energy from the sun.",
    "Microscopic view of plant cells showing green chloroplasts inside leaf structure");
   ("Plants take in carbon dioxide through their leaves and water through their roots to create glucose and oxygen.",
    "Plant diagram showing CO2 entering leaves and water entering through roots");
   ("The oxygen we breathe is actually a byproduct of photosynthesis, making plants essential for all life on Earth.",
    "Forest scene with oxygen molecules being released from trees into the atmosphere")]%string.

Definition water : list (string * string) :=
  [("The water cycle is nature's way of recycling water, moving it continuously between oceans, atmosphere, and land.",
    "Diagram of the water cycle showing evaporation, condensation, and precipitation");
   ("Evaporation occurs when the sun heats water in oceans, lakes, and rivers, turning it into invisible water vapor.",
    "Sunny day over ocean with water vapor rising invisibly from the surface");
   ("Water vapor rises into the atmosphere where it cools and condenses into tiny droplets, forming clouds.",
    "White fluffy clouds forming in blue sky from condensed water vapor");
   ("When clouds become heavy with water, precipitation falls as rain or snow, returning water to Earth's surface.",
    "Rain falling from dark clouds onto landscape with rivers and lakes")]%string.

Definition plants : list (string * string) :=
  [("Plants grow through an amazing process that starts with a tiny seed containing all the genetic information needed.",
    "Cross-section of a seed showing the embryo and stored nutrients inside");
   ("When seeds get the right amount of water, warmth, and oxygen, they begin to germinate and sprout.",
    "Seed sprouting in soil with tiny green shoot emerging and roots growing downward");
   ("Roots grow downward to absorb water and nutrients while the stem grows upward toward sunlight.",
    "Young plant with visible root system underground and green stem reaching for sunlight");
   ("Through photosynthesis and cellular growth, plants develop leaves, flowers, and eventually produce new seeds.",
    "Mature plant with full leaves, colorful flowers, and seeds ready for dispersal")]%string.

(** The generic template for any other topic. *)
Definition generic (topic : string) : list (string * string) :=
  [("Let's explore the fascinating topic of " ++ topic ++ " and understand its key concepts.",
    "Educational illustration about " ++ topic ++ ", clean and informative style");
   ("Understanding " ++ topic ++ " requires looking at its fundamental principles and how they work together.",
    "Diagram or visual representation of " ++ topic ++ " concepts, modern educational style");
   ("The practical applications of " ++ topic ++ " can be seen in many aspects of our daily lives.",
    "Real-world examples of " ++ topic ++ " in action, professional illustration");
   ("In conclusion, " ++ topic ++ " demonstrates the incredible complexity and beauty of the world around us.",
    "Summary visual of " ++ topic ++ " showing its importance and connections, inspiring illustration")]%string.

Definition template_for (topic : string) : list (string * string) :=
  let topicLower := toLowerCase topic in
  if includes "photosynthesis" topicLower || includes "plant food" topicLower
     || includes "chlorophyll" topicLower
  then photosynthesis
  else if includes "water cycle" topicLower || includes "evaporation" topicLower
          || includes "precipitation" topicLower
  then water
  else if includes "plant" topicLower || includes "grow" topicLower
          || includes "seed" topicLower
  then plants
  else generic topic.

(** The callback of [segments.map]. *)
Definition timed (timePerSegment : Q) (index : nat) (segment : string * string) : Segment :=
  mkSegment (fst segment) (snd segment)
            (inject_Z (Z.of_nat index) * timePerSegment)
            (inject_Z (Z.of_nat (index + 1)) * timePerSegment)
            timePerSegment.

(** The parameter [language] is not used by the function. *)
Definition generateFallbackScript (topic : string) (duration : Q) (language : string)
  : list Segment :=
  let segmentsCount := segmentsCount duration in
  let timePerSegment := duration / inject_Z segmentsCount in
  let segments := firstn (Z.to_nat segmentsCount) (template_for topic) in
  map (fun p => timed timePerSegment (fst p) (snd p))
      (combine (seq 0 (List.length segments)) segments).

(** Entries follow one another without a gap. *)
Fixpoint contiguous (l : list Segment) : Prop :=
  match l with
  | [] => True
  | a :: r =>
      match r with
      | [] => True
      | b :: _ => endTime a = startTime b /\ contiguous r
      end
  end.

End FallbackScript.

(* ================================================================== *)
(** * subtitleProcessor.ts: SRT time stamps *)
(* ================================================================== *)

Module SrtFile.
Import JS Node SubtitleProcessor.

(** The integer part of a quotient, rounded towards zero. *)
Definition truncate (q : Q) : Z :=
  if Qle_bool 0 q then Qfloor q else Qceiling q.

(** [a % b]: the remainder has the sign of the dividend. *)
Definition remainder (a b : Q) : Q := a - b * inject_Z (truncate (a / b)).

(** [s.padStart(targetLength, '0')] *)
Definition padStart (targetLength : nat) (s : string) : string :=
  (string_of_list_ascii (repeat "0"%char (targetLength - String.length s)) ++ s)%string.

Definition hours (timeInSeconds : Q) : Z := Qfloor (timeInSeconds / 3600).
Definition minutes (timeInSeconds : Q) : Z := Qfloor (remainder timeInSeconds 3600 / 60).
Definition seconds (timeInSeconds : Q) : Z := Qfloor (remainder timeInSeconds 60).
Definition milliseconds (timeInSeconds : Q) : Z :=
  Qfloor (remainder timeInSeconds 1 * 1000).

Definition formatSRTTime (timeInSeconds : Q) : string :=
  (padStart 2 (string_of_Z (hours timeInSeconds)) ++ ":"
   ++ padStart 2 (string_of_Z (minutes timeInSeconds)) ++ ":"
   ++ padStart 2 (string_of_Z (seconds timeInSeconds)) ++ ","
   ++ padStart 3 (string_of_Z (milliseconds timeInSeconds)))%string.

(** One block of the file: number, time line, text, empty line. *)
Definition srt_block (index : nat) (segment : SubtitleSegment) : tstring :=
  [Lit (string_of_nat (index + 1)); Lit EnhancedVideoProcessor.NL;
   Lit (formatSRTTime (startTime segment)); Lit " --> ";
   Lit (formatSRTTime (endTime segment)); Lit EnhancedVideoProcessor.NL;
   Txt (subText segment); Lit EnhancedVideoProcessor.NL; Lit EnhancedVideoProcessor.NL].

(** The text that [generateSubtitleFile] writes. *)
Definition srtContent (segments : list SubtitleSegment) : tstring :=
  List.concat (map (fun p => srt_block (fst p) (snd p))
                   (combine (seq 0 (List.length segments)) segments)).

End SrtFile.

(* ================================================================== *)
(** * remotionRenderer.ts, createVideoWithRemotion.ts and the compile route *)
(* ================================================================== *)

Module Compile.
Import JS Node Run Assets SubtitleProcessor.

(** ** The video rows as the compile route reads and writes them *)

Record StoredAssets : Type := mkStoredAssets {
  storedImages : option (list string);
  storedAudio : option (list string);
  storedScript : option (list Script.ScriptSegment)
}.

Record StoredSubtitles : Type := mkStoredSubtitles {
  storedSegments : list Revideo.SubtitleEntry;
  storedEnabled : option bool
}.

Record Row : Type := mkRow {
  userId : string;
  topic : string;
  voiceStyle : option string;
  language : option string;
  textFont : option string;
  textColor : option string;
  status : string;
  videoUrl : option string;
  errorMessage : option string;
  assets : option StoredAssets;
  subtitleData : option StoredSubtitles
}.

(** The outside world together with the rows of this route. *)
Record state : Type := mkState {
  outside : world;
  rows : list (string * Row)
}.

(** A promise of this route resolves, rejects, or never settles: the
    timer of a caller expired while it was pending, or an exception
    escaped from an event callback (its message is kept). *)
Inductive settled (A : Type) : Type :=
| Resolved (a : A)
| Rejected (message : string)
| Unsettled (uncaught : option string).
Arguments Resolved {A} _.
Arguments Rejected {A} _.
Arguments Unsettled {A} _.

Definition C (A : Type) : Type := state -> settled A * state.

Definition resolve {A} (a : A) : C A := fun s => (Resolved a, s).

Definition reject {A} (message : string) : C A := fun s => (Rejected message, s).

Definition and_then {A B} (m : C A) (k : A -> C B) : C B :=
  fun s =>
    match m s with
    | (Resolved a, s') => k a s'
    | (Rejected e, s') => (Rejected e, s')
    | (Unsettled u, s') => (Unsettled u, s')
    end.

(** [try { m } catch (error) { h error }], and [m.catch(h)] *)
Definition catch {A} (m : C A) (h : string -> C A) : C A :=
  fun s =>
    match m s with
    | (Rejected e, s') => h e s'
    | r => r
    end.

Notation "x <~ c1 ;; c2" := (and_then c1 (fun x => c2))
  (at level 61, c1 at next level, right associativity).
Notation "c1 ~;; c2" := (and_then c1 (fun _ => c2))
  (at level 61, right associativity).

(** A step that only concerns the outside world. *)
Definition lift {A} (m : M A) : C A :=
  fun s =>
    match m (outside s) with
    | (Ok a, w) => (Resolved a, mkState w (rows s))
    | (Throw e, w) => (Rejected e, mkState w (rows s))
    | (Expired _, w) => (Unsettled None, mkState w (rows s))
    end.

(** Code that runs in an event callback: what it throws is not a
    rejection of the promise around it. *)
Definition in_callback {A} (m : C A) : C A :=
  fun s =>
    match m s with
    | (Rejected e, s') => (Unsettled (Some e), s')
    | r => r
    end.

(** A promise that is started and not awaited. *)
Definition detached (m : C unit) : C unit :=
  fun s => (Resolved tt, snd (m s)).

(** ** The storage *)

Fixpoint find (videoId : string) (l : list (string * Row)) : option Row :=
  match l with
  | [] => None
  | (k, v) :: r => if String.eqb videoId k then Some v else find videoId r
  end.

Definition getVideo (videoId : string) : C (option Row) :=
  fun s => (Resolved (find videoId (rows s)), s).

Definition updateVideo (videoId : string) (change : Row -> Row) : C unit :=
  fun s =>
    (Resolved tt,
     mkState (outside s)
       (map (fun kv => if String.eqb videoId (fst kv) then (fst kv, change (snd kv)) else kv)
            (rows s))).

Definition set_status (newStatus : string) (v : Row) : Row :=
  mkRow (userId v) (topic v) (voiceStyle v) (language v) (textFont v) (textColor v)
        newStatus (videoUrl v) (errorMessage v) (assets v) (subtitleData v).

Definition set_failed (message : string) (v : Row) : Row :=
  mkRow (userId v) (topic v) (voiceStyle v) (language v) (textFont v) (textColor v)
        "failed" (videoUrl v) (Some message) (assets v) (subtitleData v).

Definition set_completed (outputPath : string) (newSubtitles : StoredSubtitles)
           (newAssets : StoredAssets) (v : Row) : Row :=
  mkRow (userId v) (topic v) (voiceStyle v) (language v) (textFont v) (textColor v)
        "completed" (Some outputPath) (errorMessage v) (Some newAssets)
        (Some newSubtitles).

(** ** Strings and files *)

(** [s.replace(pattern, replacement)] for a string pattern: the first
    occurrence only. *)
Fixpoint replace_first (pattern replacement s : string) : string :=
  if String.prefix pattern s
  then (replacement
        ++ String.substring (String.length pattern)
                            (String.length s - String.length pattern) s)%string
  else match s with
       | EmptyString => EmptyString
       | String c r => String c (replace_first pattern replacement r)
       end.

(** [fs.renameSync(oldPath, newPath)] *)
Definition fs_renameSync (oldPath newPath : string) : M unit :=
  fun w =>
    if existsSync oldPath (fs w)
    then (Ok tt, with_fs (fun f => write_file newPath (remove_file oldPath f)) w)
    else (Throw ("ENOENT: no such file or directory, rename '" ++ oldPath ++ "' -> '"
                 ++ newPath ++ "'")%string, w).

(** ** The Remotion packages *)

Record Composition : Type := mkComposition {
  compositionId : string;
  inputScript : list TimedText;
  inputImages : list string;
  inputTopic : string;
  inputTextColor : string;
  inputTextFont : string;
  durationInFrames : Z
}.

Definition with_durationInFrames (frames : Z) (c : Composition) : Composition :=
  mkComposition (compositionId c) (inputScript c) (inputImages c) (inputTopic c)
                (inputTextColor c) (inputTextFont c) frames.

(** [bundle] by entry point; [selectComposition] by serve URL, id and
    input props; [renderMedia] by composition, serve URL and output
    location. *)
Record toolkit : Type := mkToolkit {
  bundle : string -> reply string;
  selectComposition :
    string -> string -> list TimedText -> list string -> string -> string -> string
    -> reply Composition;
  renderMedia : Composition -> string -> string -> reply unit
}.

(** A response of the route. *)
Inductive response : Type :=
| Json (statusCode : nat) (message : string).

Section WithEnv.
Variable E : env.
Variable R : toolkit.

(** ** remotionRenderer.ts *)

Definition audio_args (videoPath audioPath tempOutput : string) : list tstring :=
  map lit ["-y"; "-i"; videoPath; "-i"; audioPath; "-c:v"; "copy"; "-c:a"; "aac";
           "-shortest"; tempOutput]%string.

(** The rename happens in the [close] callback of the process. *)
Definition addAudioToVideo (videoPath audioPath : string) : C unit :=
  let tempOutput := replace_first ".mp4" "_with_audio.mp4" videoPath in
  a <~ lift (spawn E "ffmpeg" (audio_args videoPath audioPath tempOutput)) ;;
  match exit_of a with
  | Close code =>
      if (code =? 0)%Z
      then in_callback (lift (fs_renameSync tempOutput videoPath))
      else reject ("FFmpeg failed with code " ++ string_of_Z code)%string
  | ProcError error => reject error
  end.

Definition renderVideoWithRemotion (o : Revideo.RevideoRenderOptions) : C unit :=
  catch
    (bundleLocation <~
       lift (call (bundle R (path_join (cwd E) "server/remotion/index.tsx"))) ;;
     comps <~
       lift (call (selectComposition R bundleLocation "VideoComposition"
                     (Revideo.script o) (Revideo.images o) (Revideo.topic o)
                     (Revideo.textColor o) (Revideo.textFont o))) ;;
     let actualComposition :=
       with_durationInFrames (Qceiling (Revideo.totalDuration o * 30)) comps in
     lift (call (renderMedia R actualComposition bundleLocation (Revideo.outputPath o))) ~;;
     present <~ lift (fs_existsSync (Revideo.audioPath o)) ;;
     if negb (String.eqb (Revideo.audioPath o) EmptyString) && present
     then addAudioToVideo (Revideo.outputPath o) (Revideo.audioPath o)
     else resolve tt)
    (fun error => reject error).

(** ** createVideoWithRemotion.ts *)

Definition concatenateAudioSegments (audioSegments : list string) (outputDir : string)
  : C string :=
  let outputPath := path_join outputDir "final_audio.wav" in
  let fileListPath := path_join outputDir "audio_files.txt" in
  let fileListContent :=
    join EnhancedVideoProcessor.NL (map EnhancedVideoProcessor.list_line audioSegments) in
  lift (fs_writeFileSync fileListPath (Some fileListContent)) ~;;
  a <~ lift (spawn E "ffmpeg" (Revideo.concat_args fileListPath outputPath)) ;;
  match exit_of a with
  | Close code =>
      lift (EnhancedVideoProcessor.unlink_quietly fileListPath) ~;;
      if (code =? 0)%Z then resolve outputPath
      else reject ("FFmpeg failed with code " ++ string_of_Z code)%string
  | ProcError error => reject error
  end.

(** The parameter [subtitleData] is not used by the function. *)
Definition createVideoWithRemotion (assets : VideoAssets) (outputPath : string)
           (totalAudioDuration : Q) (subtitleData : Revideo.SubtitleData) (topic : string)
           (textFont textColor : option string) : C unit :=
  catch
    (audioPath <~ concatenateAudioSegments (audioSegments assets) (dirname outputPath) ;;
     renderVideoWithRemotion
       (Revideo.mkRenderOptions
          (match scriptSegments assets with Some l => l | None => [] end)
          (images assets) audioPath outputPath
          (or_default textColor "yellow") (or_default textFont "Arial")
          topic totalAudioDuration))
    (fun error => reject error).

(** ** compileVideoInBackground *)

(** The audio loop entered at index [i]: each clip is generated and then
    measured. *)
Fixpoint audio_from (video : Row) (tempDir : string) (i : nat)
         (rest : list Script.ScriptSegment)
         (audioSegments : list string) (audioDurations : list Q)
  : C (list string * list Q) :=
  match rest with
  | [] => resolve (audioSegments, audioDurations)
  | segment :: r =>
      let audioPath := path_join tempDir ("audio_" ++ string_of_nat i ++ ".mp3")%string in
      lift (call (generateAudio E (Script.text segment)
                    (or_default (voiceStyle video) "professional") audioPath
                    (or_default (language video) "english"))) ~;;
      duration <~ lift (Routes.getAudioDuration E audioPath) ;;
      audio_from video tempDir (S i) r
                 (audioSegments ++ [audioPath]) (audioDurations ++ [duration])
  end.

(** [customImages?.[i.toString()] || fallback] *)
Definition custom_or (customImages : option (list (string * string))) (i : nat)
           (fallback : string) : string :=
  match customImages with
  | Some m =>
      match List.find (fun kv => String.eqb (fst kv) (string_of_nat i)) m with
      | Some (_, EmptyString) => fallback
      | Some (_, v) => v
      | None => fallback
      end
  | None => fallback
  end.

(** The image loop entered at index [i]. *)
Fixpoint images_from (customImages : option (list (string * string)))
         (tempDir : string) (i : nat) (rest : list string) (images : list string)
  : C (list string) :=
  match rest with
  | [] => resolve images
  | stored :: r =>
      let imageUrl := custom_or customImages i stored in
      let imagePath := path_join tempDir ("image_" ++ string_of_nat i ++ ".jpg")%string in
      lift (EnhancedVideoProcessor.downloadImage E imageUrl imagePath) ~;;
      images_from customImages tempDir (S i) r (images ++ [imagePath])
  end.

(** The callback of [scriptSegments.map] with its running [currentTime];
    [audioDurations[index]] is always in range, the audio loop having
    pushed one duration per segment. *)
Fixpoint entries_from (currentTime : Q) (index : nat)
         (rest : list Script.ScriptSegment) (audioDurations : list Q)
  : list Revideo.SubtitleEntry :=
  match rest with
  | [] => []
  | segment :: r =>
      let duration := nth index audioDurations 0 in
      Revideo.mkEntry (Script.text segment) currentTime (currentTime + duration) duration
      :: entries_from (currentTime + duration) (S index) r audioDurations
  end.

(** [(video.subtitleData as any)?.enabled !== false] *)
Definition enabled_of (video : Row) : bool :=
  match subtitleData video with
  | Some d => match storedEnabled d with Some false => false | _ => true end
  | None => true
  end.

Definition scriptSegmentsForVideo (scriptSegments : list Script.ScriptSegment)
           (audioDurations : list Q) : list TimedText :=
  map (fun p => mkTimed (Script.text (snd p)) (nth (fst p) audioDurations 0))
      (combine (seq 0 (List.length scriptSegments)) scriptSegments).

Definition compileVideoInBackground (videoId userId : string)
           (customImages : option (list (string * string))) : C unit :=
  catch
    (updateVideo videoId (set_status "compiling") ~;;
     found <~ getVideo videoId ;;
     match found with
     | None => reject "Video not found"
     | Some video =>
         match match assets video with Some a => storedScript a | None => None end with
         | None => reject "Invalid script data - no segments found in assets"
         | Some scriptSegments =>
             let tempDir := path_join (path_join (cwd E) "temp") videoId in
             lift (VideoProcessor.ensureTempDirectory E) ~;;
             generated <~ audio_from video tempDir 0 scriptSegments [] [] ;;
             let audioSegments := fst generated in
             let audioDurations := snd generated in
             match match assets video with Some a => storedImages a | None => None end with
             | None => reject "No images found in video assets"
             | Some [] => reject "No images found in video assets"
             | Some urls =>
                 images <~ images_from customImages tempDir 0 urls [] ;;
                 let subtitles :=
                   Revideo.mkSubtitleData
                     (entries_from 0 0 scriptSegments audioDurations)
                     (enabled_of video) in
                 let newAssets :=
                   mkAssets images audioSegments
                            (Some (scriptSegmentsForVideo scriptSegments audioDurations)) in
                 let outputPath := path_join tempDir (videoId ++ ".mp4")%string in
                 let totalAudioDuration := fold_left Qplus audioDurations 0 in
                 createVideoWithRemotion newAssets outputPath totalAudioDuration subtitles
                   (topic video)
                   (VideoProcessor.truthy_string (textFont video))
                   (VideoProcessor.truthy_string (textColor video)) ~;;
                 updateVideo videoId
                   (set_completed outputPath
                      (mkStoredSubtitles (Revideo.segments subtitles)
                                         (Some (Revideo.enabled subtitles)))
                      (mkStoredAssets
                         (Some urls)
                         (Some (map (replace_first (cwd E) EmptyString) audioSegments))
                         (Some scriptSegments)))
             end
         end
     end)
    (fun error => updateVideo videoId (set_status "failed") ~;; reject error).

(** The job as the route starts it: the rejection of the compilation is
    caught and stored. *)
Definition compile_job (videoId userId : string)
           (customImages : option (list (string * string))) : C unit :=
  catch (compileVideoInBackground videoId userId customImages)
        (fun error => updateVideo videoId (set_failed error)).

(** [POST /api/videos/:id/compile]: the response is sent before the job
    runs; the job is not awaited. *)
Definition compile_route (videoId requester : string)
           (customImages : option (list (string * string))) : C response :=
  catch
    (found <~ getVideo videoId ;;
     match found with
     | None => resolve (Json 404 "Video not found")
     | Some video =>
         if negb (String.eqb (userId video) requester)
         then resolve (Json 404 "Video not found")
         else if negb (String.eqb (status video) "editing")
         then resolve (Json 400 "Video must be in editing status to compile")
         else
           updateVideo videoId (set_status "generating") ~;;
           detached (compile_job videoId requester customImages) ~;;
           resolve (Json 200 "Video compilation started")
     end)
    (fun _ => resolve (Json 500 "Internal server error")).

End WithEnv.

(** ** The timeline the route stores *)

(** Start, end and length of each caption for the measured durations. *)
Fixpoint measured_entries (t : Q) (texts : list jsstring) (ds : list Q)
  : list Revideo.SubtitleEntry :=
  match texts, ds with
  | x :: xs, d :: ds' => Revideo.mkEntry x t (t + d) d :: measured_entries (t + d) xs ds'
  | _, _ => []
  end.

(** The clip of segment [k], and the clips of [n] segments from [i] on. *)
Definition clip_path (tempDir : string) (k : nat) : string :=
  path_join tempDir ("audio_" ++ string_of_nat k ++ ".mp3")%string.

Definition clip_paths (tempDir : string) (i n : nat) : list string :=
  map (clip_path tempDir) (seq i n).

(** What the probe of [audioPath] settles with when no timer cuts it
    short: the duration, or the message of the error. *)
Definition probe_result (E : env) (audioPath : string) : Q + string :=
  let a := run E "ffprobe" (Routes.ffprobe_args audioPath) in
  match exit_of a with
  | Close code =>
      if (code =? 0)%Z then
        match parseFloat (trim (of_string (stdout a))) with
        | Some d => inl d
        | None => inr "Could not parse audio duration"%string
        end
      else inr ("ffprobe failed with code " ++ string_of_Z code)%string
  | ProcError e => inr e
  end.

(** A computation that leaves the rows as they are. *)
Definition keeps_store {A} (m : C A) : Prop :=
  forall s r s', m s = (r, s') -> rows s' = rows s.

(** The directory of a job. *)
Definition jobDir (E : env) (videoId : string) : string :=
  path_join (path_join (cwd E) "temp") videoId.

End Compile.

(* ================================================================== *)
(** * Sample surroundings of the compile route *)
(* ================================================================== *)

Module Studio.
Import JS Node Run SubtitleProcessor.

(** Remotion packages that succeed; the render writes the output. *)
Definition works : Compile.toolkit :=
  Compile.mkToolkit
    (fun _ => mkReply (inl "/tmp/bundle"%string) 4000%N [])
    (fun _ id script images topic color font =>
       mkReply (inl (Compile.mkComposition id script images topic color font 300)) 500%N [])
    (fun _ _ outputLocation => mkReply (inl tt) 30000%N [outputLocation]).

(** A row ready to be compiled: two images and the script of the sample
    job. *)
Definition editing : Compile.Row :=
  Compile.mkRow "u1" "Volcanoes" None None None None "editing" None None
    (Some (Compile.mkStoredAssets
             (Some ["https://images.example/1.png"; "https://images.example/2.png"]%string)
             None (Some Scenario.three_segments)))
    None.

Definition start : Compile.state :=
  Compile.mkState (mkWorld [] [] [] 0%N None []) [("v1"%string, editing)].

(** The probes of the compile route's clips. *)
Definition measured_output (audioPath : string) : string :=
  if String.eqb audioPath "/app/temp/v1/audio_0.mp3" then "9.2"
  else if String.eqb audioPath "/app/temp/v1/audio_1.mp3" then "11.0"
  else if String.eqb audioPath "/app/temp/v1/audio_2.mp3" then "9.8"
  else "N/A".

Definition run_fine (tool : string) (args : list tstring) : answer :=
  if String.eqb tool "ffprobe"
  then mkAnswer (Close 0) (measured_output (Scenario.last_arg args)) "" 50%N []
  else mkAnswer (Close 0) "" "" 2000%N [Scenario.last_arg args].

(** The probe of the second clip exits with 1. *)
Definition run_second_probe_fails (tool : string) (args : list tstring) : answer :=
  if String.eqb tool "ffprobe"
  then (if String.eqb (Scenario.last_arg args) "/app/temp/v1/audio_1.mp3"
        then mkAnswer (Close 1) "" "" 50%N []
        else mkAnswer (Close 0) (measured_output (Scenario.last_arg args)) "" 50%N [])
  else mkAnswer (Close 0) "" "" 2000%N [Scenario.last_arg args].


Definition fine : env := Scenario.outside run_fine true.
Definition second_probe_fails : env := Scenario.outside run_second_probe_fails true.

End Studio.


(** ** Two runs of the compile route side by side *)

Module Switch.

(** Two runs settle alike and leave the same outside world. *)
Definition agree {A} (p1 p2 : Compile.settled A * Compile.state) : Prop :=
  fst p1 = fst p2 /\ Compile.outside (snd p1) = Compile.outside (snd p2).

(** Two computations that agree whenever they start from the same
    outside world, whatever the rows are. *)
Definition alike {A} (m1 m2 : Compile.C A) : Prop :=
  forall s1 s2, Compile.outside s1 = Compile.outside s2 -> agree (m1 s1) (m2 s2).

(** The row of the sample job with its subtitles switched off. *)
Definition muted : Compile.Row :=
  Compile.mkRow "u1" "Volcanoes" None None None None "editing" None None
    (Compile.assets Studio.editing)
    (Some (Compile.mkStoredSubtitles [] (Some false))).

Definition start_muted : Compile.state :=
  Compile.mkState (Compile.outside Studio.start) [("v1"%string, muted)].

End Switch.

(** ** The owner of a row *)

Module Owner.

(** A computation that never changes the owner of a row. *)
Definition keeps_owner {A} (m : Compile.C A) : Prop :=
  forall s r s', m s = (r, s') ->
    forall videoId,
      option_map Compile.userId (Compile.find videoId (Compile.rows s'))
      = option_map Compile.userId (Compile.find videoId (Compile.rows s)).

(** The statuses a row can have once its compilation job has run. *)
Definition after_job (status : string) : bool :=
  String.eqb status "completed" || String.eqb status "failed"
  || String.eqb status "compiling".

End Owner.


(* ================================================================== *)
(** * The still images of an argument list *)
(* ================================================================== *)

Module Inputs.
Import JS Node.

Definition is_lit (s : string) (t : tstring) : bool :=
  match t with
  | [Lit x] => String.eqb x s
  | _ => false
  end.

(** What FFmpeg is given as looped still images: every group
    [-loop 1 -t <seconds> -i <path>] of the argument list, in order,
    with its seconds and its path. *)
Fixpoint looped_inputs (args : list tstring) : list (Q * string) :=
  match args with
  | [] => []
  | a :: r =>
      match r with
      | b :: c :: [Num seconds] :: d :: [Lit p] :: r' =>
          if is_lit "-loop" a && is_lit "1" b && is_lit "-t" c && is_lit "-i" d
          then (seconds, p) :: looped_inputs r'
          else looped_inputs r
      | _ => looped_inputs r
      end
  end.

(** An argument that is not a number on its own. *)
Definition not_a_number (t : tstring) : Prop := forall q, t <> [Num q].

(** Seven images. *)
Definition seven_images : list string :=
  ["/app/temp/1.jpg"; "/app/temp/2.jpg"; "/app/temp/3.jpg"; "/app/temp/4.jpg";
   "/app/temp/5.jpg"; "/app/temp/6.jpg"; "/app/temp/7.jpg"]%string.

End Inputs.


(* ================================================================== *)
(** * The durations behind the captions of the generation routine *)
(* ================================================================== *)

Module Planned.
Import JS Node Run.

(** The duration that the caption loop uses for a segment: the measured
    one, or the segment's planned one when the probe of its clip
    fails. *)
Definition used_duration (E : env) (audioPath : string) (segment : Script.ScriptSegment)
  : Q :=
  match Compile.probe_result E audioPath with
  | inl d => d
  | inr _ => Script.duration segment
  end.

(** The durations used for the segments from index [i] on. *)
Fixpoint used_durations (E : env) (audioPaths : list string) (i : nat)
         (segs : list Script.ScriptSegment) : list Q :=
  match segs with
  | [] => []
  | s :: r =>
      used_duration E (nth i audioPaths EmptyString) s
      :: used_durations E audioPaths (S i) r
  end.

(** The time that the probes of the caption loop take, from index [i]
    on: one probe for each segment, on the clip of its index. *)
Fixpoint probing_ms (E : env) (audioPaths : list string) (i : nat)
         (segs : list Script.ScriptSegment) : N :=
  match segs with
  | [] => 0%N
  | _ :: r =>
      (Measured.probe_ms E (nth i audioPaths EmptyString)
       + probing_ms E audioPaths (S i) r)%N
  end.

End Planned.

(* ================================================================== *)
(** * Part II: properties *)
(* ================================================================== *)

Import JS SubtitleProcessor SubtitleTimeline.

(** ** Subtitle processor: blocks and windows *)

Lemma push_lines_windows ld lines : forall acc t,
  fold_left (push_line ld) lines (acc, t)
  = (acc ++ windows t ld lines, advance t ld (List.length lines)).
Proof.
  induction lines as [|l r IH]; intros acc t; simpl.
  - now rewrite app_nil_r.
  - rewrite IH, <- app_assoc. reflexivity.
Qed.

Lemma push_segment_block acc t segment :
  push_segment (acc, t) segment
  = (acc ++ segment_block t segment, segment_exit t segment).
Proof. unfold push_segment. apply push_lines_windows. Qed.

Lemma fold_push_segment segs : forall acc t,
  fst (fold_left push_segment segs (acc, t)) = acc ++ List.concat (blocks t segs).
Proof.
  induction segs as [|s r IH]; intros acc t; simpl.
  - now rewrite app_nil_r.
  - rewrite push_segment_block, IH, <- app_assoc. reflexivity.
Qed.

Lemma createSubtitleSegments_blocks segs t0 :
  createSubtitleSegments segs t0 = List.concat (blocks t0 segs).
Proof. unfold createSubtitleSegments. now rewrite fold_push_segment. Qed.

Lemma windows_texts ld lines : forall t,
  map subText (windows t ld lines) = lines.
Proof. induction lines as [|l r IH]; intros t; simpl; [|rewrite IH]; reflexivity. Qed.

Lemma windows_length ld lines : forall t,
  List.length (windows t ld lines) = List.length lines.
Proof. induction lines as [|l r IH]; intros t; simpl; [|rewrite IH]; reflexivity. Qed.

Lemma windows_contiguous ld lines : forall t, contiguous (windows t ld lines).
Proof.
  induction lines as [|l r IH]; intros t; simpl; [exact I|].
  specialize (IH (fadd t ld)). destruct r as [|l' r']; simpl in *; [exact I|].
  split; [reflexivity|exact IH].
Qed.

(** The [i]-th window starts after [i] additions of the line duration
    and ends one addition later. *)
Lemma windows_nth ld lines : forall t i e,
  nth_error (windows t ld lines) i = Some e ->
  startTime e = advance t ld i /\ endTime e = fadd (startTime e) ld.
Proof.
  induction lines as [|l r IH]; intros t i e H.
  - destruct i; discriminate.
  - destruct i as [|i]; simpl in H.
    + injection H as <-. simpl. split; reflexivity.
    + exact (IH _ _ _ H).
Qed.


(** ** Subtitle processor: line wrapping *)

Lemma wrap_word_short lines currentLine word :
  Forall short lines -> short currentLine -> short word ->
  Forall short (fst (wrap_word (lines, currentLine) word))
  /\ short (snd (wrap_word (lines, currentLine) word)).
Proof.
  intros Hl Hc Hw. unfold wrap_word.
  destruct (Nat.leb_spec (List.length (currentLine ++ [SPACE] ++ word)) 60) as [Hle|Hgt].
  - simpl. split; [exact Hl|].
    destruct (truthy currentLine); [exact Hle|exact Hw].
  - simpl. split; [|exact Hw].
    destruct (truthy currentLine); [|exact Hl].
    apply Forall_app. split; [exact Hl|]. constructor; [exact Hc|constructor].
Qed.

Lemma fold_wrap_word_short words : forall lines currentLine,
  Forall short words -> Forall short lines -> short currentLine ->
  Forall short (fst (fold_left wrap_word words (lines, currentLine)))
  /\ short (snd (fold_left wrap_word words (lines, currentLine))).
Proof.
  induction words as [|w r IH]; intros lines cur Hw Hl Hc; cbn [fold_left].
  - split; assumption.
  - inversion Hw as [|? ? Hw1 Hw2]; subst.
    destruct (wrap_word_short lines cur w Hl Hc Hw1) as [H1 H2].
    destruct (wrap_word (lines, cur) w) as [lines' cur'].
    apply IH; assumption.
Qed.

Lemma wrap_lines_short txt :
  Forall short (split SPACE txt) -> Forall short (wrap_lines txt).
Proof.
  intros H. unfold wrap_lines.
  assert (Hnil : short []) by (unfold short; simpl; lia).
  match goal with
  | |- context [fold_left wrap_word ?l ?a] =>
      assert (H12 : Forall short (fst (fold_left wrap_word l a))
                    /\ short (snd (fold_left wrap_word l a)))
        by (apply fold_wrap_word_short; [exact H|constructor|exact Hnil]);
      destruct (fold_left wrap_word l a) as [lines cur]
  end.
  destruct H12 as [H1 H2]. simpl in *. destruct (truthy cur); [|exact H1].
  apply Forall_app. split; [exact H1|]. constructor; [exact H2|constructor].
Qed.

Lemma blocks_texts segs : forall t e,
  In e (List.concat (blocks t segs)) ->
  exists s, In s segs /\ In (subText e) (wrap_lines (text s)).
Proof.
  induction segs as [|s r IH]; intros t e H; simpl in H; [contradiction|].
  apply in_app_or in H. destruct H as [H|H].
  - exists s. split; [now left|].
    unfold segment_block in H.
    rewrite <- (windows_texts (lineDuration_of s (wrap_lines (text s)))
                              (wrap_lines (text s)) t).
    now apply in_map.
  - destruct (IH _ _ H) as [s' [Hin Hl]]. exists s'. split; [now right|exact Hl].
Qed.

(** *** The wrapped lines follow one another as well *)

Lemma windows_last ld : forall lines t dflt,
  lines <> [] ->
  endTime (last (windows t ld lines) dflt) = advance t ld (List.length lines).
Proof.
  induction lines as [|l r IH]; intros t dflt Hne; [congruence|].
  destruct r as [|l' r']; [reflexivity|].
  change (windows t ld (l :: l' :: r'))
    with (mkSubtitle t (fadd t ld) l :: windows (fadd t ld) ld (l' :: r')).
  change (advance t ld (List.length (l :: l' :: r')))
    with (advance (fadd t ld) ld (List.length (l' :: r'))).
  rewrite <- (IH (fadd t ld) dflt) by discriminate. reflexivity.
Qed.

Lemma contiguous_app l1 : forall l2 dflt,
  contiguous l1 -> contiguous l2 ->
  (l1 <> [] -> forall b, hd_error l2 = Some b -> endTime (last l1 dflt) = startTime b) ->
  contiguous (l1 ++ l2).
Proof.
  induction l1 as [|a r IH]; intros l2 dflt H1 H2 Hjoin; [exact H2|].
  destruct r as [|a' r'].
  - destruct l2 as [|b l2']; [exact I|]. simpl. split; [|exact H2].
    apply (Hjoin ltac:(discriminate) b eq_refl).
  - destruct H1 as [Ha H1]. cbn [app contiguous]. split; [exact Ha|].
    apply (IH l2 dflt H1 H2). intros _ b Hb.
    exact (Hjoin ltac:(discriminate) b Hb).
Qed.

Lemma blocks_contiguous segs : forall t,
  contiguous (List.concat (blocks t segs))
  /\ forall b, hd_error (List.concat (blocks t segs)) = Some b -> startTime b = t.
Proof.
  induction segs as [|s r IH]; intros t; cbn [blocks List.concat].
  - split; [exact I|discriminate].
  - destruct (IH (segment_exit t s)) as [Hc Hh].
    unfold segment_block, segment_exit in *.
    set (lines := wrap_lines (text s)) in *.
    set (ld := lineDuration_of s lines) in *.
    destruct lines as [|l ls] eqn:Hl.
    + cbn [windows app List.length advance] in *. split; assumption.
    + split.
      * apply (contiguous_app _ _ (mkSubtitle 0 0 []));
          [apply windows_contiguous|exact Hc|].
        intros _ b Hb. rewrite windows_last by discriminate.
        symmetry. exact (Hh b Hb).
      * intros b Hb. cbn in Hb. now injection Hb as <-.
Qed.

(** The lines of [createSubtitleSegments] start at the given start time
    and follow one another without a gap. *)
Lemma createSubtitleSegments_contiguous segs t0 :
  contiguous (createSubtitleSegments segs t0)
  /\ forall b, hd_error (createSubtitleSegments segs t0) = Some b -> startTime b = t0.
Proof. rewrite createSubtitleSegments_blocks. apply blocks_contiguous. Qed.

(** The texts of the entries are the wrapped lines of the segments, in
    order: one entry for each line. *)
Lemma blocks_lines segs : forall t,
  map subText (List.concat (blocks t segs))
  = flat_map (fun s => wrap_lines (text s)) segs.
Proof.
  induction segs as [|s r IH]; intros t; [reflexivity|].
  cbn [blocks List.concat flat_map]. rewrite map_app, IH.
  unfold segment_block. now rewrite windows_texts.
Qed.

(** C10 (as amended): when every piece of a segment's text between two
    plain spaces has at most 60 characters, every subtitle line has at
    most 60 characters; the output is the sequence of the segments'
    blocks; a segment with [k >= 1] lines yields [k] consecutive windows
    that start where the segment starts; each window ends at its start
    plus [duration / k], the division and the additions being those of
    doubles, and the next window, or the next segment, starts where it
    ends. *)
Theorem C10_lines_bounded_evenly_timed :
  forall (segs : list TimedText) (t0 : Q),
    (forall s w, In s segs -> In w (split SPACE (text s)) -> (List.length w <= 60)%nat) ->
    (forall e, In e (createSubtitleSegments segs t0) ->
               (List.length (subText e) <= 60)%nat)
    /\ createSubtitleSegments segs t0 = List.concat (blocks t0 segs)
    /\ (forall (s : TimedText) (t : Q) (dflt : SubtitleSegment),
          let lines := wrap_lines (text s) in
          let share := fdiv (duration s) (of_nat (List.length lines)) in
          map subText (segment_block t s) = lines
          /\ contiguous (segment_block t s)
          /\ (forall i e, nth_error (segment_block t s) i = Some e ->
                startTime e = advance t share i
                /\ endTime e = fadd (startTime e) share)
          /\ (lines <> [] ->
              segment_exit t s = endTime (last (segment_block t s) dflt))).
Proof.
  intros segs t0 Hwords. split; [|split].
  - intros e He. rewrite createSubtitleSegments_blocks in He.
    destruct (blocks_texts _ _ _ He) as [s [Hs Hl]].
    assert (Hshort : Forall short (wrap_lines (text s))).
    { apply wrap_lines_short. apply Forall_forall. intros w Hw.
      exact (Hwords s w Hs Hw). }
    rewrite Forall_forall in Hshort. exact (Hshort _ Hl).
  - apply createSubtitleSegments_blocks.
  - intros s t dflt lines share. unfold segment_block. fold lines.
    split; [apply windows_texts|].
    split; [apply windows_contiguous|].
    split; [intros i e H; exact (windows_nth _ _ _ _ _ H)|].
    intros Hne. unfold segment_exit. fold lines.
    symmetry. now apply windows_last.
Qed.

Lemma C10_lines_bounded_evenly_timed_witness :
  (forall e, In e (createSubtitleSegments
                     [mkTimed (of_string "hello world") 4; mkTimed [] 3] 0) ->
             (List.length (subText e) <= 60)%nat)
  /\ createSubtitleSegments [mkTimed (of_string "hello world") 4; mkTimed [] 3] 0
     = List.concat (blocks 0 [mkTimed (of_string "hello world") 4; mkTimed [] 3]).
Proof.
  pose proof (C10_lines_bounded_evenly_timed
                [mkTimed (of_string "hello world") 4; mkTimed [] 3] 0) as H.
  assert (Hw : forall s w,
             In s [mkTimed (of_string "hello world") 4; mkTimed [] 3] ->
             In w (split SPACE (text s)) -> (List.length w <= 60)%nat).
  { intros s w [<-|[<-|[]]] Hin; simpl in Hin.
    - destruct Hin as [<-|[<-|[]]]; simpl; lia.
    - destruct Hin as [<-|[]]; simpl; lia. }
  destruct (H Hw) as [H1 [H2 _]]. split; [exact H1|exact H2].
Defined.

(** C10 (as stated) fails twice.  Both white-space separated words of
    [tabbed_text] have 40 characters, yet the only line produced has 81,
    because the text is split at plain spaces only.  And the windows do
    not partition the duration of their segment: a segment of 6.2 seconds
    (the double nearest to it) in three lines, entered at 0, gets windows
    of which the last one ends after 6.2 seconds, at
    6.20000000000000106581410364015. *)
Lemma C10_counterexample :
  whitespace_words CaptionText.tabbed_text = [repeat 97%N 40; repeat 98%N 40]
  /\ forallb (fun w => (List.length w <=? 60)%nat)
             (whitespace_words CaptionText.tabbed_text) = true
  /\ map (fun e => List.length (subText e))
         (createSubtitleSegments [mkTimed CaptionText.tabbed_text 10] 0)
     = [81%nat]
  /\ forallb (fun w => (List.length w <=? 60)%nat)
             (whitespace_words CaptionText.three_line_text) = true
  /\ List.length (createSubtitleSegments
                    [mkTimed CaptionText.three_line_text (to_double 6.2)] 0) = 3%nat
  /\ to_double 6.2
     < endTime (last (createSubtitleSegments
                        [mkTimed CaptionText.three_line_text (to_double 6.2)] 0)
                     (mkSubtitle 0 0 [])).
Proof. repeat split; vm_compute; reflexivity. Qed.

(** ** Caption text cleaning *)

Import EnhancedVideoProcessor CaptionText.

Lemma kept_SPACE : kept SPACE = true.
Proof. reflexivity. Qed.

Lemma kept_not_quote c : kept c = true -> is_quote c = false.
Proof.
  intros Hk. unfold is_quote.
  destruct (N.eqb_spec c 39) as [->|_]; [discriminate Hk|].
  destruct (N.eqb_spec c 34) as [->|_]; [discriminate Hk|].
  reflexivity.
Qed.

Lemma strip_quotes_kept s :
  Forall (fun c => kept c = true) s ->
  filter (fun c => negb (is_quote c)) s = s.
Proof.
  induction 1 as [|c r Hc _ IH]; simpl; [reflexivity|].
  rewrite (kept_not_quote c Hc). simpl. now rewrite IH.
Qed.

Lemma blank_others_kept s :
  Forall (fun c => kept c = true) s ->
  map (fun c => if kept c then c else SPACE) s = s.
Proof.
  induction 1 as [|c r Hc _ IH]; simpl; [reflexivity|].
  now rewrite Hc, IH.
Qed.

Lemma blank_others_all_kept s :
  Forall (fun c => kept c = true) (map (fun c => if kept c then c else SPACE) s).
Proof.
  induction s as [|c r IH]; simpl; constructor; [|exact IH].
  destruct (kept c) eqn:Hc; [exact Hc|exact kept_SPACE].
Qed.

Lemma replace_space_runs_kept s : forall b,
  Forall (fun c => kept c = true) s ->
  Forall (fun c => kept c = true) (replace_space_runs b s).
Proof.
  induction s as [|c r IH]; intros b H; simpl; [constructor|].
  inversion H as [|? ? Hc Hr]; subst.
  destruct (is_space c); [destruct b|]; try constructor; auto using kept_SPACE.
Qed.

Lemma replace_space_runs_single s : forall b,
  single_spaced b (replace_space_runs b s).
Proof.
  induction s as [|c r IH]; intros b; simpl; [exact I|].
  destruct (is_space c) eqn:Hc.
  - destruct b; [apply IH|].
    simpl. repeat split. apply IH.
  - simpl. rewrite Hc. apply IH.
Qed.

Lemma replace_space_runs_fixed s : forall b,
  single_spaced b s -> replace_space_runs b s = s.
Proof.
  induction s as [|c r IH]; intros b H; simpl in *; [reflexivity|].
  destruct (is_space c).
  - destruct H as [-> [-> H]]. now rewrite (IH true H).
  - now rewrite (IH false H).
Qed.

Lemma trimStart_fixed s : single_spaced true s -> trimStart s = s.
Proof.
  destruct s as [|c r]; simpl; [reflexivity|].
  destruct (is_space c); [|reflexivity].
  intros [_ [H _]]. discriminate H.
Qed.

Lemma single_spaced_start b s : single_spaced b s -> single_spaced true (trimStart s).
Proof.
  destruct s as [|c r]; simpl; [exact (fun H => H)|].
  destruct (is_space c) eqn:Hc.
  - intros [_ [_ H]]. now rewrite (trimStart_fixed r H).
  - intros H. simpl. now rewrite Hc.
Qed.

Lemma trimStart_Forall (P : N -> Prop) s : Forall P s -> Forall P (trimStart s).
Proof.
  induction 1 as [|c r Hc Hr IH]; simpl; [constructor|].
  destruct (is_space c); [exact IH|now constructor].
Qed.

Lemma trimEnd_Forall (P : N -> Prop) s : Forall P s -> Forall P (trimEnd s).
Proof.
  induction 1 as [|c r Hc Hr IH]; simpl; [constructor|].
  destruct (trimEnd r) as [|d r'].
  - destruct (is_space c); repeat constructor; exact Hc.
  - now constructor.
Qed.

Lemma trimEnd_single s : forall b, single_spaced b s -> single_spaced b (trimEnd s).
Proof.
  induction s as [|c r IH]; intros b H; simpl in *; [exact I|].
  destruct (is_space c) eqn:Hc.
  - destruct H as [H1 [H2 H3]]. specialize (IH true H3).
    destruct (trimEnd r) as [|d r']; [exact I|].
    cbn [single_spaced]. rewrite Hc. auto.
  - specialize (IH false H).
    destruct (trimEnd r) as [|d r']; cbn [single_spaced]; rewrite Hc; [exact I|exact IH].
Qed.

Lemma trimEnd_idem s : trimEnd (trimEnd s) = trimEnd s.
Proof.
  induction s as [|c r IH]; simpl; [reflexivity|].
  destruct (trimEnd r) as [|d r'] eqn:Hr.
  - destruct (is_space c) eqn:Hc; simpl; [reflexivity|now rewrite Hc].
  - cbn [trimEnd] in *. now rewrite IH.
Qed.

Lemma firstn_Forall (P : N -> Prop) n : forall s, Forall P s -> Forall P (firstn n s).
Proof.
  induction n as [|n IH]; intros s H; simpl; [constructor|].
  destruct H; constructor; auto.
Qed.

Lemma firstn_single n : forall s b, single_spaced b s -> single_spaced b (firstn n s).
Proof.
  induction n as [|n IH]; intros s b H; simpl; [exact I|].
  destruct s as [|c r]; simpl in *; [exact I|].
  destruct (is_space c).
  - destruct H as [H1 [H2 H3]]. auto.
  - auto.
Qed.

Lemma dots_single s : forall b, single_spaced b s -> single_spaced b (s ++ [DOT; DOT; DOT]).
Proof.
  induction s as [|c r IH]; intros b H; simpl in *; [exact I|].
  destruct (is_space c).
  - destruct H as [H1 [H2 H3]]. auto.
  - auto.
Qed.

Lemma dots_trimEnd s : trimEnd (s ++ [DOT; DOT; DOT]) = s ++ [DOT; DOT; DOT].
Proof.
  induction s as [|c r IH]; [reflexivity|].
  cbn [app trimEnd]. rewrite IH.
  destruct r; reflexivity.
Qed.

(** The text before the length cut is tidy. *)
Lemma cleaned_tidy text :
  tidy (trim (replace_space_runs false
               (map (fun c => if kept c then c else SPACE)
                    (filter (fun c => negb (is_quote c)) text)))).
Proof.
  unfold tidy, trim. split; [|split].
  - apply trimEnd_Forall, trimStart_Forall, replace_space_runs_kept,
      blank_others_all_kept.
  - apply trimEnd_single. eapply single_spaced_start. apply replace_space_runs_single.
  - apply trimEnd_idem.
Qed.

Lemma cleanText_tidy text :
  tidy (cleanText text) /\ (List.length (cleanText text) <= 55)%nat.
Proof.
  unfold cleanText.
  pose proof (cleaned_tidy text) as Ht.
  set (cleaned := trim _) in *.
  destruct (Nat.ltb_spec 55 (List.length cleaned)) as [Hlong|Hshort].
  - destruct Ht as [Hk [Hs He]]. split.
    + unfold tidy, substring0. split; [|split].
      * apply Forall_app. split; [now apply firstn_Forall|].
        repeat constructor.
      * apply dots_single. now apply firstn_single.
      * apply dots_trimEnd.
    + unfold substring0. rewrite length_app, length_firstn.
      change (List.length [DOT; DOT; DOT]) with 3%nat.
      rewrite Nat.min_l by lia. lia.
  - split; [exact Ht|exact Hshort].
Qed.

Lemma cleanText_fixed s :
  tidy s -> (List.length s <= 55)%nat -> cleanText s = s.
Proof.
  intros [Hk [Hs He]] Hlen. unfold cleanText.
  rewrite (strip_quotes_kept s Hk), (blank_others_kept s Hk).
  assert (Hf : single_spaced false s).
  { destruct s as [|c r]; simpl in *; [exact I|].
    destruct (is_space c); [|exact Hs]. destruct Hs as [_ [Hs _]]. discriminate Hs. }
  rewrite (replace_space_runs_fixed s false Hf).
  unfold trim. rewrite (trimStart_fixed s Hs), He.
  destruct (Nat.ltb_spec 55 (List.length s)); [lia|reflexivity].
Qed.

Lemma single_spaced_plain s : forall b c,
  single_spaced b s -> In c s -> is_space c = true -> c = SPACE.
Proof.
  induction s as [|d r IH]; intros b c H Hin Hc; simpl in *; [contradiction|].
  destruct Hin as [->|Hin].
  - rewrite Hc in H. tauto.
  - destruct (is_space d); [destruct H as [_ [_ H]]|]; eauto.
Qed.

(** C5 (as amended): the cleaning deletes the quote characters, turns
    every character outside [\w], [\s] and [. ! ? -] (the comma is not
    kept) into a space, collapses runs of white space into one plain
    space, trims, and cuts a result of more than 55 characters to its
    first 52 followed by three dots.  Hence the result has at most 55
    characters, all of them kept characters that are not quotes, with
    plain spaces as the only white space; cleaning twice is cleaning
    once; and the example text becomes [He said Wow!! script]. *)
Theorem C5_cleanText_idempotent :
  forall text : jsstring,
    Forall (fun c => kept c = true /\ is_quote c = false
                     /\ (is_space c = true -> c = SPACE)) (cleanText text)
    /\ (List.length (cleanText text) <= 55)%nat
    /\ cleanText (cleanText text) = cleanText text
    /\ kept 44%N = false
    /\ cleanText wow_input = of_string "He said Wow!! script".
Proof.
  intros text. destruct (cleanText_tidy text) as [Ht Hlen].
  split; [|split; [exact Hlen|split; [|split; reflexivity]]].
  - destruct Ht as [Hk [Hs _]]. apply Forall_forall. intros c Hc.
    rewrite Forall_forall in Hk. specialize (Hk c Hc).
    split; [exact Hk|]. split; [now apply kept_not_quote|].
    intros Hsp. exact (single_spaced_plain _ _ _ Hs Hc Hsp).
  - now apply cleanText_fixed.
Qed.

(** C5 (as stated) fails on its own example: the colon and the angle
    brackets become spaces, the doubled exclamation mark and the word
    [script] stay.  A comma is not kept either, and what is not kept is
    replaced by a space, not removed. *)
Lemma C5_counterexample :
  cleanText wow_input = of_string "He said Wow!! script"
  /\ cleanText wow_input <> of_string "He said Wow"
  /\ cleanText (of_string "a,b") = of_string "a b".
Proof. split; [reflexivity|]. split; [vm_compute; discriminate|reflexivity]. Qed.

(** ** Empty assets *)

Import Node Run Assets.

(** C9: a call of [createVideo] with no image or no audio segment rejects
    with the error [No assets provided for video creation] and leaves the
    world as it was: no file is touched and no process is spawned.  This
    holds for the enhanced, the basic and the original processor. *)
Theorem C9_empty_assets_rejected :
  forall (E : env) (assets : VideoAssets) (outputPath : string) (totalDuration : Q)
         (subtitles : option Subtitles) (videoTopic textFont textColor : option string)
         (w : world),
    images assets = [] \/ audioSegments assets = [] ->
    EnhancedVideoProcessor.createVideo E assets outputPath totalDuration subtitles
                                       videoTopic textFont textColor w
    = (Throw no_assets_message, w)
    /\ BasicVideoProcessor.createVideo E assets outputPath totalDuration subtitles
                                       videoTopic textFont textColor w
       = (Throw no_assets_message, w)
    /\ VideoProcessor.createVideo E assets outputPath totalDuration subtitles
                                  videoTopic textFont textColor w
       = (Throw no_assets_message, w).
Proof.
  intros E assets outputPath totalDuration subtitles videoTopic textFont textColor w H.
  unfold EnhancedVideoProcessor.createVideo, BasicVideoProcessor.createVideo,
    VideoProcessor.createVideo.
  assert (Hempty : ((List.length (images assets) =? 0)%nat
                    || (List.length (audioSegments assets) =? 0)%nat) = true).
  { destruct H as [H|H]; rewrite H; simpl; [reflexivity|apply orb_true_r]. }
  rewrite Hempty. repeat split.
Qed.

Lemma C9_empty_assets_rejected_witness :
  EnhancedVideoProcessor.createVideo Scenario.fine Scenario.no_images
    "/app/temp/out.mp4" 30 None None None None Scenario.with_media
  = (Throw no_assets_message, Scenario.with_media).
Proof.
  exact (proj1 (C9_empty_assets_rejected Scenario.fine Scenario.no_images
                  "/app/temp/out.mp4" 30 None None None None Scenario.with_media
                  (or_introl eq_refl))).
Defined.

(** ** The duration probe and the caption timing of the generation routine *)

Import Measured.

Lemma spawn_in_time E tool args w :
  in_time (elapsed (run E tool args)) w ->
  spawn E tool args w = (Ok (run E tool args), after_spawn E tool args w).
Proof.
  unfold in_time, spawn, await, after_spawn. cbn [deadline clock with_event].
  destruct (deadline w) as [d|]; [|reflexivity]. intros H.
  destruct (N.ltb_spec d (clock w + elapsed (run E tool args))); [lia|reflexivity].
Qed.

Lemma getAudioDuration_measures E p d w :
  measures E p d -> in_time (probe_ms E p) w ->
  exists w',
    Routes.getAudioDuration E p w = (Ok d, w')
    /\ deadline w' = deadline w
    /\ clock w' = (clock w + probe_ms E p)%N.
Proof.
  intros [Hexit Hparse] Htime.
  exists (after_spawn E "ffprobe" (Routes.ffprobe_args p) w).
  unfold Routes.getAudioDuration, bind.
  rewrite (spawn_in_time E _ _ w Htime), Hexit. cbn [Z.eqb]. rewrite Hparse.
  repeat split.
Qed.

Lemma skipn_cons_nth {A} (l : list A) : forall i p ps dflt,
  skipn i l = p :: ps -> nth i l dflt = p /\ skipn (S i) l = ps.
Proof.
  induction l as [|a r IH]; intros i p ps dflt H.
  - destruct i; discriminate H.
  - destruct i as [|i].
    + simpl in H. injection H as -> ->. split; reflexivity.
    + simpl in H. exact (IH i p ps dflt H).
Qed.

(** With probes that succeed, the timing loop computes [captions]. *)
Lemma timing_from_captions E audioPaths : forall rest ds i t acc w,
  Forall2 (measures E) (skipn i audioPaths) ds ->
  List.length ds = List.length rest ->
  in_time (total_ms E (skipn i audioPaths)) w ->
  exists w',
    Routes.timing_from E audioPaths i rest t acc w
    = (Ok (acc ++ captions t ds (map Script.text rest)), w').
Proof.
  induction rest as [|seg r IH]; intros ds i t acc w HF Hlen Htime.
  - exists w. destruct ds; [|discriminate Hlen]. simpl.
    unfold ret. now rewrite app_nil_r.
  - destruct ds as [|d ds']; [discriminate Hlen|].
    inversion HF as [|p d' ps ds'' Hm HF' Hsk Hds]; subst.
    symmetry in Hsk.
    destruct (skipn_cons_nth audioPaths i p ps EmptyString Hsk) as [Hnth Hrest].
    rewrite Hsk in Htime. cbn [total_ms fold_right] in Htime.
    assert (Ht1 : in_time (probe_ms E p) w).
    { unfold in_time in *. destruct (deadline w); [lia|exact I]. }
    destruct (getAudioDuration_measures E p d w Hm Ht1) as [w1 [Hrun [Hdl Hck]]].
    assert (Ht2 : in_time (total_ms E (skipn (S i) audioPaths)) w1).
    { rewrite Hrest. unfold in_time in *. rewrite Hdl, Hck.
      destruct (deadline w); [|exact I]. fold (total_ms E ps) in Htime. lia. }
    rewrite <- Hrest in HF'.
    destruct (IH ds' (S i) (t + d)
                 (acc ++ [mkSubtitle t (t + d) (Script.text seg)]) w1 HF'
                 (eq_add_S _ _ Hlen) Ht2) as [w' Hw'].
    exists w'. cbn [Routes.timing_from]. unfold bind, Routes.duration_for, try_catch.
    rewrite Hnth, Hrun. rewrite Hw'. rewrite <- app_assoc. reflexivity.
Qed.

Lemma captions_length : forall ds texts t,
  List.length ds = List.length texts ->
  List.length (captions t ds texts) = List.length texts.
Proof.
  induction ds as [|d ds IH]; intros [|x xs] t H; simpl in *; try discriminate; auto.
Qed.

Lemma captions_texts : forall ds texts t,
  List.length ds = List.length texts ->
  map subText (captions t ds texts) = texts.
Proof.
  induction ds as [|d ds IH]; intros [|x xs] t H; simpl in *; try discriminate; auto.
  f_equal. apply IH. now injection H.
Qed.

Lemma captions_contiguous : forall ds texts t, contiguous (captions t ds texts).
Proof.
  induction ds as [|d ds IH]; intros [|x xs] t; simpl; try exact I.
  specialize (IH xs (t + d)).
  destruct ds as [|d' ds']; [exact I|]. destruct xs as [|x' xs']; [exact I|].
  split; [reflexivity|exact IH].
Qed.

Lemma captions_last : forall ds texts t dflt,
  List.length ds = List.length texts -> ds <> [] ->
  endTime (last (captions t ds texts) dflt) = fold_left Qplus ds t.
Proof.
  induction ds as [|d ds IH]; intros [|x xs] t dflt Hlen Hne; simpl in Hlen;
    try discriminate; [congruence|].
  destruct ds as [|d' ds'].
  - destruct xs; [reflexivity|discriminate Hlen].
  - destruct xs as [|x' xs']; [discriminate Hlen|].
    change (captions t (d :: d' :: ds') (x :: x' :: xs'))
      with (mkSubtitle t (t + d) x :: captions (t + d) (d' :: ds') (x' :: xs')).
    change (fold_left Qplus (d :: d' :: ds') t)
      with (fold_left Qplus (d' :: ds') (t + d)).
    rewrite <- (IH (x' :: xs') (t + d) dflt); [|simpl in *; lia|discriminate].
    reflexivity.
Qed.

Lemma captions_head : forall ds texts t dflt,
  List.length ds = List.length texts -> ds <> [] ->
  startTime (hd dflt (captions t ds texts)) = t.
Proof.
  intros [|d ds] [|x xs] t dflt Hlen Hne; simpl in *; try discriminate; congruence.
Qed.

(** C2 (as amended): with subtitles enabled, [N >= 1] script segments and
    [N] probes that measure the durations [ds], the caption list built by
    the generation routine has [N] entries carrying the segments' texts,
    the first starts at 0, each ends where the next starts, and the last
    ends at the measured durations added from left to right.  The list
    built by [createSubtitleSegments] has one entry for each subtitle
    line into which the texts of the segments are wrapped, in order; its
    first entry starts at the given start time and each entry ends where
    the next starts. *)
Theorem C2_caption_contiguity :
  forall (E : env) (video : Schema.Video) (segs : list Script.ScriptSegment)
         (ds : list Q) (audioPaths : list string) (w : world) (dflt : SubtitleSegment),
    Schema.subtitles video = true ->
    (1 <= List.length segs)%nat ->
    List.length ds = List.length segs ->
    Forall2 (measures E) audioPaths ds ->
    in_time (total_ms E audioPaths) w ->
    (exists entries w',
       Routes.subtitle_step E video segs audioPaths w = (Ok (Some entries), w')
       /\ List.length entries = List.length segs
       /\ map subText entries = map Script.text segs
       /\ startTime (hd dflt entries) = 0
       /\ contiguous entries
       /\ endTime (last entries dflt) = sum_durations ds
       /\ Qabs (endTime (last entries dflt) - sum_durations ds) <= 1 # 1000000)
    /\ (forall (scriptSegments : list TimedText) (t0 : Q),
          map subText (createSubtitleSegments scriptSegments t0)
          = flat_map (fun s => wrap_lines (text s)) scriptSegments
          /\ contiguous (createSubtitleSegments scriptSegments t0)
          /\ (forall b, hd_error (createSubtitleSegments scriptSegments t0) = Some b ->
                        startTime b = t0)).
Proof.
  intros E video segs ds audioPaths w dflt Hsub HN Hlen HF Htime.
  split.
  2:{ intros scriptSegments t0. split; [|apply createSubtitleSegments_contiguous].
      rewrite createSubtitleSegments_blocks. apply blocks_lines. }
  assert (Hne : ds <> []) by (destruct ds; [simpl in Hlen; lia|discriminate]).
  assert (Hlen' : List.length ds = List.length (map Script.text segs))
    by now rewrite length_map.
  destruct (timing_from_captions E audioPaths segs ds 0 0 [] w HF Hlen Htime)
    as [w' Hrun].
  exists (captions 0 ds (map Script.text segs)), w'.
  assert (Hlast : endTime (last (captions 0 ds (map Script.text segs)) dflt)
                  = sum_durations ds)
    by (apply captions_last; assumption).
  repeat split.
  - unfold Routes.subtitle_step. rewrite Hsub.
    destruct (Nat.ltb_spec 0 (List.length segs)) as [_|Hz]; [|lia].
    cbn [andb]. unfold bind. rewrite Hrun. reflexivity.
  - rewrite captions_length by assumption. apply length_map.
  - now apply captions_texts.
  - now apply captions_head.
  - apply captions_contiguous.
  - exact Hlast.
  - rewrite Hlast. unfold Qminus. rewrite Qplus_opp_r. discriminate.
Qed.

Lemma C2_caption_contiguity_witness :
  (exists entries w',
     Routes.subtitle_step Scenario.fine Scenario.video1 Scenario.three_segments
                          Scenario.audio_paths Scenario.start
     = (Ok (Some entries), w')
     /\ List.length entries = List.length Scenario.three_segments
     /\ map subText entries = map Script.text Scenario.three_segments
     /\ startTime (hd (mkSubtitle 0 0 []) entries) = 0
     /\ contiguous entries
     /\ endTime (last entries (mkSubtitle 0 0 [])) = sum_durations [9.2; 11.0; 9.8]
     /\ Qabs (endTime (last entries (mkSubtitle 0 0 []))
              - sum_durations [9.2; 11.0; 9.8]) <= 1 # 1000000)
  /\ (forall (scriptSegments : list TimedText) (t0 : Q),
        map subText (createSubtitleSegments scriptSegments t0)
        = flat_map (fun s => wrap_lines (text s)) scriptSegments
        /\ contiguous (createSubtitleSegments scriptSegments t0)
        /\ (forall b, hd_error (createSubtitleSegments scriptSegments t0) = Some b ->
                      startTime b = t0)).
Proof.
  apply (C2_caption_contiguity Scenario.fine Scenario.video1 Scenario.three_segments
           [9.2; 11.0; 9.8] Scenario.audio_paths Scenario.start (mkSubtitle 0 0 [])).
  - reflexivity.
  - simpl. lia.
  - reflexivity.
  - repeat constructor.
  - exact I.
Defined.

(** C2 (as stated) fails for [createSubtitleSegments]: one segment whose
    text has two words of forty letters, with a duration of 10 seconds,
    gives a list of two entries, one for each line, not of one. *)
Lemma C2_counterexample :
  List.length [mkTimed CaptionText.two_line_text 10] = 1%nat
  /\ map (fun e => (startTime e, endTime e, List.length (subText e)))
         (createSubtitleSegments [mkTimed CaptionText.two_line_text 10] 0)
     = [(0, 5, 40%nat); (5, 10, 40%nat)]
  /\ List.length (createSubtitleSegments [mkTimed CaptionText.two_line_text 10] 0)
     <> List.length [mkTimed CaptionText.two_line_text 10].
Proof.
  split; [reflexivity|]. split; [vm_compute; reflexivity|].
  vm_compute. discriminate.
Qed.

(** The sample job end to end: measured clips of 9.2, 11.0 and 9.8
    seconds give the captions [0, 9.2), [9.2, 20.2) and [20.2, 30.0). *)
Lemma sample_job_captions :
  fst (Routes.generateVideoContent Scenario.fine "v1" Scenario.start) = Ok tt
  /\ option_map Schema.subtitleData
       (Routes.lookup "v1"
          (videos (snd (Routes.generateVideoContent Scenario.fine "v1" Scenario.start))))
     = Some (Some (captions 0 [9.2; 11.0; 9.8] (map Script.text Scenario.three_segments)))
  /\ sum_durations [9.2; 11.0; 9.8] == 30.
Proof. split; [|split]; vm_compute; reflexivity. Qed.

(** C1 (as stated) fails in the generation routine.  On the sample job
    with an [ffprobe] that exits with 1, the probe itself rejects, but
    the job completes and stores caption times built from the planned 10
    seconds of each segment. *)
Lemma C1_counterexample :
  fst (Routes.getAudioDuration Scenario.probe_fails "/app/temp/audio-v1-0.mp3"
                               Scenario.start)
  = Throw "ffprobe failed with code 1"
  /\ fst (Routes.generateVideoContent Scenario.probe_fails "v1" Scenario.start) = Ok tt
  /\ option_map Schema.status
       (Routes.lookup "v1"
          (videos (snd (Routes.generateVideoContent Scenario.probe_fails "v1"
                                                    Scenario.start))))
     = Some "completed"%string
  /\ option_map Schema.subtitleData
       (Routes.lookup "v1"
          (videos (snd (Routes.generateVideoContent Scenario.probe_fails "v1"
                                                    Scenario.start))))
     = Some (Some (captions 0 [10; 10; 10] (map Script.text Scenario.three_segments))).
Proof. repeat split; vm_compute; reflexivity. Qed.

(** ** The share of each image *)

Lemma looped_inputs_group seconds p r :
  Inputs.looped_inputs (EnhancedVideoProcessor.image_input seconds p ++ r)
  = (seconds, p) :: Inputs.looped_inputs r.
Proof. reflexivity. Qed.

Lemma looped_inputs_groups seconds r : forall imagePaths,
  Inputs.looped_inputs
    (List.concat (map (EnhancedVideoProcessor.image_input seconds) imagePaths) ++ r)
  = map (pair seconds) imagePaths ++ Inputs.looped_inputs r.
Proof.
  induction imagePaths as [|p ps IH]; [reflexivity|].
  cbn [map List.concat]. rewrite <- app_assoc, looped_inputs_group, IH. reflexivity.
Qed.

(** An argument is skipped when the second argument after it is not a
    number. *)
Lemma looped_inputs_skip a r :
  (forall q, nth_error r 2 <> Some [Num q]) ->
  Inputs.looped_inputs (a :: r) = Inputs.looped_inputs r.
Proof.
  intros H. destruct r as [|b [|c [|x r']]]; try reflexivity.
  destruct x as [|[s|q|q|t] [|y x']]; try reflexivity.
  now contradiction (H q).
Qed.

Lemma looped_inputs_none : forall args,
  Forall Inputs.not_a_number args -> Inputs.looped_inputs args = [].
Proof.
  induction args as [|a r IH]; intros H; [reflexivity|].
  inversion H as [|? ? Ha Hr]; subst.
  rewrite looped_inputs_skip; [exact (IH Hr)|].
  intros q Hq. apply nth_error_In in Hq.
  rewrite Forall_forall in Hr. exact (Hr _ Hq q eq_refl).
Qed.

Lemma lit_not_a_number s : Inputs.not_a_number (lit s).
Proof. intros q. discriminate. Qed.

Lemma lits_not_numbers l : Forall Inputs.not_a_number (map lit l).
Proof. induction l; constructor; [apply lit_not_a_number|assumption]. Qed.

Lemma ends_with_lit_not_a_number l s : Inputs.not_a_number (l ++ [Lit s]).
Proof.
  intros q H. destruct l as [|x [|y l']]; discriminate H.
Qed.

(** What follows the image inputs of the enhanced processor holds no
    further image. *)
Lemma advanced_tail_no_input imagePaths audioPath outputPath o before :
  EnhancedVideoProcessor.advanced_args imagePaths audioPath outputPath o
  = [lit "-y"; lit "-i"; lit audioPath]
    ++ List.concat
         (map (EnhancedVideoProcessor.image_input
                 (fadd (EnhancedVideoProcessor.durationPerImage_of o imagePaths) 1))
              imagePaths)
    ++ before ->
  Forall Inputs.not_a_number before.
Proof.
  unfold EnhancedVideoProcessor.advanced_args. intros H.
  apply app_inv_head in H. apply app_inv_head in H. subst before.
  apply Forall_app. split; [|apply lits_not_numbers].
  destruct (EnhancedVideoProcessor.overlays_wanted o) as [segs|].
  - repeat constructor; try apply lit_not_a_number.
    rewrite !app_assoc. apply ends_with_lit_not_a_number.
  - repeat constructor; try apply lit_not_a_number.
    change [Lit "concat=n="; Lit (string_of_nat (List.length imagePaths));
            Lit ":v=1:a=0[video]"]
      with ([Lit "concat=n="; Lit (string_of_nat (List.length imagePaths))]
            ++ [Lit ":v=1:a=0[video]"]).
    rewrite !app_assoc. apply ends_with_lit_not_a_number.
Qed.

Lemma advanced_looped_inputs imagePaths audioPath outputPath o :
  imagePaths <> [] ->
  Inputs.looped_inputs
    (EnhancedVideoProcessor.advanced_args imagePaths audioPath outputPath o)
  = map (pair (fadd (EnhancedVideoProcessor.durationPerImage_of o imagePaths) 1))
        imagePaths.
Proof.
  intros Hne.
  pose proof (advanced_tail_no_input imagePaths audioPath outputPath o) as Htail.
  unfold EnhancedVideoProcessor.advanced_args in *.
  set (seconds := fadd (EnhancedVideoProcessor.durationPerImage_of o imagePaths) 1) in *.
  match goal with
  | |- context [List.concat (map (EnhancedVideoProcessor.image_input seconds) imagePaths)
                ++ ?t] =>
      set (tail := t) in *
  end.
  specialize (Htail tail eq_refl).
  destruct imagePaths as [|p ps]; [congruence|].
  cbn [app].
  rewrite looped_inputs_skip by (cbn; intros q; discriminate).
  rewrite looped_inputs_skip by (cbn; intros q; discriminate).
  rewrite looped_inputs_skip by (cbn; intros q; discriminate).
  rewrite looped_inputs_groups, (looped_inputs_none tail Htail), app_nil_r.
  reflexivity.
Qed.

Lemma video_looped_inputs assets outputPath totalDuration titlePagePath :
  images assets <> [] ->
  Inputs.looped_inputs
    (VideoProcessor.video_args assets outputPath totalDuration titlePagePath)
  = match VideoProcessor.truthy_string titlePagePath with
    | Some p => [(2, p)]
    | None => []
    end
    ++ map (pair (fadd (VideoProcessor.durationPerImage_of totalDuration titlePagePath
                                                           assets) (1 # 2)))
           (images assets).
Proof.
  intros Hne. unfold VideoProcessor.video_args.
  set (seconds := fadd (VideoProcessor.durationPerImage_of totalDuration titlePagePath
                                                           assets) (1 # 2)).
  match goal with
  | |- context [List.concat (map (EnhancedVideoProcessor.image_input seconds)
                                 (images assets)) ++ ?t] =>
      set (tail := t)
  end.
  assert (Htail : Forall Inputs.not_a_number tail).
  { unfold tail. apply Forall_app. split.
    { induction (audioSegments assets) as [|a r IH]; [constructor|].
      cbn [map List.concat app].
      constructor; [apply lit_not_a_number|].
      constructor; [apply lit_not_a_number|exact IH]. }
    apply Forall_app. split; [|apply lits_not_numbers].
    repeat constructor; try apply lit_not_a_number.
    destruct (VideoProcessor.truthy_string titlePagePath) as [p|].
    - change [Lit ";aevalsrc=0:d="; Num (VideoProcessor.titleDuration_of titlePagePath);
              Lit "[silence];[silence][concatenated_audio]concat=n=2:v=0:a=1[outa]"]
        with ([Lit ";aevalsrc=0:d="; Num (VideoProcessor.titleDuration_of titlePagePath)]
              ++ [Lit "[silence];[silence][concatenated_audio]concat=n=2:v=0:a=1[outa]"]).
      rewrite !app_assoc. apply ends_with_lit_not_a_number.
    - rewrite !app_assoc. apply ends_with_lit_not_a_number. }
  unfold VideoProcessor.titleDuration_of.
  destruct (images assets) as [|p ps] eqn:Himg; [congruence|].
  destruct (VideoProcessor.truthy_string titlePagePath) as [title|].
  - cbn [app]. rewrite looped_inputs_skip by (cbn; intros q; discriminate).
    etransitivity; [exact (looped_inputs_group 2 title _)|].
    rewrite looped_inputs_groups, (looped_inputs_none tail Htail), app_nil_r.
    reflexivity.
  - cbn [app]. rewrite looped_inputs_skip by (cbn; intros q; discriminate).
    rewrite looped_inputs_groups, (looped_inputs_none tail Htail), app_nil_r.
    reflexivity.
Qed.

(** C3 (as amended): for [N >= 1] images, the still images that the
    enhanced processor hands to the encoder are the [N] images in image
    order, each for [totalDuration / N + 1] seconds; those that the
    original processor hands over are the title page for 2 seconds, when
    one was created, followed by the [N] images in image order, each for
    [(totalDuration - titleDuration) / N + 0.5] seconds, the title
    duration being 2 with a title page and 0 without.  The quotients,
    sums and differences are those of doubles; no start or end time of a
    slot is computed anywhere. *)
Theorem C3_image_shares :
  forall (imagePaths : list string) (audioPath outputPath : string)
         (o : EnhancedVideoProcessor.Options)
         (assets : VideoAssets) (totalDuration : Q) (titlePagePath : option string),
    (1 <= List.length imagePaths)%nat ->
    images assets = imagePaths ->
    let N := of_nat (List.length imagePaths) in
    Inputs.looped_inputs
      (EnhancedVideoProcessor.advanced_args imagePaths audioPath outputPath o)
    = map (pair (fadd (fdiv (EnhancedVideoProcessor.totalDuration o) N) 1)) imagePaths
    /\ Inputs.looped_inputs
         (VideoProcessor.video_args assets outputPath totalDuration titlePagePath)
       = match VideoProcessor.truthy_string titlePagePath with
         | Some p =>
             (2, p) :: map (pair (fadd (fdiv (fsub totalDuration 2) N) (1 # 2)))
                           imagePaths
         | None => map (pair (fadd (fdiv (fsub totalDuration 0) N) (1 # 2))) imagePaths
         end.
Proof.
  intros imagePaths audioPath outputPath o assets totalDuration titlePagePath HN Himg N.
  assert (Hne : imagePaths <> []) by (destruct imagePaths; [simpl in HN; lia|discriminate]).
  split.
  - rewrite advanced_looped_inputs by exact Hne. reflexivity.
  - rewrite video_looped_inputs by (rewrite Himg; exact Hne).
    unfold VideoProcessor.durationPerImage_of, VideoProcessor.titleDuration_of.
    rewrite Himg. fold N.
    destruct (VideoProcessor.truthy_string titlePagePath); reflexivity.
Qed.

Lemma C3_image_shares_witness :
  Inputs.looped_inputs
    (EnhancedVideoProcessor.advanced_args Scenario.three_images
       "/app/temp/final_audio.wav" "/app/temp/out.mp4"
       (EnhancedVideoProcessor.mkOptions None None None 30))
  = [(11, "/app/temp/1.jpg"%string); (11, "/app/temp/2.jpg"%string);
     (11, "/app/temp/3.jpg"%string)]
  /\ Inputs.looped_inputs
       (VideoProcessor.video_args Scenario.some_assets "/app/temp/out.mp4" 30
          (Some "/app/temp/title_page.png"%string))
     = (2, "/app/temp/title_page.png"%string)
       :: map (pair (fadd (fdiv (fsub 30 2) (of_nat 3)) (1 # 2))) Scenario.three_images.
Proof.
  destruct (C3_image_shares Scenario.three_images "/app/temp/final_audio.wav"
              "/app/temp/out.mp4"
              (EnhancedVideoProcessor.mkOptions None None None 30)
              Scenario.some_assets 30 (Some "/app/temp/title_page.png"%string))
    as [Ha Hb]; [simpl; lia|reflexivity|].
  split; [rewrite Ha; vm_compute; reflexivity|exact Hb].
Defined.

(** C3 (as stated) fails.  In the original processor with a topic, three
    images and 30 seconds, the title page is fed first for 2 seconds, so
    that the first image does not start at 0, and an image gets
    [28 / 3] seconds rounded to a double, not 10, plus half a second.  In
    the enhanced processor the images are not fed for [D / N] seconds
    either but for one second more, and [N] times the share is not the
    total duration: with seven images and 29 seconds it is
    29.000000000000004. *)
Lemma C3_counterexample :
  spawns (trace (snd (VideoProcessor.createVideo Scenario.fine Scenario.some_assets
                        "/app/temp/out.mp4" 30 None (Some "Volcanoes"%string) None None
                        Scenario.with_media)))
  = [("ffmpeg"%string,
      VideoProcessor.title_args "Volcanoes" "/app/temp/title_page.png");
     ("ffmpeg"%string,
      VideoProcessor.video_args Scenario.some_assets "/app/temp/out.mp4" 30
                                (Some "/app/temp/title_page.png"%string))]
  /\ firstn 7 (VideoProcessor.video_args Scenario.some_assets "/app/temp/out.mp4" 30
                                         (Some "/app/temp/title_page.png"%string))
     = [lit "-y"; lit "-loop"; lit "1"; lit "-t"; [Num 2]; lit "-i";
        lit "/app/temp/title_page.png"]
  /\ VideoProcessor.durationPerImage_of 30 (Some "/app/temp/title_page.png"%string)
                                        Scenario.some_assets = to_double (28 # 3)
  /\ ~ VideoProcessor.durationPerImage_of 30 (Some "/app/temp/title_page.png"%string)
                                          Scenario.some_assets == 30 / 3
  /\ map fst (Inputs.looped_inputs
                (EnhancedVideoProcessor.advanced_args Scenario.three_images
                   "/app/temp/final_audio.wav" "/app/temp/out.mp4"
                   (EnhancedVideoProcessor.mkOptions None None None 30)))
     = [11; 11; 11]
  /\ 29 < fmul 7 (EnhancedVideoProcessor.durationPerImage_of
                    (EnhancedVideoProcessor.mkOptions None None None 29)
                    Inputs.seven_images).
Proof.
  split; [vm_compute; reflexivity|]. split; [reflexivity|].
  split; [vm_compute; reflexivity|].
  split; [intros H; vm_compute in H; discriminate H|].
  split; vm_compute; reflexivity.
Qed.

(** ** Running without an armed timer *)

Lemma await_free {A} (ms : N) (k : M A) (w : world) :
  deadline w = None -> await ms k w = k (with_clock (clock w + ms)%N w).
Proof. intros H. unfold await. now rewrite H. Qed.

Lemma spawn_free E tool args w :
  deadline w = None ->
  spawn E tool args w = (Ok (run E tool args), after_spawn E tool args w).
Proof. intros H. unfold spawn. now rewrite await_free. Qed.

Lemma spawns_app t1 t2 : spawns (t1 ++ t2) = spawns t1 ++ spawns t2.
Proof.
  induction t1 as [|e r IH]; simpl; [reflexivity|].
  destruct e; simpl; now rewrite IH.
Qed.

(** ** Files that stay or go *)

Lemma existsSync_remove_other p q f :
  String.eqb q p = false -> existsSync p (remove_file q f) = existsSync p f.
Proof.
  intros Hne. unfold existsSync, remove_file.
  induction f as [|x r IH]; simpl; [reflexivity|].
  destruct (String.eqb_spec q x) as [->|Hqx]; simpl.
  - rewrite IH. destruct (String.eqb_spec p x) as [->|_]; [|reflexivity].
    rewrite String.eqb_refl in Hne. discriminate Hne.
  - now rewrite IH.
Qed.

Lemma existsSync_remove_same p f : existsSync p (remove_file p f) = false.
Proof.
  unfold existsSync, remove_file.
  induction f as [|x r IH]; simpl; [reflexivity|].
  destruct (String.eqb_spec p x) as [->|Hpx]; simpl; [exact IH|].
  rewrite IH. destruct (String.eqb_spec p x); [contradiction|reflexivity].
Qed.

Lemma existsSync_remove_false p q f :
  existsSync p f = false -> existsSync p (remove_file q f) = false.
Proof.
  intros H. destruct (String.eqb q p) eqn:Hq.
  - apply String.eqb_eq in Hq. subst. apply existsSync_remove_same.
  - now rewrite existsSync_remove_other.
Qed.

Lemma existsSync_write p q f :
  existsSync p (write_file q f) = (String.eqb p q || existsSync p f)%bool.
Proof.
  unfold write_file. change (existsSync p (q :: remove_file q f))
    with (String.eqb p q || existsSync p (remove_file q f))%bool.
  destruct (String.eqb_spec p q) as [->|Hne]; [reflexivity|].
  simpl. apply existsSync_remove_other.
  destruct (String.eqb_spec q p); [congruence|reflexivity].
Qed.

Lemma existsSync_writes p l : forall f,
  existsSync p f = true -> existsSync p (write_files l f) = true.
Proof.
  induction l as [|q r IH]; intros f H; simpl; [exact H|].
  apply IH. rewrite existsSync_write, H. apply orb_true_r.
Qed.

(** ** Audio assembly *)

Lemma check_audio_passes E l w :
  Forall (fun p => existsSync p (fs w) = true /\ file_size E p <> 0%N) l ->
  EnhancedVideoProcessor.for_of (EnhancedVideoProcessor.check_audio E) l w = (Ok tt, w).
Proof.
  induction 1 as [|p r [Hp Hs] _ IH]; cbn [for_of]; [reflexivity|].
  unfold bind at 1. unfold check_audio at 1.
  unfold bind, fs_existsSync, fs_statSync_size. rewrite Hp. cbn.
  rewrite Hp. destruct (N.eqb_spec (file_size E p) 0) as [H0|_]; [contradiction|].
  cbn. exact IH.
Qed.

Lemma normalize_from_trace E outputDir :
  (forall args, exit_of (run E "ffmpeg" args) = Close 0) ->
  forall rest i acc w,
    deadline w = None ->
    exists w',
      BasicVideoProcessor.normalize_from E outputDir i rest acc w
      = (Ok (acc ++ map (BasicVideoProcessor.normalizedPath_of outputDir)
                        (seq i (List.length rest))), w')
      /\ deadline w' = None
      /\ spawns (trace w')
         = spawns (trace w)
           ++ map (fun ip => ("ffmpeg"%string,
                              BasicVideoProcessor.normalize_args
                                (snd ip)
                                (BasicVideoProcessor.normalizedPath_of outputDir (fst ip))))
                  (combine (seq i (List.length rest)) rest).
Proof.
  intros Hok. induction rest as [|p r IH]; intros i acc w Hd.
  - exists w. simpl. unfold ret. now rewrite !app_nil_r.
  - cbn [BasicVideoProcessor.normalize_from].
    unfold bind at 1. unfold BasicVideoProcessor.normalizeAudio. unfold bind at 1.
    rewrite (spawn_free E _ _ w Hd). rewrite Hok. cbn [Z.eqb]. unfold ret at 1.
    set (w1 := after_spawn E _ _ w).
    assert (Hd1 : deadline w1 = None) by exact Hd.
    destruct (IH (S i) (acc ++ [BasicVideoProcessor.normalizedPath_of outputDir i]) w1 Hd1)
      as [w' [Hrun [Hd' Htr]]].
    exists w'. rewrite Hrun. split; [|split; [exact Hd'|]].
    + cbn [List.length seq map]. now rewrite <- app_assoc.
    + rewrite Htr. unfold w1, after_spawn. cbn [trace with_fs with_clock with_event].
      rewrite spawns_app. cbn [List.length seq combine map spawns fst snd].
      now rewrite <- app_assoc.
Qed.

Lemma unlink_if_present_quiet p w :
  exists w',
    BasicVideoProcessor.unlink_if_present p w = (Ok tt, w')
    /\ spawns (trace w') = spawns (trace w).
Proof.
  unfold BasicVideoProcessor.unlink_if_present, bind, fs_existsSync.
  destruct (existsSync p (fs w)) eqn:Hp.
  - unfold fs_unlinkSync. rewrite Hp. eexists. split; [reflexivity|].
    cbn [trace with_event with_fs]. rewrite spawns_app. simpl. apply app_nil_r.
  - exists w. split; reflexivity.
Qed.

Lemma unlink_all_quiet l : forall w,
  exists w',
    EnhancedVideoProcessor.for_of BasicVideoProcessor.unlink_if_present l w = (Ok tt, w')
    /\ spawns (trace w') = spawns (trace w).
Proof.
  induction l as [|p r IH]; intros w; cbn [for_of].
  - exists w. split; reflexivity.
  - unfold bind at 1.
    destruct (unlink_if_present_quiet p w) as [w1 [H1 T1]]. rewrite H1.
    destruct (IH w1) as [w' [H2 T2]]. exists w'. rewrite H2.
    split; [reflexivity|]. now rewrite T2.
Qed.

(** C6 (as amended): for two or more clips that exist and are not empty,
    and an FFmpeg that succeeds, the enhanced processor does not
    normalise the clips one by one: it writes a list file naming the
    clips in index order, runs one demuxer-level concatenation that
    re-encodes to 16-bit PCM at 44.1 kHz (with the volume filter, the
    channel count untouched) into the given path, and removes the list
    file.  The basic processor normalises each clip to mono 16-bit PCM at
    44.1 kHz into [norm_i.wav], then concatenates the normalised clips in
    index order with the [concat] filter, re-encoding, and returns the
    path of [processed_audio.wav]. *)
Theorem C6_audio_assembly :
  forall (E : env) (audioSegments : list string) (outputPath outputDir : string)
         (w : world),
    (2 <= List.length audioSegments)%nat ->
    deadline w = None ->
    (forall args, exit_of (run E "ffmpeg" args) = Close 0) ->
    Forall (fun p => existsSync p (fs w) = true /\ file_size E p <> 0%N) audioSegments ->
    let listFilePath := path_join (dirname outputPath) "audio_list.txt" in
    let n := List.length audioSegments in
    (exists w',
        EnhancedVideoProcessor.processAudio E audioSegments outputPath w = (Ok tt, w')
        /\ trace w'
           = trace w
             ++ [Wrote listFilePath
                       (Some (join EnhancedVideoProcessor.NL
                                   (map EnhancedVideoProcessor.list_line audioSegments)));
                 Spawned "ffmpeg"
                         (EnhancedVideoProcessor.multi_audio_args listFilePath outputPath);
                 Unlinked listFilePath])
    /\ (exists w',
           BasicVideoProcessor.processAudio E audioSegments outputDir w
           = (Ok (path_join outputDir "processed_audio.wav"), w')
           /\ spawns (trace w')
              = spawns (trace w)
                ++ map (fun ip => ("ffmpeg"%string,
                                   BasicVideoProcessor.normalize_args
                                     (snd ip)
                                     (BasicVideoProcessor.normalizedPath_of outputDir (fst ip))))
                       (combine (seq 0 n) audioSegments)
                ++ [("ffmpeg"%string,
                     BasicVideoProcessor.concatenate_args
                       (map (BasicVideoProcessor.normalizedPath_of outputDir) (seq 0 n))
                       (path_join outputDir "processed_audio.wav"))]).
Proof.
  intros E audioSegments outputPath outputDir w Hn Hd Hok Hfiles listFilePath n.
  split.
  - unfold EnhancedVideoProcessor.processAudio. unfold bind at 1.
    rewrite (check_audio_passes E audioSegments w Hfiles).
    destruct (Nat.eqb_spec (List.length audioSegments) 1) as [H1|_]; [lia|].
    fold listFilePath. unfold bind at 1. unfold fs_writeFileSync at 1.
    unfold bind at 1.
    set (w1 := with_event (Wrote listFilePath _) (with_fs (write_file listFilePath) w)).
    assert (Hd1 : deadline w1 = None) by exact Hd.
    rewrite (spawn_free E _ _ w1 Hd1). rewrite Hok.
    set (w2 := after_spawn E _ _ w1).
    assert (Hex : existsSync listFilePath (fs w2) = true).
    { unfold w2, after_spawn. cbn [fs with_fs with_clock with_event].
      apply existsSync_writes. unfold w1. cbn [fs with_fs with_event].
      rewrite existsSync_write, String.eqb_refl. reflexivity. }
    unfold bind, unlink_quietly, try_catch, fs_unlinkSync. rewrite Hex.
    cbn [Z.eqb]. unfold ret. eexists. split; [reflexivity|].
    unfold w2, after_spawn, w1. cbn [trace with_fs with_clock with_event].
    now rewrite <- !app_assoc.
  - unfold BasicVideoProcessor.processAudio. unfold bind at 1.
    destruct (normalize_from_trace E outputDir Hok audioSegments 0%nat [] w Hd)
      as [w1 [Hrun [Hd1 Htr1]]].
    rewrite Hrun. cbn [app]. fold n.
    unfold bind at 1. unfold BasicVideoProcessor.concatenateAudio. unfold bind at 1.
    rewrite (spawn_free E _ _ w1 Hd1). rewrite Hok. cbn [Z.eqb]. unfold ret at 1.
    set (w2 := after_spawn E _ _ w1).
    destruct (unlink_all_quiet
                (map (BasicVideoProcessor.normalizedPath_of outputDir) (seq 0 n)) w2)
      as [w3 [Hrun3 Htr3]].
    unfold bind. rewrite Hrun3. unfold ret. eexists. split; [reflexivity|].
    rewrite Htr3. unfold w2, after_spawn. cbn [trace with_fs with_clock with_event].
    rewrite spawns_app, Htr1. cbn [spawns]. now rewrite <- app_assoc.
Qed.

Lemma C6_audio_assembly_witness :
  exists w',
    EnhancedVideoProcessor.processAudio Scenario.fine Scenario.two_clips
                                        "/app/temp/final_audio.wav" Scenario.with_media
    = (Ok tt, w')
    /\ trace w'
       = trace Scenario.with_media
         ++ [Wrote "/app/temp/audio_list.txt"
                   (Some (join EnhancedVideoProcessor.NL
                               (map EnhancedVideoProcessor.list_line Scenario.two_clips)));
             Spawned "ffmpeg"
                     (EnhancedVideoProcessor.multi_audio_args
                        "/app/temp/audio_list.txt" "/app/temp/final_audio.wav");
             Unlinked "/app/temp/audio_list.txt"].
Proof.
  refine (proj1 (C6_audio_assembly Scenario.fine Scenario.two_clips
                   "/app/temp/final_audio.wav" "/app/temp" Scenario.with_media
                   _ _ _ _)).
  - simpl. lia.
  - reflexivity.
  - intros args. reflexivity.
  - repeat constructor; discriminate.
Defined.

(** C6 (as stated) fails in both processors.  On two clips the enhanced
    processor spawns a single FFmpeg: no clip is normalised beforehand
    and no channel count is requested.  The basic processor normalises
    each clip but then concatenates with the [concat] filter of a filter
    graph, not with the concat demuxer. *)
Lemma C6_counterexample :
  spawns (trace (snd (EnhancedVideoProcessor.processAudio
                        Scenario.fine Scenario.two_clips "/app/temp/final_audio.wav"
                        Scenario.with_media)))
  = [("ffmpeg"%string,
      map lit ["-y"; "-f"; "concat"; "-safe"; "0"; "-i"; "/app/temp/audio_list.txt";
               "-c:a"; "pcm_s16le"; "-ar"; "44100"; "-af"; "volume=0.8";
               "/app/temp/final_audio.wav"]%string)]
  /\ spawns (trace (snd (BasicVideoProcessor.processAudio
                           Scenario.fine Scenario.two_clips "/app/temp"
                           Scenario.with_media)))
     = [("ffmpeg"%string,
         map lit ["-y"; "-i"; "/app/temp/a.mp3"; "-acodec"; "pcm_s16le"; "-ar"; "44100";
                  "-ac"; "1"; "/app/temp/norm_0.wav"]%string);
        ("ffmpeg"%string,
         map lit ["-y"; "-i"; "/app/temp/b.mp3"; "-acodec"; "pcm_s16le"; "-ar"; "44100";
                  "-ac"; "1"; "/app/temp/norm_1.wav"]%string);
        ("ffmpeg"%string,
         [lit "-y"; lit "-i"; lit "/app/temp/norm_0.wav";
          lit "-i"; lit "/app/temp/norm_1.wav"; lit "-filter_complex";
          [Lit "concat=n="; Lit "2"; Lit ":v=0:a=1"];
          lit "-acodec"; lit "pcm_s16le"; lit "-ar"; lit "44100";
          lit "/app/temp/processed_audio.wav"])].
Proof. split; vm_compute; reflexivity. Qed.

(** ** The Revideo attempt and its fallback *)

Lemma render_fails_without_chrome E o w :
  has_chrome E = false ->
  exists w1, Revideo.renderVideoWithRevideo E o w = (Throw Revideo.missing_dependencies, w1).
Proof.
  intros Hc. unfold Revideo.renderVideoWithRevideo, Revideo.renderWithProgrammaticAPI,
    Revideo.checkSystemDependencies.
  unfold try_catch, bind, fs_existsSync, fs_mkdirSync, fs_writeFileSync, ret, throw.
  rewrite Hc. destruct (existsSync _ (fs w)); cbn; eexists; reflexivity.
Qed.

Lemma attempt_fails_without_chrome E assets outputPath D topic font color w :
  has_chrome E = false -> deadline w = None ->
  exists e w1,
    Revideo.revideo_attempt E assets outputPath D topic font color w = (Throw e, w1).
Proof.
  intros Hc Hd. unfold Revideo.revideo_attempt, Revideo.concatenateAudioSegments.
  unfold bind at 1. unfold bind at 1. unfold fs_writeFileSync at 1. unfold bind at 1.
  set (w1 := with_event _ (with_fs _ w)).
  assert (Hd1 : deadline w1 = None) by exact Hd.
  rewrite (spawn_free E _ _ w1 Hd1).
  destruct (exit_of (run E "ffmpeg" _)) as [code|message].
  - unfold bind at 1.
    destruct (unlink_if_present_quiet
                (path_join (dirname outputPath) "audio_files.txt")
                (after_spawn E "ffmpeg"
                   (Revideo.concat_args (path_join (dirname outputPath) "audio_files.txt")
                      (path_join (dirname outputPath) "final_audio.wav")) w1))
      as [w2 [H2 _]].
    rewrite H2. destruct (code =? 0)%Z.
    + unfold ret at 1.
      destruct (render_fails_without_chrome E
                  (Revideo.mkRenderOptions
                     match scriptSegments assets with Some l => l | None => [] end
                     (images assets) (path_join (dirname outputPath) "final_audio.wav")
                     outputPath (or_default color "yellow") (or_default font "Arial")
                     topic D) w2 Hc) as [w3 H3].
      rewrite H3. eexists. eexists. reflexivity.
    + eexists. eexists. reflexivity.
  - eexists. eexists. reflexivity.
Qed.

(** C8 (as amended): when the Revideo attempt raises -- which it always
    does when Chrome is not installed -- [createVideoWithRevideo] does
    not pass the error on but calls the FFmpeg processor with the same
    assets, output path, duration, subtitles, topic, font and colour; the
    outcome of the job is the outcome of that fallback: the job completes
    when the fallback succeeds and fails with the fallback's error when
    the fallback fails. *)
Theorem C8_fallback_decides :
  forall (E : env) (assets : VideoAssets) (outputPath : string) (D : Q)
         (subtitleData : Revideo.SubtitleData) (topic : string)
         (font color : option string) (w : world),
    (has_chrome E = false /\ deadline w = None)
    \/ (exists e w1,
           Revideo.revideo_attempt E assets outputPath D topic font color w
           = (Throw e, w1)) ->
    exists e w1,
      Revideo.revideo_attempt E assets outputPath D topic font color w = (Throw e, w1)
      /\ Revideo.createVideoWithRevideo E assets outputPath D subtitleData topic font color w
         = Revideo.ffmpeg_fallback E assets outputPath D subtitleData topic font color w1
      /\ (forall out w2,
             EnhancedVideoProcessor.createVideo E assets outputPath D
               (Some (Revideo.as_subtitles subtitleData)) (Some topic) font color w1
             = (Ok out, w2) ->
             Revideo.createVideoWithRevideo E assets outputPath D subtitleData topic
                                            font color w
             = (Ok tt, w2))
      /\ (forall e2 w2,
             EnhancedVideoProcessor.createVideo E assets outputPath D
               (Some (Revideo.as_subtitles subtitleData)) (Some topic) font color w1
             = (Throw e2, w2) ->
             Revideo.createVideoWithRevideo E assets outputPath D subtitleData topic
                                            font color w
             = (Throw e2, w2)).
Proof.
  intros E assets outputPath D subtitleData topic font color w H.
  assert (Hfail : exists e w1,
             Revideo.revideo_attempt E assets outputPath D topic font color w
             = (Throw e, w1)).
  { destruct H as [[Hc Hd]|H]; [now apply attempt_fails_without_chrome|exact H]. }
  destruct Hfail as [e [w1 Hrun]]. exists e, w1.
  assert (Hcatch :
            Revideo.createVideoWithRevideo E assets outputPath D subtitleData topic
                                           font color w
            = Revideo.ffmpeg_fallback E assets outputPath D subtitleData topic
                                      font color w1).
  { unfold Revideo.createVideoWithRevideo, try_catch. now rewrite Hrun. }
  split; [exact Hrun|]. split; [exact Hcatch|]. split.
  - intros out w2 Hok. rewrite Hcatch. unfold Revideo.ffmpeg_fallback, bind.
    now rewrite Hok.
  - intros e2 w2 Herr. rewrite Hcatch. unfold Revideo.ffmpeg_fallback, bind.
    now rewrite Herr.
Qed.

Lemma C8_fallback_decides_witness :
  fst (Revideo.createVideoWithRevideo Scenario.no_chrome Scenario.some_assets
         "/app/temp/out.mp4" 30 (Revideo.mkSubtitleData [] true) "Volcanoes"
         None None Scenario.with_media)
  = Ok tt.
Proof.
  destruct (C8_fallback_decides Scenario.no_chrome Scenario.some_assets
              "/app/temp/out.mp4" 30 (Revideo.mkSubtitleData [] true) "Volcanoes"
              None None Scenario.with_media (or_introl (conj eq_refl eq_refl)))
    as [e [w1 [Hrun [Hcatch _]]]].
  rewrite Hcatch.
  assert (Hw1 : w1 = snd (Revideo.revideo_attempt Scenario.no_chrome Scenario.some_assets
                            "/app/temp/out.mp4" 30 "Volcanoes" None None
                            Scenario.with_media))
    by now rewrite Hrun.
  rewrite Hw1. vm_compute. reflexivity.
Defined.

(** C8 (as stated) fails when the fallback fails too: without Chrome and
    with an FFmpeg that exits with 1, the job is rejected with the
    fallback's error. *)
Lemma C8_counterexample :
  fst (Revideo.createVideoWithRevideo Scenario.no_chrome_broken_ffmpeg
         Scenario.some_assets "/app/temp/out.mp4" 30
         (Revideo.mkSubtitleData [] true) "Volcanoes" None None Scenario.with_media)
  = Throw "Multi audio processing failed: 1".
Proof. vm_compute. reflexivity. Qed.

(** ** The video rows survive every step *)

Lemma keeps_ret {A} (a : A) : keeps_rows (ret a).
Proof. intros w r w' H. injection H as _ <-. reflexivity. Qed.

Lemma keeps_throw {A} (e : string) : keeps_rows (@throw A e).
Proof. intros w r w' H. injection H as _ <-. reflexivity. Qed.

Lemma keeps_bind {A B} (m : M A) (k : A -> M B) :
  keeps_rows m -> (forall a, keeps_rows (k a)) -> keeps_rows (bind m k).
Proof.
  intros Hm Hk w r w' H. unfold bind in H.
  destruct (m w) as [[a|e|] w1] eqn:Hmw.
  - rewrite (Hk a w1 r w' H). exact (Hm w _ w1 Hmw).
  - injection H as _ <-. exact (Hm w _ w1 Hmw).
  - injection H as _ <-. exact (Hm w _ w1 Hmw).
Qed.

Lemma keeps_try {A} (m : M A) (h : string -> M A) :
  keeps_rows m -> (forall e, keeps_rows (h e)) -> keeps_rows (try_catch m h).
Proof.
  intros Hm Hh w r w' H. unfold try_catch in H.
  destruct (m w) as [[a|e|] w1] eqn:Hmw.
  - injection H as _ <-. exact (Hm w _ w1 Hmw).
  - rewrite (Hh e w1 r w' H). exact (Hm w _ w1 Hmw).
  - injection H as _ <-. exact (Hm w _ w1 Hmw).
Qed.

Lemma keeps_await {A} (ms : N) (k : M A) : keeps_rows k -> keeps_rows (await ms k).
Proof.
  intros Hk w r w' H. unfold await in H.
  destruct (deadline w) as [d|].
  - destruct (d <? clock w + ms)%N.
    + injection H as _ <-. reflexivity.
    + exact (Hk _ r w' H).
  - exact (Hk _ r w' H).
Qed.

Lemma keeps_race {A} (ms : N) (message : string) (m : M A) :
  keeps_rows m -> keeps_rows (race_timeout ms message m).
Proof.
  intros Hm w r w' H. unfold race_timeout in H.
  destruct (m (with_deadline _ w)) as [[a|e|] w1] eqn:Hmw;
    injection H as _ <-; exact (Hm _ _ _ Hmw).
Qed.

(** A step that only touches the files, the trace or [tempFiles]. *)
Lemma keeps_local {A} (m : M A) :
  (forall w, videos (snd (m w)) = videos w) -> keeps_rows m.
Proof. intros Hm w r w' H. specialize (Hm w). rewrite H in Hm. simpl in Hm. now rewrite Hm. Qed.

Lemma keeps_spawn E tool args : keeps_rows (spawn E tool args).
Proof.
  intros w r w' H. unfold spawn in H.
  assert (K : keeps_rows (fun w0 : world =>
                            (Ok (run E tool args),
                             with_fs (write_files (written (run E tool args))) w0)))
    by (apply keeps_local; reflexivity).
  exact (keeps_await _ _ K _ _ _ H).
Qed.

Lemma keeps_call {A} (r : reply A) : keeps_rows (call r).
Proof.
  unfold call. apply keeps_await. apply keeps_local. intros w.
  destruct (value r); reflexivity.
Qed.

Lemma keeps_updateVideo videoId change : keeps_rows (Routes.updateVideo videoId change).
Proof.
  intros w r w' H. injection H as _ <-. cbn [videos with_videos].
  rewrite map_map. apply map_ext. intros [k v]. simpl.
  destruct (String.eqb videoId k); reflexivity.
Qed.

Lemma keeps_for_of {A} (body : A -> M unit) l :
  (forall x, keeps_rows (body x)) -> keeps_rows (EnhancedVideoProcessor.for_of body l).
Proof.
  intros Hb. induction l as [|x r IH]; cbn [for_of].
  - apply keeps_ret.
  - apply keeps_bind; [apply Hb|intros _; exact IH].
Qed.

(** The routine steps of a proof that rows are kept. *)
Ltac keeps_step :=
  first
    [ apply keeps_ret
    | apply keeps_throw
    | apply keeps_spawn
    | apply keeps_call
    | apply keeps_updateVideo
    | apply keeps_bind; [|intros ?]
    | apply keeps_try; [|intros ?]
    | apply keeps_for_of; intros ?
    | (apply keeps_local; intros ?;
       cbv [fs_existsSync fs_unlinkSync fs_unlink fs_writeFileSync fs_mkdirSync
            fs_rmSync fs_createWriteStream fs_statSync_size
            Routes.push_tempFile Routes.read_tempFiles Routes.fresh_tempFiles
            Routes.getVideo];
       repeat match goal with
              | |- context [if ?b then _ else _] => destruct b
              end;
       reflexivity)
    | match goal with
      | |- keeps_rows (match ?x with _ => _ end) => destruct x
      | |- keeps_rows (if ?b then _ else _) => destruct b
      | |- keeps_rows (let _ := _ in _) => cbv zeta
      end ].

Ltac keeps := repeat keeps_step.

Lemma keeps_processAudio E l out : keeps_rows (EnhancedVideoProcessor.processAudio E l out).
Proof. unfold EnhancedVideoProcessor.processAudio, check_audio, unlink_quietly. keeps. Qed.

Lemma keeps_createAdvancedVideo E imgs a out o :
  keeps_rows (EnhancedVideoProcessor.createAdvancedVideo E imgs a out o).
Proof. unfold EnhancedVideoProcessor.createAdvancedVideo, check_image. keeps. Qed.

Lemma keeps_createVideo E assets out D sub t f c :
  keeps_rows (EnhancedVideoProcessor.createVideo E assets out D sub t f c).
Proof.
  unfold EnhancedVideoProcessor.createVideo.
  destruct (_ || _)%bool; [apply keeps_throw|].
  apply keeps_try; [|intros ?; apply keeps_throw].
  cbv zeta. apply keeps_bind; [apply keeps_processAudio|intros _].
  apply keeps_bind; [apply keeps_createAdvancedVideo|intros _]. apply keeps_ret.
Qed.

Lemma keeps_downloadImage E url out : keeps_rows (EnhancedVideoProcessor.downloadImage E url out).
Proof. unfold EnhancedVideoProcessor.downloadImage. keeps. Qed.

Lemma keeps_getAudioDuration E p : keeps_rows (Routes.getAudioDuration E p).
Proof. unfold Routes.getAudioDuration. keeps. Qed.

Lemma keeps_timing_from E paths : forall rest i t acc,
  keeps_rows (Routes.timing_from E paths i rest t acc).
Proof.
  induction rest as [|seg r IH]; intros i t acc; cbn [Routes.timing_from].
  - apply keeps_ret.
  - apply keeps_bind; [|intros ?; apply IH].
    unfold Routes.duration_for. apply keeps_try; [apply keeps_getAudioDuration|].
    intros _. apply keeps_ret.
Qed.

Lemma keeps_images_from E video tempDir videoId : forall rest i acc,
  keeps_rows (Routes.images_from E video tempDir videoId i rest acc).
Proof.
  induction rest as [|seg r IH]; intros i acc; cbn [Routes.images_from].
  - apply keeps_ret.
  - cbv zeta. apply keeps_bind.
    + destruct (String.eqb _ _); apply keeps_call.
    + intros url. apply keeps_bind; [apply keeps_downloadImage|intros _].
      apply keeps_bind; [keeps|intros _]. apply IH.
Qed.

Lemma keeps_audio_from E video tempDir videoId : forall rest i acc,
  keeps_rows (Routes.audio_from E video tempDir videoId i rest acc).
Proof.
  induction rest as [|seg r IH]; intros i acc; cbn [Routes.audio_from].
  - apply keeps_ret.
  - cbv zeta. apply keeps_bind; [apply keeps_call|intros _].
    apply keeps_bind; [keeps|intros _]. apply IH.
Qed.

Lemma keeps_generationPromise E video tempDir videoId :
  keeps_rows (Routes.generationPromise E video tempDir videoId).
Proof.
  unfold Routes.generationPromise.
  apply keeps_bind.
  { unfold Routes.script_step. cbv zeta. apply keeps_try; [apply keeps_call|].
    intros e. destruct (includes _ _); [apply keeps_ret|apply keeps_throw]. }
  intros segs. apply keeps_bind; [apply keeps_updateVideo|intros _].
  apply keeps_bind; [apply keeps_images_from|intros imagePaths].
  apply keeps_bind; [apply keeps_audio_from|intros audioPaths].
  cbv zeta. apply keeps_bind; [apply keeps_createVideo|intros _].
  apply keeps_bind; [|intros ?; apply keeps_updateVideo].
  unfold Routes.subtitle_step. destruct (_ && _)%bool; [|apply keeps_ret].
  apply keeps_bind; [apply keeps_timing_from|intros ?; apply keeps_ret].
Qed.

(** ** The failure path of the generation routine *)

Lemma lookup_keys videoId : forall l l' v,
  Routes.lookup videoId l = Some v -> map fst l' = map fst l ->
  exists v', Routes.lookup videoId l' = Some v'.
Proof.
  induction l as [|[k x] r IH]; intros l' v H Hk; [discriminate H|].
  destruct l' as [|[k' x'] r']; [discriminate Hk|].
  simpl in Hk. injection Hk as -> Hr. simpl in *.
  destruct (String.eqb videoId k); [now exists x'|]. exact (IH r' v H Hr).
Qed.

Lemma lookup_updated videoId change : forall l,
  Routes.lookup videoId
    (map (fun kv : string * Schema.Video =>
            if String.eqb videoId (fst kv) then (fst kv, change (snd kv)) else kv) l)
  = option_map change (Routes.lookup videoId l).
Proof.
  induction l as [|[k x] r IH]; [reflexivity|]. simpl.
  destruct (String.eqb videoId k) eqn:Hk; simpl; rewrite Hk; [reflexivity|exact IH].
Qed.

Lemma ensureTempDirectory_runs E w :
  VideoProcessor.ensureTempDirectory E w
  = (Ok (tempDir_of E), snd (VideoProcessor.ensureTempDirectory E w))
  /\ videos (snd (VideoProcessor.ensureTempDirectory E w)) = videos w
  /\ deadline (snd (VideoProcessor.ensureTempDirectory E w)) = deadline w.
Proof.
  unfold VideoProcessor.ensureTempDirectory, tempDir_of, bind, fs_existsSync,
    fs_mkdirSync, ret.
  destruct (existsSync _ (fs w)); cbn; repeat split.
Qed.

Lemma cleanupTempFiles_removes l : forall w,
  exists w',
    VideoProcessor.cleanupTempFiles l w = (Ok tt, w')
    /\ videos w' = videos w
    /\ tempFiles w' = tempFiles w
    /\ (forall p, existsSync p (fs w) = false -> existsSync p (fs w') = false)
    /\ (forall p, In p l -> existsSync p (fs w') = false).
Proof.
  induction l as [|q r IH]; intros w; cbn [VideoProcessor.cleanupTempFiles].
  - exists w. repeat split; auto. intros p [].
  - unfold bind at 1. unfold fs_unlink at 1.
    assert (Hstep : exists w1,
               (if existsSync q (fs w)
                then (Ok tt, with_event (Unlinked q) (with_fs (remove_file q) w))
                else (Ok tt, w)) = (Ok tt, w1)
               /\ videos w1 = videos w /\ tempFiles w1 = tempFiles w
               /\ (forall p, existsSync p (fs w) = false -> existsSync p (fs w1) = false)
               /\ existsSync q (fs w1) = false).
    { destruct (existsSync q (fs w)) eqn:Hq; eexists; (split; [reflexivity|]);
        cbn [videos tempFiles fs with_event with_fs]; repeat split; auto.
      - intros p Hp. now apply existsSync_remove_false.
      - apply existsSync_remove_same. }
    destruct Hstep as [w1 [H1 [V1 [T1 [Keep1 Gone1]]]]]. rewrite H1.
    destruct (IH w1) as [w' [H2 [V2 [T2 [Keep2 Gone2]]]]].
    exists w'. rewrite H2. repeat split; try congruence; auto.
    intros p [<-|Hp]; auto.
Qed.

Lemma on_failure_runs videoId message w :
  exists w',
    Routes.on_failure videoId message w = (Throw message, w')
    /\ Routes.lookup videoId (videos w')
       = option_map (Routes.set_failed message) (Routes.lookup videoId (videos w))
    /\ tempFiles w' = tempFiles w
    /\ (forall p, In p (tempFiles w) -> existsSync p (fs w') = false).
Proof.
  unfold Routes.on_failure. unfold bind at 1. unfold Routes.updateVideo at 1.
  set (w1 := with_videos _ w).
  unfold bind at 1. unfold Routes.read_tempFiles at 1.
  destruct (cleanupTempFiles_removes (tempFiles w1) w1) as [w' [H [V [T [_ Gone]]]]].
  unfold bind. rewrite H. exists w'. split; [reflexivity|].
  split; [|split; [rewrite T; reflexivity|exact Gone]].
  rewrite V. unfold w1. cbn [videos with_videos]. apply lookup_updated.
Qed.

(** The routine, once the video row is found. *)
Lemma generateVideoContent_found E videoId video w :
  Routes.lookup videoId (videos w) = Some video ->
  Routes.generateVideoContent E videoId w
  = match Routes.generationPromise E video (tempDir_of E) videoId (at_start E w) with
    | (Ok a, w2) => (Ok a, with_deadline (deadline w) w2)
    | (Throw e, w2) => Routes.on_failure videoId e (with_deadline (deadline w) w2)
    | (Expired _, w2) =>
        Routes.on_failure videoId Routes.timeout_message (with_deadline (deadline w) w2)
    end.
Proof.
  intros Hfound. unfold Routes.generateVideoContent.
  unfold bind at 1. unfold Routes.getVideo at 1. rewrite Hfound.
  destruct (ensureTempDirectory_runs E w) as [Hrun [_ Hd]].
  unfold bind at 1. rewrite Hrun. unfold bind at 1. unfold Routes.fresh_tempFiles at 1.
  unfold try_catch, race_timeout.
  change (with_deadline _ (with_tempFiles _ (snd (VideoProcessor.ensureTempDirectory E w))))
    with (at_start E w).
  cbn [deadline with_tempFiles]. rewrite Hd.
  destruct (Routes.generationPromise E video (tempDir_of E) videoId (at_start E w))
    as [[a|e|] w2]; reflexivity.
Qed.

Lemma at_start_videos E w : videos (at_start E w) = videos w.
Proof.
  unfold at_start. cbn [videos with_deadline with_tempFiles].
  apply (ensureTempDirectory_runs E w).
Qed.






(** ** Cleanup *)







(* ================================================================== *)
(** * Part III: further properties of the processors *)
(* ================================================================== *)

(** ** The audio step of the enhanced processor *)

Lemma for_of_stops {A} (body : A -> M unit) (w : world) (e : string) :
  forall pre p post,
    Forall (fun x => body x w = (Ok tt, w)) pre ->
    body p w = (Throw e, w) ->
    EnhancedVideoProcessor.for_of body (pre ++ p :: post) w = (Throw e, w).
Proof.
  induction pre as [|x r IH]; intros p post Hpre Hp; cbn [app for_of].
  - unfold bind. now rewrite Hp.
  - inversion Hpre as [|? ? Hx Hr]; subst. unfold bind at 1. rewrite Hx.
    now apply IH.
Qed.

Lemma check_audio_ok E p w :
  existsSync p (fs w) = true -> file_size E p <> 0%N ->
  EnhancedVideoProcessor.check_audio E p w = (Ok tt, w).
Proof.
  intros Hp Hs. unfold check_audio, bind, fs_existsSync, fs_statSync_size.
  rewrite Hp. cbn. rewrite Hp.
  destruct (N.eqb_spec (file_size E p) 0); [contradiction|reflexivity].
Qed.

(** X1: a single clip that exists and is not empty is handled by one
    FFmpeg call that re-encodes it into the output path; no list file is
    written and nothing is concatenated.  The step succeeds exactly when
    that call exits with 0; another exit code [c] gives the error [Single
    audio processing failed: c], a process that cannot be started gives
    its own error. *)
Theorem X1_single_clip_short_circuit :
  forall (E : env) (p outputPath : string) (w : world),
    deadline w = None ->
    existsSync p (fs w) = true ->
    file_size E p <> 0%N ->
    trace (snd (EnhancedVideoProcessor.processAudio E [p] outputPath w))
    = trace w ++ [Spawned "ffmpeg" (EnhancedVideoProcessor.single_audio_args p outputPath)]
    /\ fst (EnhancedVideoProcessor.processAudio E [p] outputPath w)
       = match exit_of (run E "ffmpeg"
                            (EnhancedVideoProcessor.single_audio_args p outputPath)) with
         | Close code =>
             if (code =? 0)%Z then Ok tt
             else Throw ("Single audio processing failed: " ++ string_of_Z code)%string
         | ProcError message => Throw message
         end.
Proof.
  intros E p outputPath w Hd Hp Hs.
  assert (H : EnhancedVideoProcessor.processAudio E [p] outputPath w
              = (match exit_of (run E "ffmpeg"
                                  (EnhancedVideoProcessor.single_audio_args p outputPath)) with
                 | Close code =>
                     if (code =? 0)%Z then Ok tt
                     else Throw ("Single audio processing failed: "
                                 ++ string_of_Z code)%string
                 | ProcError message => Throw message
                 end,
                 after_spawn E "ffmpeg"
                   (EnhancedVideoProcessor.single_audio_args p outputPath) w)).
  { unfold EnhancedVideoProcessor.processAudio. cbn [for_of].
    unfold bind at 1. unfold bind at 1. rewrite (check_audio_ok E p w Hp Hs).
    unfold ret at 1. cbn [List.length Nat.eqb hd].
    unfold bind. rewrite (spawn_free E _ _ w Hd).
    destruct (exit_of (run E "ffmpeg" _)) as [code|message]; [|reflexivity].
    destruct (code =? 0)%Z; reflexivity. }
  rewrite H. split; reflexivity.
Qed.

Lemma X1_single_clip_short_circuit_witness :
  trace (snd (EnhancedVideoProcessor.processAudio Scenario.fine ["/app/temp/a.mp3"%string]
                "/app/temp/final_audio.wav" Cases.one_clip))
  = [Spawned "ffmpeg" (EnhancedVideoProcessor.single_audio_args
                         "/app/temp/a.mp3" "/app/temp/final_audio.wav")]
  /\ fst (EnhancedVideoProcessor.processAudio Scenario.fine ["/app/temp/a.mp3"%string]
            "/app/temp/final_audio.wav" Cases.one_clip)
     = Ok tt.
Proof.
  refine (X1_single_clip_short_circuit Scenario.fine "/app/temp/a.mp3"
            "/app/temp/final_audio.wav" Cases.one_clip eq_refl eq_refl _).
  discriminate.
Defined.

(** X2: the clips are checked in order before anything else happens.
    When every clip before [p] exists and is not empty and [p] is missing
    or empty, the step is rejected with [Audio file not found: p],
    respectively [Audio file is empty: p], and the world is untouched: no
    list file, no process. *)
Theorem X2_first_bad_clip_rejected :
  forall (E : env) (pre : list string) (p : string) (post : list string)
         (outputPath : string) (w : world),
    Forall (fun q => existsSync q (fs w) = true /\ file_size E q <> 0%N) pre ->
    existsSync p (fs w) = false \/ file_size E p = 0%N ->
    EnhancedVideoProcessor.processAudio E (pre ++ p :: post) outputPath w
    = (Throw (if existsSync p (fs w)
              then ("Audio file is empty: " ++ p)%string
              else ("Audio file not found: " ++ p)%string), w).
Proof.
  intros E pre p post outputPath w Hpre Hbad.
  unfold EnhancedVideoProcessor.processAudio. unfold bind at 1.
  rewrite (for_of_stops (EnhancedVideoProcessor.check_audio E) w
             (if existsSync p (fs w)
              then ("Audio file is empty: " ++ p)%string
              else ("Audio file not found: " ++ p)%string) pre p post);
    [reflexivity| |].
  - apply Forall_forall. intros q Hq. rewrite Forall_forall in Hpre.
    destruct (Hpre q Hq) as [H1 H2]. now apply check_audio_ok.
  - unfold check_audio, bind, fs_existsSync, fs_statSync_size.
    destruct (existsSync p (fs w)) eqn:Hp; cbn; [|reflexivity].
    rewrite Hp. destruct Hbad as [Hbad|Hbad]; [discriminate Hbad|].
    rewrite Hbad. reflexivity.
Qed.

Lemma X2_first_bad_clip_rejected_witness :
  EnhancedVideoProcessor.processAudio Scenario.fine
    (["/app/temp/a.mp3"%string] ++ "/app/temp/missing.mp3"%string
       :: ["/app/temp/b.mp3"%string])%list
    "/app/temp/final_audio.wav" Scenario.with_media
  = (Throw "Audio file not found: /app/temp/missing.mp3", Scenario.with_media).
Proof.
  refine (X2_first_bad_clip_rejected Scenario.fine ["/app/temp/a.mp3"%string]
            "/app/temp/missing.mp3" ["/app/temp/b.mp3"%string]
            "/app/temp/final_audio.wav" Scenario.with_media _ (or_introl eq_refl)).
  repeat constructor. discriminate.
Defined.

(** ** The video step of the enhanced processor *)

(** X3: the images are checked in order before the encoder is started.
    When every image before [p] exists and [p] does not, the step is
    rejected with [Image file not found: p] and the world is untouched:
    the encoder is never spawned and no output is produced. *)
Theorem X3_missing_image_rejected :
  forall (E : env) (pre : list string) (p : string) (post : list string)
         (audioPath outputPath : string) (o : EnhancedVideoProcessor.Options)
         (w : world),
    Forall (fun q => existsSync q (fs w) = true) pre ->
    existsSync p (fs w) = false ->
    EnhancedVideoProcessor.createAdvancedVideo E (pre ++ p :: post) audioPath outputPath o w
    = (Throw ("Image file not found: " ++ p)%string, w).
Proof.
  intros E pre p post audioPath outputPath o w Hpre Hp.
  unfold EnhancedVideoProcessor.createAdvancedVideo. unfold bind at 1.
  rewrite (for_of_stops EnhancedVideoProcessor.check_image w
             ("Image file not found: " ++ p)%string pre p post); [reflexivity| |].
  - apply Forall_forall. intros q Hq. rewrite Forall_forall in Hpre.
    unfold check_image, bind, fs_existsSync. now rewrite (Hpre q Hq).
  - unfold check_image, bind, fs_existsSync. now rewrite Hp.
Qed.

Lemma X3_missing_image_rejected_witness :
  EnhancedVideoProcessor.createAdvancedVideo Scenario.fine
    (["/app/temp/1.jpg"%string] ++ "/app/temp/gone.jpg"%string
       :: ["/app/temp/3.jpg"%string])%list
    "/app/temp/final_audio.wav" "/app/temp/out.mp4"
    (EnhancedVideoProcessor.mkOptions None None None 30) Scenario.with_media
  = (Throw "Image file not found: /app/temp/gone.jpg", Scenario.with_media).
Proof.
  refine (X3_missing_image_rejected Scenario.fine ["/app/temp/1.jpg"%string]
            "/app/temp/gone.jpg" ["/app/temp/3.jpg"%string]
            "/app/temp/final_audio.wav" "/app/temp/out.mp4"
            (EnhancedVideoProcessor.mkOptions None None None 30) Scenario.with_media
            _ eq_refl).
  repeat constructor.
Defined.

(** ** Image download *)

(** X4: what a failed download does about its file depends on how it
    fails.  The stream is opened at the output path first.  When the
    request reports an error by its [error] event, the handler asks for
    the file to be unlinked and passes the error on unchanged.  When
    [https.get] throws at once, because it cannot use the URL, the promise
    rejects with that error and nothing else happens: no unlink is asked
    for and the file that was just created stays.  A download that
    succeeds returns the output path, the file is there and no unlink is
    asked for. *)
Theorem X4_download_failure_and_the_file :
  forall (E : env) (url outputPath : string) (w : world),
    deadline w = None ->
    match https_get_throws E url with
    | Some e =>
        EnhancedVideoProcessor.downloadImage E url outputPath w
        = (Throw e, with_fs (write_file outputPath) w)
        /\ existsSync outputPath
             (fs (snd (EnhancedVideoProcessor.downloadImage E url outputPath w))) = true
    | None =>
        match value (https_get E url) with
        | inl _ =>
            fst (EnhancedVideoProcessor.downloadImage E url outputPath w) = Ok outputPath
            /\ existsSync outputPath
                 (fs (snd (EnhancedVideoProcessor.downloadImage E url outputPath w)))
               = true
            /\ filter Overlay.is_unlink
                 (trace (snd (EnhancedVideoProcessor.downloadImage E url outputPath w)))
               = filter Overlay.is_unlink (trace w)
        | inr e =>
            fst (EnhancedVideoProcessor.downloadImage E url outputPath w) = Throw e
            /\ filter Overlay.is_unlink
                 (trace (snd (EnhancedVideoProcessor.downloadImage E url outputPath w)))
               = filter Overlay.is_unlink (trace w) ++ [Unlinked outputPath]
        end
    end.
Proof.
  intros E url outputPath w Hd.
  destruct (https_get_throws E url) as [e|] eqn:Ht.
  - assert (Hrun : EnhancedVideoProcessor.downloadImage E url outputPath w
                   = (Throw e, with_fs (write_file outputPath) w)).
    { unfold EnhancedVideoProcessor.downloadImage, bind, fs_createWriteStream.
      rewrite Ht. reflexivity. }
    rewrite Hrun. split; [reflexivity|]. cbn [snd fs with_fs].
    rewrite existsSync_write, String.eqb_refl. reflexivity.
  - unfold EnhancedVideoProcessor.downloadImage. rewrite Ht.
    unfold bind, fs_createWriteStream, try_catch, call.
    rewrite await_free by exact Hd.
    destruct (value (https_get E url)) as [[]|e]; cbn.
    + split; [reflexivity|]. split; [|reflexivity]. apply existsSync_writes.
      rewrite existsSync_write, String.eqb_refl. reflexivity.
    + unfold fs_unlink, throw. cbn.
      assert (Hx : existsb (String.eqb outputPath)
                     (write_files (wrote (https_get E url))
                        (write_file outputPath (fs w))) = true).
      { apply (existsSync_writes outputPath).
        rewrite existsSync_write, String.eqb_refl. reflexivity. }
      rewrite Hx. cbn. split; [reflexivity|]. now rewrite filter_app.
Qed.

Lemma X4_download_failure_and_the_file_witness :
  EnhancedVideoProcessor.downloadImage Cases.picky "not a url" "/app/temp/1.jpg"
                                       Scenario.with_media
  = (Throw "Invalid URL", with_fs (write_file "/app/temp/1.jpg") Scenario.with_media)
  /\ existsSync "/app/temp/1.jpg"
       (fs (snd (EnhancedVideoProcessor.downloadImage Cases.picky "not a url"
                   "/app/temp/1.jpg" Scenario.with_media)))
     = true.
Proof.
  exact (X4_download_failure_and_the_file Cases.picky "not a url"
           "/app/temp/1.jpg" Scenario.with_media eq_refl).
Defined.

(** ** What reaches the filter graph *)

Lemma texts_of_app a b : Overlay.texts_of (a ++ b) = Overlay.texts_of a ++ Overlay.texts_of b.
Proof. unfold Overlay.texts_of. apply flat_map_app. Qed.

Lemma stamps_of_app a b :
  Overlay.stamps_of (a ++ b) = Overlay.stamps_of a ++ Overlay.stamps_of b.
Proof. unfold Overlay.stamps_of. apply flat_map_app. Qed.

Lemma texts_of_lits l : Overlay.texts_of (map lit l) = [].
Proof. induction l as [|s r IH]; [reflexivity|exact IH]. Qed.

Lemma stamps_of_lits l : Overlay.stamps_of (map lit l) = [].
Proof. induction l as [|s r IH]; [reflexivity|exact IH]. Qed.

Lemma texts_of_inputs d l :
  Overlay.texts_of (List.concat (map (EnhancedVideoProcessor.image_input d) l)) = [].
Proof. induction l as [|s r IH]; [reflexivity|exact IH]. Qed.

Lemma stamps_of_inputs d l :
  Overlay.stamps_of (List.concat (map (EnhancedVideoProcessor.image_input d) l)) = [].
Proof. induction l as [|s r IH]; [reflexivity|exact IH]. Qed.

Lemma tjoin_cons sep a b r : tjoin sep (a :: b :: r) = a ++ [Lit sep] ++ tjoin sep (b :: r).
Proof. reflexivity. Qed.

Lemma text_of_tjoin sep l :
  flat_map Overlay.text_of (tjoin sep l) = flat_map (flat_map Overlay.text_of) l.
Proof.
  induction l as [|a r IH]; [reflexivity|].
  destruct r as [|b r]; [cbn; now rewrite app_nil_r|].
  rewrite tjoin_cons, !flat_map_app, IH. reflexivity.
Qed.

Lemma stamp_of_tjoin sep l :
  flat_map Overlay.stamp_of (tjoin sep l) = flat_map (flat_map Overlay.stamp_of) l.
Proof.
  induction l as [|a r IH]; [reflexivity|].
  destruct r as [|b r]; [cbn; now rewrite app_nil_r|].
  rewrite tjoin_cons, !flat_map_app, IH. reflexivity.
Qed.

Lemma graph_no_text d l :
  flat_map (flat_map Overlay.text_of) (map (EnhancedVideoProcessor.image_filter d) l) = []
  /\ flat_map Overlay.text_of (List.concat (map EnhancedVideoProcessor.concat_input l)) = [].
Proof. induction l as [|i r [IH1 IH2]]; split; auto. Qed.

Lemma graph_no_stamp d l :
  flat_map (flat_map Overlay.stamp_of) (map (EnhancedVideoProcessor.image_filter d) l) = []
  /\ flat_map Overlay.stamp_of (List.concat (map EnhancedVideoProcessor.concat_input l)) = [].
Proof. induction l as [|i r [IH1 IH2]]; split; auto. Qed.

Lemma textFilters_texts color segs : forall t,
  flat_map (flat_map Overlay.text_of) (EnhancedVideoProcessor.textFilters color t segs)
  = map (fun s => EnhancedVideoProcessor.cleanText (SubtitleProcessor.text s)) segs.
Proof.
  induction segs as [|s r IH]; intros t; [reflexivity|].
  cbn [EnhancedVideoProcessor.textFilters flat_map map]. rewrite IH. reflexivity.
Qed.

Lemma textFilters_stamps color segs : forall t,
  flat_map (flat_map Overlay.stamp_of) (EnhancedVideoProcessor.textFilters color t segs)
  = Overlay.bounds (captions t (map SubtitleProcessor.duration segs)
                             (map SubtitleProcessor.text segs)).
Proof.
  induction segs as [|s r IH]; intros t; [reflexivity|].
  cbn [EnhancedVideoProcessor.textFilters flat_map map captions Overlay.bounds].
  rewrite IH. reflexivity.
Qed.

Lemma advanced_args_texts imagePaths audioPath outputPath o :
  Overlay.texts_of (EnhancedVideoProcessor.advanced_args imagePaths audioPath outputPath o)
  = match EnhancedVideoProcessor.overlays_wanted o with
    | Some segs =>
        map (fun s => EnhancedVideoProcessor.cleanText (SubtitleProcessor.text s)) segs
    | None => []
    end.
Proof.
  unfold EnhancedVideoProcessor.advanced_args. cbv zeta.
  rewrite !texts_of_app, texts_of_inputs, texts_of_lits, app_nil_r.
  change (Overlay.texts_of [lit "-y"; lit "-i"; lit audioPath]) with (@nil jsstring).
  cbn [app].
  destruct (graph_no_text (EnhancedVideoProcessor.durationPerImage_of o imagePaths)
              (seq 0 (List.length imagePaths))) as [G1 G2].
  destruct (EnhancedVideoProcessor.overlays_wanted o) as [segs|];
    unfold Overlay.texts_of; cbn [flat_map lit Overlay.text_of app];
    repeat (progress (rewrite ?flat_map_app, ?text_of_tjoin, ?G1, ?G2, ?textFilters_texts;
                      cbn [flat_map Overlay.text_of app]));
    rewrite ?app_nil_r; reflexivity.
Qed.

Lemma advanced_args_stamps imagePaths audioPath outputPath o :
  Overlay.stamps_of (EnhancedVideoProcessor.advanced_args imagePaths audioPath outputPath o)
  = match EnhancedVideoProcessor.overlays_wanted o with
    | Some segs =>
        Overlay.bounds (captions 0 (map SubtitleProcessor.duration segs)
                                 (map SubtitleProcessor.text segs))
    | None => []
    end.
Proof.
  unfold EnhancedVideoProcessor.advanced_args. cbv zeta.
  rewrite !stamps_of_app, stamps_of_inputs, stamps_of_lits, app_nil_r.
  change (Overlay.stamps_of [lit "-y"; lit "-i"; lit audioPath]) with (@nil Q).
  cbn [app].
  destruct (graph_no_stamp (EnhancedVideoProcessor.durationPerImage_of o imagePaths)
              (seq 0 (List.length imagePaths))) as [G1 G2].
  destruct (EnhancedVideoProcessor.overlays_wanted o) as [segs|];
    unfold Overlay.stamps_of; cbn [flat_map lit Overlay.stamp_of app];
    repeat (progress (rewrite ?flat_map_app, ?stamp_of_tjoin, ?G1, ?G2, ?textFilters_stamps;
                      cbn [flat_map Overlay.stamp_of app]));
    rewrite ?app_nil_r; reflexivity.
Qed.

Lemma kept_not_meta c : kept c = true -> Overlay.is_meta c = false.
Proof.
  intros Hk. unfold Overlay.is_meta. cbn [existsb].
  repeat match goal with
         | |- context [N.eqb c ?k] =>
             destruct (N.eqb_spec c k) as [->|_]; [discriminate Hk|]
         end.
  reflexivity.
Qed.

(** X5: whatever the captions say, no text that reaches the encoder's
    filter graph can break out of its [drawtext] filter: every caption
    text in the argument list is at most 55 units long and contains no
    quote, colon, backslash, comma, semicolon, bracket, equals sign or
    percent sign. *)
Theorem X5_overlay_text_is_inert :
  forall (imagePaths : list string) (audioPath outputPath : string)
         (o : EnhancedVideoProcessor.Options),
    Forall (fun t => (List.length t <= 55)%nat
                     /\ Forall (fun c => Overlay.is_meta c = false) t)
           (Overlay.texts_of
              (EnhancedVideoProcessor.advanced_args imagePaths audioPath outputPath o)).
Proof.
  intros imagePaths audioPath outputPath o. rewrite advanced_args_texts.
  destruct (EnhancedVideoProcessor.overlays_wanted o) as [segs|]; [|constructor].
  apply Forall_forall. intros t Ht. apply in_map_iff in Ht. destruct Ht as [s [<- _]].
  destruct (cleanText_tidy (SubtitleProcessor.text s)) as [[Hk _] Hlen].
  split; [exact Hlen|].
  eapply Forall_impl; [|exact Hk]. intros c. apply kept_not_meta.
Qed.

(** X6: the display windows burned into the video are the running sums
    of the captions' own durations: the time stamps in the argument list
    are, in order, the start and the end of each caption of the timeline
    that starts at 0 and gives every caption its duration, so each window
    starts where the one before ends; and each window shows the cleaned
    text of its caption. *)
Theorem X6_overlay_windows_follow_durations :
  forall (imagePaths : list string) (audioPath outputPath : string)
         (o : EnhancedVideoProcessor.Options) (segs : list SubtitleProcessor.TimedText),
    EnhancedVideoProcessor.overlays_wanted o = Some segs ->
    let timeline := captions 0 (map SubtitleProcessor.duration segs)
                             (map SubtitleProcessor.text segs) in
    Overlay.stamps_of
      (EnhancedVideoProcessor.advanced_args imagePaths audioPath outputPath o)
    = Overlay.bounds timeline
    /\ Overlay.texts_of
         (EnhancedVideoProcessor.advanced_args imagePaths audioPath outputPath o)
       = map (fun e => EnhancedVideoProcessor.cleanText (SubtitleProcessor.subText e))
             timeline
    /\ List.length timeline = List.length segs
    /\ contiguous timeline.
Proof.
  intros imagePaths audioPath outputPath o segs Hw timeline.
  rewrite advanced_args_stamps, advanced_args_texts, Hw.
  assert (Hlen : List.length (map SubtitleProcessor.duration segs)
                 = List.length (map SubtitleProcessor.text segs))
    by now rewrite !length_map.
  repeat split.
  - rewrite <- (map_map SubtitleProcessor.subText EnhancedVideoProcessor.cleanText).
    unfold timeline. rewrite (captions_texts _ _ 0 Hlen). now rewrite map_map.
  - unfold timeline. rewrite (captions_length _ _ 0 Hlen). apply length_map.
  - apply captions_contiguous.
Qed.

Lemma X6_overlay_windows_follow_durations_witness :
  Overlay.stamps_of
    (EnhancedVideoProcessor.advanced_args ["/app/temp/1.jpg"%string]
       "/app/temp/final_audio.wav" "/app/temp/out.mp4"
       (EnhancedVideoProcessor.mkOptions
          (Some (mkSubtitles Cases.two_captions true)) None None 30))
  = [0; 0 + 4; 0 + 4; 0 + 4 + (5 # 2)].
Proof.
  exact (proj1 (X6_overlay_windows_follow_durations ["/app/temp/1.jpg"%string]
                  "/app/temp/final_audio.wav" "/app/temp/out.mp4"
                  (EnhancedVideoProcessor.mkOptions
                     (Some (mkSubtitles Cases.two_captions true)) None None 30)
                  Cases.two_captions eq_refl)).
Defined.

(** ** Subtitle lines: nothing lost, nothing shown for a blank text *)

Lemma split_nonempty sep s : JS.split sep s <> [].
Proof.
  destruct s as [|c r]; [discriminate|]. cbn [JS.split].
  destruct (c =? sep)%N; [discriminate|]. destruct (JS.split sep r); discriminate.
Qed.

Lemma split_app sep a : forall b,
  JS.split sep (a ++ sep :: b) = JS.split sep a ++ JS.split sep b.
Proof.
  induction a as [|c r IH]; intros b.
  - cbn [app JS.split]. now rewrite N.eqb_refl.
  - cbn [app JS.split]. rewrite IH.
    destruct (c =? sep)%N; [reflexivity|].
    pose proof (split_nonempty sep r) as Hne.
    destruct (JS.split sep r) as [|w ws]; [congruence|reflexivity].
Qed.

Lemma split_free sep s :
  Forall (fun c => (c =? sep)%N = false) s -> JS.split sep s = [s].
Proof.
  induction 1 as [|c r Hc _ IH]; [reflexivity|].
  cbn [JS.split]. now rewrite Hc, IH.
Qed.

Lemma split_pieces_free sep s :
  Forall (Forall (fun c => (c =? sep)%N = false)) (JS.split sep s).
Proof.
  induction s as [|c r IH]; [repeat constructor|].
  cbn [JS.split]. destruct (c =? sep)%N eqn:Hc; [constructor; [constructor|exact IH]|].
  destruct (JS.split sep r) as [|w ws]; [repeat constructor; exact Hc|].
  inversion IH as [|? ? Hw Hws]; subst.
  constructor; [constructor; [exact Hc|exact Hw]|exact Hws].
Qed.

Lemma words_of_app a b :
  Coverage.words_of (a ++ [SPACE] ++ b) = Coverage.words_of a ++ Coverage.words_of b.
Proof. unfold Coverage.words_of. cbn [app]. now rewrite split_app, filter_app. Qed.

Lemma words_of_word w :
  Forall (fun c => (c =? SPACE)%N = false) w ->
  Coverage.words_of w = if truthy w then [w] else [].
Proof.
  intros H. unfold Coverage.words_of. rewrite (split_free SPACE w H).
  destruct w; reflexivity.
Qed.

(** The words held by the state of the wrapping loop. *)
Lemma wrap_word_words lines currentLine word :
  Forall (fun c => (c =? SPACE)%N = false) word ->
  flat_map Coverage.words_of (fst (wrap_word (lines, currentLine) word))
  ++ Coverage.words_of (snd (wrap_word (lines, currentLine) word))
  = (flat_map Coverage.words_of lines ++ Coverage.words_of currentLine)
    ++ (if truthy word then [word] else []).
Proof.
  intros Hw. unfold wrap_word.
  destruct (List.length (currentLine ++ [SPACE] ++ word) <=? 60)%nat; cbn [fst snd].
  - destruct currentLine as [|c r]; cbn [truthy].
    + rewrite (words_of_word word Hw).
      change (Coverage.words_of []) with (@nil jsstring). now rewrite app_nil_r.
    + rewrite words_of_app, (words_of_word word Hw), !app_assoc. reflexivity.
  - rewrite (words_of_word word Hw).
    destruct currentLine as [|c r]; cbn [truthy].
    + change (Coverage.words_of []) with (@nil jsstring). now rewrite app_nil_r.
    + rewrite flat_map_app. cbn [flat_map]. rewrite app_nil_r. reflexivity.
Qed.

Lemma fold_wrap_word_words words : forall lines currentLine,
  Forall (Forall (fun c => (c =? SPACE)%N = false)) words ->
  flat_map Coverage.words_of (fst (fold_left wrap_word words (lines, currentLine)))
  ++ Coverage.words_of (snd (fold_left wrap_word words (lines, currentLine)))
  = (flat_map Coverage.words_of lines ++ Coverage.words_of currentLine)
    ++ filter truthy words.
Proof.
  induction words as [|w r IH]; intros lines cur H; cbn [fold_left filter].
  - now rewrite app_nil_r.
  - inversion H as [|? ? Hw Hr]; subst.
    pose proof (wrap_word_words lines cur w Hw) as Hstep.
    destruct (wrap_word (lines, cur) w) as [lines' cur']. cbn [fst snd] in Hstep.
    rewrite (IH lines' cur' Hr), Hstep, <- app_assoc.
    destruct (truthy w); reflexivity.
Qed.

Lemma wrap_lines_words txt :
  flat_map Coverage.words_of (wrap_lines txt) = Coverage.words_of txt.
Proof.
  unfold wrap_lines.
  pose proof (fold_wrap_word_words (split SPACE txt) [] [] (split_pieces_free SPACE txt))
    as H.
  match goal with
  | |- context [fold_left wrap_word ?l ?a] =>
      change (fold_left wrap_word (split SPACE txt) ([], [])) with (fold_left wrap_word l a) in H;
      destruct (fold_left wrap_word l a) as [lines cur]
  end.
  cbn [fst snd flat_map app] in H.
  change (Coverage.words_of []) with (@nil jsstring) in H. cbn [app] in H.
  change (Coverage.words_of txt) with (filter truthy (split SPACE txt)). rewrite <- H.
  destruct cur as [|c r]; cbn [truthy].
  - now rewrite app_nil_r.
  - rewrite flat_map_app. cbn [flat_map]. now rewrite app_nil_r.
Qed.

(** X7: wrapping a text into subtitle lines loses no word, adds none and
    keeps their order: the words of the lines, read one line after the
    other, are the words of the text (a word being a non-empty piece
    between plain spaces). *)
Theorem X7_wrapping_keeps_the_words :
  forall txt : jsstring,
    flat_map Coverage.words_of (wrap_lines txt) = Coverage.words_of txt.
Proof. exact wrap_lines_words. Qed.

Lemma words_of_blank txt :
  Coverage.words_of txt = [] <-> Coverage.blank txt = true.
Proof.
  unfold Coverage.words_of. induction txt as [|c r IH]; [split; reflexivity|].
  cbn [JS.split Coverage.blank forallb].
  destruct (c =? SPACE)%N; cbn [filter truthy andb]; [exact IH|].
  pose proof (split_nonempty SPACE r) as Hne.
  destruct (JS.split SPACE r) as [|w ws]; [congruence|].
  cbn [filter truthy]. split; discriminate.
Qed.

Lemma fold_wrap_word_empty words : forall lines,
  filter truthy words = [] ->
  fold_left wrap_word words (lines, []) = (lines, []).
Proof.
  induction words as [|w r IH]; intros lines H; [reflexivity|].
  cbn [filter] in H. destruct w as [|c w']; [|discriminate H].
  cbn [fold_left]. exact (IH lines H).
Qed.

Lemma wrap_lines_blank txt : wrap_lines txt = [] <-> Coverage.blank txt = true.
Proof.
  rewrite <- words_of_blank. split; intros H.
  - rewrite <- wrap_lines_words, H. reflexivity.
  - unfold wrap_lines.
    rewrite (fold_wrap_word_empty (split SPACE txt) [] H). reflexivity.
Qed.

Lemma push_segment_blank st s :
  Coverage.blank (text s) = true -> push_segment st s = st.
Proof.
  intros Hb. apply wrap_lines_blank in Hb. unfold push_segment. rewrite Hb.
  reflexivity.
Qed.

(** X8: a text yields no subtitle line exactly when it has no word, that
    is when it is empty or made of plain spaces only; any other text,
    however long its words are, yields at least one line. *)
Theorem X8_no_line_iff_blank :
  forall txt : jsstring,
    wrap_lines txt = [] <-> Coverage.blank txt = true.
Proof. exact wrap_lines_blank. Qed.

(** X9: a segment whose text is blank leaves no trace in the subtitle
    timeline: the entries are those of the script without that segment.
    So the duration of a blank segment is not waited for, and the
    captions after it start that much earlier. *)
Theorem X9_timeline_skips_blank_segments :
  forall (pre : list TimedText) (s : TimedText) (post : list TimedText) (t0 : Q),
    Coverage.blank (text s) = true ->
    createSubtitleSegments (pre ++ s :: post) t0
    = createSubtitleSegments (pre ++ post) t0.
Proof.
  intros pre s post t0 Hb. unfold createSubtitleSegments.
  rewrite !fold_left_app. cbn [fold_left].
  now rewrite (push_segment_blank _ s Hb).
Qed.

Lemma X9_timeline_skips_blank_segments_witness :
  createSubtitleSegments
    ([mkTimed (of_string "first words") 4]
     ++ mkTimed (of_string "  ") 3 :: [mkTimed (of_string "last words") 2]) 1
  = createSubtitleSegments
      ([mkTimed (of_string "first words") 4] ++ [mkTimed (of_string "last words") 2]) 1.
Proof.
  exact (X9_timeline_skips_blank_segments
           [mkTimed (of_string "first words") 4] (mkTimed (of_string "  ") 3)
           [mkTimed (of_string "last words") 2] 1 eq_refl).
Defined.

(** ** The audio step of the basic processor *)

Lemma unlinks_after_spawn E tool args w :
  filter Overlay.is_unlink (trace (after_spawn E tool args w))
  = filter Overlay.is_unlink (trace w).
Proof.
  unfold after_spawn. cbn [trace with_fs with_clock with_event].
  rewrite filter_app. cbn. apply app_nil_r.
Qed.

Lemma normalize_from_stops E outputDir c :
  c <> 0%Z ->
  forall pre i acc p post w,
    deadline w = None ->
    (forall k q, nth_error pre k = Some q ->
       exit_of (run E "ffmpeg"
                  (BasicVideoProcessor.normalize_args q
                     (BasicVideoProcessor.normalizedPath_of outputDir (i + k))))
       = Close 0) ->
    exit_of (run E "ffmpeg"
               (BasicVideoProcessor.normalize_args p
                  (BasicVideoProcessor.normalizedPath_of outputDir (i + List.length pre))))
    = Close c ->
    exists w',
      BasicVideoProcessor.normalize_from E outputDir i (pre ++ p :: post) acc w
      = (Throw ("Audio normalization failed: " ++ string_of_Z c)%string, w')
      /\ spawns (trace w')
         = spawns (trace w)
           ++ map (fun ip => ("ffmpeg"%string,
                              BasicVideoProcessor.normalize_args
                                (snd ip)
                                (BasicVideoProcessor.normalizedPath_of outputDir (fst ip))))
                  (combine (seq i (S (List.length pre))) (pre ++ [p]))
      /\ filter Overlay.is_unlink (trace w') = filter Overlay.is_unlink (trace w).
Proof.
  intros Hc. induction pre as [|q r IH]; intros i acc p post w Hd Hpre Hp.
  - cbn [app List.length] in *. rewrite Nat.add_0_r in Hp.
    cbn [BasicVideoProcessor.normalize_from].
    unfold bind at 1. unfold BasicVideoProcessor.normalizeAudio. unfold bind at 1.
    rewrite (spawn_free E _ _ w Hd), Hp.
    destruct (Z.eqb_spec c 0) as [H0|_]; [contradiction|].
    eexists. split; [reflexivity|]. split; [|apply unlinks_after_spawn].
    unfold after_spawn. cbn [trace with_fs with_clock with_event].
    rewrite spawns_app. reflexivity.
  - cbn [app BasicVideoProcessor.normalize_from].
    unfold bind at 1. unfold BasicVideoProcessor.normalizeAudio. unfold bind at 1.
    rewrite (spawn_free E _ _ w Hd).
    pose proof (Hpre 0%nat q eq_refl) as H0. rewrite Nat.add_0_r in H0. rewrite H0.
    cbn [Z.eqb]. unfold ret at 1.
    set (w1 := after_spawn E _ _ w).
    assert (Hd1 : deadline w1 = None) by exact Hd.
    destruct (IH (S i) (acc ++ [BasicVideoProcessor.normalizedPath_of outputDir i])
                 p post w1 Hd1) as [w' [Hrun [Htr Hun]]].
    + intros k q' Hk. rewrite Nat.add_succ_l, <- Nat.add_succ_r. exact (Hpre (S k) q' Hk).
    + cbn [List.length] in Hp. rewrite Nat.add_succ_l, <- Nat.add_succ_r. exact Hp.
    + exists w'. split; [exact Hrun|]. split.
      * rewrite Htr. unfold w1, after_spawn. cbn [trace with_fs with_clock with_event].
        rewrite spawns_app. cbn [List.length seq combine map spawns fst snd app].
        now rewrite <- app_assoc.
      * rewrite Hun. apply unlinks_after_spawn.
Qed.

(** X10: when the normalisation of a clip fails with exit code [c], the
    audio step of the basic processor is rejected with [Audio
    normalization failed: c]; the clips before it have been normalised,
    the clips after it are not touched, the concatenation is never
    started, and nothing is removed: the normalised files written so far
    stay on the disk. *)
Theorem X10_normalisation_failure_stops_the_step :
  forall (E : env) (outputDir : string) (pre : list string) (p : string)
         (post : list string) (c : Z) (w : world),
    deadline w = None ->
    c <> 0%Z ->
    (forall k q, nth_error pre k = Some q ->
       exit_of (run E "ffmpeg"
                  (BasicVideoProcessor.normalize_args q
                     (BasicVideoProcessor.normalizedPath_of outputDir k)))
       = Close 0) ->
    exit_of (run E "ffmpeg"
               (BasicVideoProcessor.normalize_args p
                  (BasicVideoProcessor.normalizedPath_of outputDir (List.length pre))))
    = Close c ->
    exists w',
      BasicVideoProcessor.processAudio E (pre ++ p :: post) outputDir w
      = (Throw ("Audio normalization failed: " ++ string_of_Z c)%string, w')
      /\ spawns (trace w')
         = spawns (trace w)
           ++ map (fun ip => ("ffmpeg"%string,
                              BasicVideoProcessor.normalize_args
                                (snd ip)
                                (BasicVideoProcessor.normalizedPath_of outputDir (fst ip))))
                  (combine (seq 0 (S (List.length pre))) (pre ++ [p]))
      /\ filter Overlay.is_unlink (trace w') = filter Overlay.is_unlink (trace w).
Proof.
  intros E outputDir pre p post c w Hd Hc Hpre Hp.
  destruct (normalize_from_stops E outputDir c Hc pre 0 [] p post w Hd Hpre Hp)
    as [w' [Hrun H]].
  exists w'. split; [|exact H].
  unfold BasicVideoProcessor.processAudio. cbv zeta. unfold bind at 1. now rewrite Hrun.
Qed.

Lemma X10_normalisation_failure_stops_the_step_witness :
  exists w',
    BasicVideoProcessor.processAudio Cases.bad_second_clip
      (["/app/temp/a.mp3"%string] ++ "/app/temp/b.mp3"%string :: ["/app/temp/c.mp3"%string])
      "/app/temp" Scenario.with_media
    = (Throw ("Audio normalization failed: " ++ string_of_Z 1)%string, w')
    /\ spawns (trace w')
       = spawns (trace Scenario.with_media)
         ++ map (fun ip => ("ffmpeg"%string,
                            BasicVideoProcessor.normalize_args
                              (snd ip)
                              (BasicVideoProcessor.normalizedPath_of "/app/temp" (fst ip))))
                (combine (seq 0 (S (List.length ["/app/temp/a.mp3"%string])))
                         (["/app/temp/a.mp3"%string] ++ ["/app/temp/b.mp3"%string]))
    /\ filter Overlay.is_unlink (trace w')
       = filter Overlay.is_unlink (trace Scenario.with_media).
Proof.
  refine (X10_normalisation_failure_stops_the_step Cases.bad_second_clip "/app/temp"
            ["/app/temp/a.mp3"%string] "/app/temp/b.mp3" ["/app/temp/c.mp3"%string]
            1%Z Scenario.with_media eq_refl _ _ eq_refl).
  - discriminate.
  - intros [|[|k]] q Hk; try discriminate Hk.
    injection Hk as <-. reflexivity.
Defined.

Lemma unlink_if_present_gone p w :
  exists w',
    BasicVideoProcessor.unlink_if_present p w = (Ok tt, w')
    /\ deadline w' = deadline w
    /\ existsSync p (fs w') = false
    /\ (forall q, existsSync q (fs w) = false -> existsSync q (fs w') = false).
Proof.
  unfold BasicVideoProcessor.unlink_if_present, bind, fs_existsSync.
  destruct (existsSync p (fs w)) eqn:Hp.
  - unfold fs_unlinkSync. rewrite Hp. eexists. split; [reflexivity|].
    cbn [deadline fs with_event with_fs]. split; [reflexivity|].
    split; [apply existsSync_remove_same|]. intros q. apply existsSync_remove_false.
  - exists w. repeat split; auto.
Qed.

Lemma unlink_all_gone l : forall w,
  exists w',
    EnhancedVideoProcessor.for_of BasicVideoProcessor.unlink_if_present l w = (Ok tt, w')
    /\ deadline w' = deadline w
    /\ (forall q, existsSync q (fs w) = false -> existsSync q (fs w') = false)
    /\ (forall p, In p l -> existsSync p (fs w') = false).
Proof.
  induction l as [|p r IH]; intros w; cbn [for_of].
  - exists w. repeat split; auto. intros p [].
  - unfold bind at 1.
    destruct (unlink_if_present_gone p w) as [w1 [H1 [D1 [G1 K1]]]]. rewrite H1.
    destruct (IH w1) as [w' [H2 [D2 [K2 G2]]]]. exists w'. rewrite H2.
    split; [reflexivity|]. split; [congruence|]. split; [auto|].
    intros q [<-|Hq]; [apply K2, G1|apply G2, Hq].
Qed.

Lemma basic_processAudio_succeeds E audioSegments outputDir w :
  deadline w = None ->
  (forall args, exit_of (run E "ffmpeg" args) = Close 0) ->
  exists w',
    BasicVideoProcessor.processAudio E audioSegments outputDir w
    = (Ok (path_join outputDir "processed_audio.wav"), w')
    /\ deadline w' = None
    /\ (forall i, (i < List.length audioSegments)%nat ->
          existsSync (BasicVideoProcessor.normalizedPath_of outputDir i) (fs w') = false).
Proof.
  intros Hd Hok. unfold BasicVideoProcessor.processAudio. cbv zeta.
  destruct (normalize_from_trace E outputDir Hok audioSegments 0 [] w Hd)
    as [w1 [Hrun [Hd1 _]]].
  unfold bind at 1. rewrite Hrun. cbn [app].
  unfold bind at 1. unfold BasicVideoProcessor.concatenateAudio. unfold bind at 1.
  rewrite (spawn_free E _ _ w1 Hd1), Hok. cbn [Z.eqb]. unfold ret at 1.
  set (w2 := after_spawn E _ _ w1).
  destruct (unlink_all_gone
              (map (BasicVideoProcessor.normalizedPath_of outputDir)
                   (seq 0 (List.length audioSegments))) w2) as [w3 [H3 [D3 [_ G3]]]].
  unfold bind. rewrite H3. exists w3. split; [reflexivity|]. split; [exact (eq_trans D3 Hd1)|].
  intros i Hi. apply G3. apply in_map. apply in_seq. lia.
Qed.

(** X11: when every FFmpeg call succeeds, the basic processor leaves no
    intermediate audio behind: after its audio step none of the
    normalised files [norm_i.wav] is on the disk, and after the whole
    video creation, which returns the output path, [processed_audio.wav]
    is gone as well. *)
Theorem X11_basic_intermediates_removed :
  forall (E : env) (assets : VideoAssets) (outputPath : string) (totalDuration : Q)
         (subtitles : option Subtitles) (videoTopic textFont textColor : option string)
         (w : world),
    deadline w = None ->
    (forall args, exit_of (run E "ffmpeg" args) = Close 0) ->
    images assets <> [] ->
    audioSegments assets <> [] ->
    (exists w1,
        BasicVideoProcessor.processAudio E (audioSegments assets) (dirname outputPath) w
        = (Ok (path_join (dirname outputPath) "processed_audio.wav"), w1)
        /\ forall i, (i < List.length (audioSegments assets))%nat ->
             existsSync (BasicVideoProcessor.normalizedPath_of (dirname outputPath) i)
                        (fs w1) = false)
    /\ (exists w',
           BasicVideoProcessor.createVideo E assets outputPath totalDuration subtitles
                                           videoTopic textFont textColor w
           = (Ok outputPath, w')
           /\ existsSync (path_join (dirname outputPath) "processed_audio.wav") (fs w')
              = false).
Proof.
  intros E assets outputPath totalDuration subtitles videoTopic textFont textColor w
         Hd Hok Hi Ha.
  destruct (basic_processAudio_succeeds E (audioSegments assets) (dirname outputPath) w
              Hd Hok) as [w1 [Hrun [Hd1 Hgone]]].
  split; [exists w1; split; [exact Hrun|exact Hgone]|].
  unfold BasicVideoProcessor.createVideo.
  destruct (images assets) as [|i0 ri]; [congruence|].
  destruct (audioSegments assets) as [|a0 ra] eqn:Haud; [congruence|].
  cbn [List.length Nat.eqb orb]. unfold try_catch.
  unfold bind at 1. rewrite Hrun.
  unfold bind at 1. unfold BasicVideoProcessor.createBasicVideo. unfold bind at 1.
  rewrite (spawn_free E _ _ w1 Hd1), Hok. cbn [Z.eqb]. unfold ret at 1.
  set (w2 := after_spawn E _ _ w1).
  destruct (unlink_if_present_gone (path_join (dirname outputPath) "processed_audio.wav") w2)
    as [w3 [H3 [_ [G3 _]]]].
  unfold bind. rewrite H3. exists w3. split; [reflexivity|exact G3].
Qed.

Lemma X11_basic_intermediates_removed_witness :
  (exists w1,
      BasicVideoProcessor.processAudio Scenario.fine (audioSegments Scenario.some_assets)
        (dirname "/app/temp/out.mp4") Scenario.with_media
      = (Ok (path_join (dirname "/app/temp/out.mp4") "processed_audio.wav"), w1)
      /\ forall i, (i < List.length (audioSegments Scenario.some_assets))%nat ->
           existsSync (BasicVideoProcessor.normalizedPath_of (dirname "/app/temp/out.mp4") i)
                      (fs w1) = false)
  /\ (exists w',
         BasicVideoProcessor.createVideo Scenario.fine Scenario.some_assets
           "/app/temp/out.mp4" 30 None None None None Scenario.with_media
         = (Ok "/app/temp/out.mp4"%string, w')
         /\ existsSync (path_join (dirname "/app/temp/out.mp4") "processed_audio.wav") (fs w')
            = false).
Proof.
  refine (X11_basic_intermediates_removed Scenario.fine Scenario.some_assets
            "/app/temp/out.mp4" 30 None None None None Scenario.with_media eq_refl _ _ _).
  - intros args. reflexivity.
  - discriminate.
  - discriminate.
Defined.

(** ** Title texts *)

Lemma filter_idem {A} (f : A -> bool) l : filter f (filter f l) = filter f l.
Proof.
  induction l as [|x r IH]; [reflexivity|]. cbn [filter].
  destruct (f x) eqn:Hx; [cbn [filter]; now rewrite Hx, IH|exact IH].
Qed.

Lemma filter_fixed {A} (f : A -> bool) l :
  Forall (fun x => f x = true) l -> filter f l = l.
Proof.
  induction 1 as [|x r Hx _ IH]; [reflexivity|]. cbn [filter]. now rewrite Hx, IH.
Qed.

Lemma filter_all {A} (f : A -> bool) l : Forall (fun x => f x = true) (filter f l).
Proof.
  induction l as [|x r IH]; [constructor|]. cbn [filter].
  destruct (f x) eqn:Hx; [constructor; assumption|exact IH].
Qed.

Lemma firstn_keeps {A} (P : A -> Prop) n : forall l, Forall P l -> Forall P (firstn n l).
Proof.
  induction n as [|n IH]; intros l H; [constructor|].
  destruct H as [|x r Hx Hr]; [constructor|]. cbn [firstn]. constructor; auto.
Qed.

Lemma firstn_short {A} n (l : list A) : (List.length (firstn n l) <= n)%nat.
Proof. rewrite length_firstn. apply Nat.le_min_l. Qed.

Lemma firstn_firstn_same {A} n (l : list A) : firstn n (firstn n l) = firstn n l.
Proof. apply firstn_all2. apply firstn_short. Qed.

Lemma safe_not_stripped c :
  (is_word c || is_space c
   || (c =? 46) || (c =? 44) || (c =? 33) || (c =? 63) || (c =? 45))%N = true ->
  negb ((c =? 39) || (c =? 34) || (c =? 92) || (c =? 58))%N = true.
Proof.
  intros H.
  repeat match goal with
         | |- context [N.eqb c ?k] =>
             destruct (N.eqb_spec c k) as [->|_]; [discriminate H|]
         end.
  reflexivity.
Qed.

(** X12: the title text that the basic processor puts into its
    [drawtext] filter has at most 30 units, each of them a word
    character, white space or one of [. , ! ? -], so it holds no quote,
    backslash or colon; cleaning a cleaned title changes nothing.  The
    topic on the title page of the original processor has at most 50
    units and no quote. *)
Theorem X12_title_text_is_safe :
  forall topic : jsstring,
    (List.length (BasicVideoProcessor.safeText topic) <= 30)%nat
    /\ Forall (fun c => (is_word c || is_space c
                         || (c =? 46) || (c =? 44) || (c =? 33) || (c =? 63)
                         || (c =? 45))%N = true
                        /\ negb ((c =? 39) || (c =? 34) || (c =? 92) || (c =? 58))%N = true)
              (BasicVideoProcessor.safeText topic)
    /\ BasicVideoProcessor.safeText (BasicVideoProcessor.safeText topic)
       = BasicVideoProcessor.safeText topic
    /\ (List.length (VideoProcessor.cleanTopic topic) <= 50)%nat
    /\ Forall (fun c => is_quote c = false) (VideoProcessor.cleanTopic topic).
Proof.
  intros topic.
  assert (Hsafe : Forall (fun c => (is_word c || is_space c
                                    || (c =? 46) || (c =? 44) || (c =? 33) || (c =? 63)
                                    || (c =? 45))%N = true)
                         (BasicVideoProcessor.safeText topic))
    by (apply firstn_keeps, filter_all).
  split; [apply firstn_short|]. split; [|split; [|split]].
  - eapply Forall_impl; [|exact Hsafe]. intros c Hc. split; [exact Hc|].
    now apply safe_not_stripped.
  - unfold BasicVideoProcessor.safeText at 1. unfold substring0.
    rewrite (filter_fixed (fun c => negb ((c =? 39) || (c =? 34) || (c =? 92) || (c =? 58))%N)).
    + rewrite (filter_fixed _ _ Hsafe). apply firstn_firstn_same.
    + eapply Forall_impl; [|exact Hsafe]. intros c. apply safe_not_stripped.
  - apply firstn_short.
  - unfold VideoProcessor.cleanTopic, substring0. apply firstn_keeps.
    eapply Forall_impl; [|apply filter_all]. intros c Hc. cbv beta in Hc.
    now destruct (is_quote c).
Qed.

(** ** The original processor: title page and time limit *)

Lemma title_path_truthy dir :
  VideoProcessor.truthy_string (Some (path_join dir "title_page.png"))
  = Some (path_join dir "title_page.png").
Proof. unfold path_join. destruct dir; reflexivity. Qed.

Lemma spawn_within_free E limit tool args w :
  deadline w = None ->
  VideoProcessor.spawn_within E limit tool args w
  = if (limit <? elapsed (run E tool args))%N
    then (Ok None, with_clock (clock w + limit)%N (with_event (Spawned tool args) w))
    else (Ok (Some (run E tool args)), after_spawn E tool args w).
Proof.
  intros Hd. unfold VideoProcessor.spawn_within.
  destruct (limit <? elapsed (run E tool args))%N; now rewrite await_free.
Qed.

Lemma createTitlePage_free E topic dir w :
  deadline w = None ->
  VideoProcessor.createTitlePage E topic dir w
  = (Ok (match exit_of (run E "ffmpeg"
                          (VideoProcessor.title_args topic (path_join dir "title_page.png")))
         with
         | Close code => if (code =? 0)%Z then Some (path_join dir "title_page.png") else None
         | ProcError _ => None
         end),
     after_spawn E "ffmpeg"
       (VideoProcessor.title_args topic (path_join dir "title_page.png")) w).
Proof.
  intros Hd. unfold VideoProcessor.createTitlePage. cbv zeta. unfold bind.
  rewrite (spawn_free E _ _ w Hd).
  destruct (exit_of _) as [code|e]; [destruct (code =? 0)%Z|]; reflexivity.
Qed.

(** X13: a title page that cannot be drawn does not fail the job.  When
    the FFmpeg call for the title page does not exit with 0, the original
    processor goes on without a title: the encoder is started with the
    arguments of a video that has no title input, no two seconds reserved
    for it and no leading silence, and nothing else is spawned. *)
Theorem X13_title_page_failure_not_fatal :
  forall (E : env) (assets : VideoAssets) (outputPath : string) (totalDuration : Q)
         (subtitles : option Subtitles) (videoTopic textFont textColor : option string)
         (topic : string) (w : world),
    deadline w = None ->
    images assets <> [] ->
    audioSegments assets <> [] ->
    VideoProcessor.truthy_string videoTopic = Some topic ->
    exit_of (run E "ffmpeg"
               (VideoProcessor.title_args topic
                  (path_join (dirname outputPath) "title_page.png")))
    <> Close 0 ->
    spawns (trace (snd (VideoProcessor.createVideo E assets outputPath totalDuration
                          subtitles videoTopic textFont textColor w)))
    = spawns (trace w)
      ++ [("ffmpeg"%string,
           VideoProcessor.title_args topic (path_join (dirname outputPath) "title_page.png"));
          ("ffmpeg"%string,
           VideoProcessor.video_args assets outputPath totalDuration None)].
Proof.
  intros E assets outputPath totalDuration subtitles videoTopic textFont textColor topic w
         Hd Hi Ha Ht Hx.
  unfold VideoProcessor.createVideo.
  destruct (images assets) as [|i0 ri] eqn:Himg; [congruence|].
  destruct (audioSegments assets) as [|a0 ra] eqn:Haud; [congruence|].
  cbn [List.length Nat.eqb orb]. rewrite Ht.
  unfold bind at 1. rewrite (createTitlePage_free E _ _ w Hd).
  set (t := VideoProcessor.title_args topic _) in *.
  assert (Hnone : match exit_of (run E "ffmpeg" t) with
                  | Close code =>
                      if (code =? 0)%Z
                      then Some (path_join (dirname outputPath) "title_page.png") else None
                  | ProcError _ => None
                  end = None).
  { destruct (exit_of (run E "ffmpeg" t)) as [code|e]; [|reflexivity].
    destruct (Z.eqb_spec code 0) as [->|_]; [congruence|reflexivity]. }
  rewrite Hnone.
  set (w1 := after_spawn E "ffmpeg" t w).
  assert (Hd1 : deadline w1 = None) by exact Hd.
  assert (Ht1 : spawns (trace w1) = spawns (trace w) ++ [("ffmpeg"%string, t)]).
  { unfold w1, after_spawn. cbn [trace with_fs with_clock with_event].
    now rewrite spawns_app. }
  unfold bind at 1. rewrite (spawn_within_free E _ _ _ w1 Hd1).
  destruct (VideoProcessor.ffmpeg_limit <? _)%N.
  - unfold throw. cbn [snd trace with_clock with_event].
    rewrite spawns_app, Ht1, <- app_assoc. reflexivity.
  - unfold bind at 1. unfold VideoProcessor.cleanup. cbn [VideoProcessor.truthy_string].
    unfold ret at 1.
    assert (Ht2 : spawns (trace (after_spawn E "ffmpeg"
                                   (VideoProcessor.video_args assets outputPath totalDuration
                                      None) w1))
                  = spawns (trace w)
                    ++ [("ffmpeg"%string, t);
                        ("ffmpeg"%string,
                         VideoProcessor.video_args assets outputPath totalDuration None)]).
    { unfold after_spawn at 1. cbn [trace with_fs with_clock with_event].
      rewrite spawns_app, Ht1, <- app_assoc. reflexivity. }
    destruct (exit_of (run E "ffmpeg"
                         (VideoProcessor.video_args assets outputPath totalDuration None)))
      as [code|e]; [destruct (code =? 0)%Z|]; exact Ht2.
Qed.

Lemma X13_title_page_failure_not_fatal_witness :
  spawns (trace (snd (VideoProcessor.createVideo Cases.no_title Scenario.some_assets
                        "/app/temp/out.mp4" 30 None (Some "Volcanoes"%string) None None
                        Scenario.with_media)))
  = spawns (trace Scenario.with_media)
    ++ [("ffmpeg"%string,
         VideoProcessor.title_args "Volcanoes"
           (path_join (dirname "/app/temp/out.mp4") "title_page.png"));
        ("ffmpeg"%string,
         VideoProcessor.video_args Scenario.some_assets "/app/temp/out.mp4" 30 None)].
Proof.
  refine (X13_title_page_failure_not_fatal Cases.no_title Scenario.some_assets
            "/app/temp/out.mp4" 30 None (Some "Volcanoes"%string) None None "Volcanoes"
            Scenario.with_media eq_refl _ _ eq_refl _).
  - discriminate.
  - discriminate.
  - vm_compute. discriminate.
Defined.

Lemma cleanup_clock tp w :
  exists w', VideoProcessor.cleanup tp w = (Ok tt, w') /\ clock w' = clock w.
Proof.
  unfold VideoProcessor.cleanup.
  destruct (VideoProcessor.truthy_string tp) as [p|]; [|exists w; split; reflexivity].
  unfold bind, fs_existsSync, fs_unlink.
  destruct (existsSync p (fs w)) eqn:Hx; rewrite ?Hx; eexists; split; reflexivity.
Qed.

Lemma existsSync_written p l : forall f,
  In p l -> existsSync p (write_files l f) = true.
Proof.
  induction l as [|q r IH]; intros f H; [contradiction|].
  cbn [write_files fold_left]. destruct H as [->|H].
  - apply (existsSync_writes p r). rewrite existsSync_write, String.eqb_refl.
    reflexivity.
  - exact (IH _ H).
Qed.

Lemma cleanup_unlinks p w :
  VideoProcessor.truthy_string (Some p) = Some p ->
  existsSync p (fs w) = true ->
  filter Overlay.is_unlink (trace (snd (VideoProcessor.cleanup (Some p) w)))
  = filter Overlay.is_unlink (trace w) ++ [Unlinked p].
Proof.
  intros Hp Hx. unfold VideoProcessor.cleanup. rewrite Hp.
  unfold bind, fs_existsSync, fs_unlink. rewrite Hx. rewrite Hx.
  cbn [snd trace with_event with_fs]. now rewrite filter_app.
Qed.

(** What [createVideo] does once the assets are there and the title step
    is over: the encoder under its timer; the cleanup follows when the
    encoder has ended, not when the timer fires. *)
Lemma createVideo_after_title E assets outputPath totalDuration tp w1 :
  deadline w1 = None ->
  let args := VideoProcessor.video_args assets outputPath totalDuration tp in
  let a := run E "ffmpeg" args in
  exists w',
    (r <- VideoProcessor.spawn_within E VideoProcessor.ffmpeg_limit "ffmpeg" args ;;
     match r with
     | None => throw "Video creation timed out after 5 minutes"
     | Some a =>
         VideoProcessor.cleanup tp ;;;
         match exit_of a with
         | Close code =>
             if (code =? 0)%Z then ret outputPath
             else throw (VideoProcessor.explain code (stderr a))
         | ProcError message => throw ("Failed to start FFmpeg: " ++ message)%string
         end
     end) w1
    = (if (VideoProcessor.ffmpeg_limit <? elapsed a)%N
       then Throw "Video creation timed out after 5 minutes"
       else match exit_of a with
            | Close code =>
                if (code =? 0)%Z then Ok outputPath
                else Throw (VideoProcessor.explain code (stderr a))
            | ProcError message => Throw ("Failed to start FFmpeg: " ++ message)%string
            end, w')
    /\ (clock w' <= clock w1 + VideoProcessor.ffmpeg_limit)%N
    /\ w' = if (VideoProcessor.ffmpeg_limit <? elapsed a)%N
            then with_clock (clock w1 + VideoProcessor.ffmpeg_limit)%N
                            (with_event (Spawned "ffmpeg" args) w1)
            else snd (VideoProcessor.cleanup tp (after_spawn E "ffmpeg" args w1)).
Proof.
  intros Hd args a. unfold bind at 1.
  rewrite (spawn_within_free E _ _ _ w1 Hd). fold a.
  destruct (N.ltb_spec VideoProcessor.ffmpeg_limit (elapsed a)) as [Hlong|Hshort].
  - eexists. split; [reflexivity|]. split; [|reflexivity].
    cbn [clock with_clock with_event]. lia.
  - set (w2 := after_spawn E "ffmpeg" args w1).
    destruct (cleanup_clock tp w2) as [w' [Hc Hk]].
    exists w'. unfold bind. rewrite Hc. split; [|split].
    + destruct (exit_of a) as [code|e]; [destruct (code =? 0)%Z|]; reflexivity.
    + rewrite Hk. unfold w2, after_spawn. cbn [clock with_fs with_clock with_event].
      fold a. lia.
    + reflexivity.
Qed.

(** The whole call, once the assets are there. *)
Lemma createVideo_runs E assets outputPath totalDuration subtitles videoTopic
      textFont textColor w :
  deadline w = None ->
  images assets <> [] ->
  audioSegments assets <> [] ->
  let titlePagePath := path_join (dirname outputPath) "title_page.png" in
  let tp := match VideoProcessor.truthy_string videoTopic with
            | Some topic =>
                match exit_of (run E "ffmpeg"
                                 (VideoProcessor.title_args topic titlePagePath)) with
                | Close code => if (code =? 0)%Z then Some titlePagePath else None
                | ProcError _ => None
                end
            | None => None
            end in
  let w1 := match VideoProcessor.truthy_string videoTopic with
            | Some topic =>
                after_spawn E "ffmpeg" (VideoProcessor.title_args topic titlePagePath) w
            | None => w
            end in
  let args := VideoProcessor.video_args assets outputPath totalDuration tp in
  let a := run E "ffmpeg" args in
  exists w',
    VideoProcessor.createVideo E assets outputPath totalDuration subtitles videoTopic
                               textFont textColor w
    = (if (VideoProcessor.ffmpeg_limit <? elapsed a)%N
       then Throw "Video creation timed out after 5 minutes"
       else match exit_of a with
            | Close code =>
                if (code =? 0)%Z then Ok outputPath
                else Throw (VideoProcessor.explain code (stderr a))
            | ProcError message => Throw ("Failed to start FFmpeg: " ++ message)%string
            end, w')
    /\ (clock w'
        <= clock w
           + match VideoProcessor.truthy_string videoTopic with
             | Some topic =>
                 elapsed (run E "ffmpeg" (VideoProcessor.title_args topic titlePagePath))
             | None => 0
             end
           + VideoProcessor.ffmpeg_limit)%N
    /\ w' = if (VideoProcessor.ffmpeg_limit <? elapsed a)%N
            then with_clock (clock w1 + VideoProcessor.ffmpeg_limit)%N
                            (with_event (Spawned "ffmpeg" args) w1)
            else snd (VideoProcessor.cleanup tp (after_spawn E "ffmpeg" args w1)).
Proof.
  intros Hd Hi Ha titlePagePath tp w1 args a.
  unfold VideoProcessor.createVideo.
  destruct (images assets) as [|i0 ri] eqn:Himg; [congruence|].
  destruct (audioSegments assets) as [|a0 ra] eqn:Haud; [congruence|].
  cbn [List.length Nat.eqb orb]. subst a args w1 tp.
  destruct (VideoProcessor.truthy_string videoTopic) as [topic|].
  - unfold bind at 1. rewrite (createTitlePage_free E _ _ w Hd). fold titlePagePath.
    set (tp := match exit_of _ with Close _ => _ | ProcError _ => None end).
    set (w1 := after_spawn E "ffmpeg" _ w).
    assert (Hd1 : deadline w1 = None) by exact Hd.
    destruct (createVideo_after_title E assets outputPath totalDuration tp w1 Hd1)
      as [w' [Hrun [Hclock Hw]]].
    exists w'. split; [exact Hrun|]. split; [|exact Hw].
    unfold w1, after_spawn in Hclock. cbn [clock with_fs with_clock with_event] in Hclock.
    exact Hclock.
  - unfold bind at 1. unfold ret at 1.
    destruct (createVideo_after_title E assets outputPath totalDuration None w Hd)
      as [w' [Hrun [Hclock Hw]]].
    exists w'. split; [exact Hrun|]. split; [lia|exact Hw].
Qed.

(** X14: a title page that was drawn is unlinked when the encoder ends,
    not when the timer fires.  When the encoder ends within five minutes,
    whatever its exit, the cleanup has asked for [title_page.png] to be
    unlinked by the time [createVideo] settles; when the five-minute
    timer fires first, [createVideo] rejects with the message of the
    timeout while the title page is still on the disk and no unlink has
    been asked for.  The call resolves with the output path exactly when
    the encoder ends within five minutes with exit code 0. *)
Theorem X14_title_page_unlinked_unless_timed_out :
  forall (E : env) (assets : VideoAssets) (outputPath : string) (totalDuration : Q)
         (subtitles : option Subtitles) (videoTopic textFont textColor : option string)
         (topic : string) (w : world),
    deadline w = None ->
    images assets <> [] ->
    audioSegments assets <> [] ->
    VideoProcessor.truthy_string videoTopic = Some topic ->
    let titlePagePath := path_join (dirname outputPath) "title_page.png" in
    exit_of (run E "ffmpeg" (VideoProcessor.title_args topic titlePagePath)) = Close 0 ->
    In titlePagePath
       (written (run E "ffmpeg" (VideoProcessor.title_args topic titlePagePath))) ->
    let a := run E "ffmpeg"
               (VideoProcessor.video_args assets outputPath totalDuration
                                          (Some titlePagePath)) in
    let settled := snd (VideoProcessor.createVideo E assets outputPath totalDuration
                          subtitles videoTopic textFont textColor w) in
    fst (VideoProcessor.createVideo E assets outputPath totalDuration
           subtitles videoTopic textFont textColor w)
    = (if (VideoProcessor.ffmpeg_limit <? elapsed a)%N
       then Throw "Video creation timed out after 5 minutes"
       else match exit_of a with
            | Close code =>
                if (code =? 0)%Z then Ok outputPath
                else Throw (VideoProcessor.explain code (stderr a))
            | ProcError message => Throw ("Failed to start FFmpeg: " ++ message)%string
            end)
    /\ ((VideoProcessor.ffmpeg_limit <? elapsed a)%N = true ->
        existsSync titlePagePath (fs settled) = true)
    /\ filter Overlay.is_unlink (trace settled)
       = filter Overlay.is_unlink (trace w)
         ++ (if (VideoProcessor.ffmpeg_limit <? elapsed a)%N then []
             else [Unlinked titlePagePath]).
Proof.
  intros E assets outputPath totalDuration subtitles videoTopic textFont textColor topic w
         Hd Hi Ha Ht titlePagePath Hx Hdrawn a settled. subst settled.
  destruct (createVideo_runs E assets outputPath totalDuration subtitles videoTopic
              textFont textColor w Hd Hi Ha) as [w' [Hrun [_ Hw]]].
  rewrite Ht in Hrun, Hw. fold titlePagePath in Hrun, Hw.
  rewrite Hx in Hrun, Hw. cbn [Z.eqb] in Hrun, Hw. fold a in Hrun, Hw.
  rewrite Hrun. cbn [fst snd]. split; [reflexivity|].
  set (w1 := after_spawn E "ffmpeg" (VideoProcessor.title_args topic titlePagePath) w)
    in *.
  assert (Hthere : existsSync titlePagePath (fs w1) = true).
  { unfold w1, after_spawn. cbn [fs with_fs with_clock with_event].
    now apply existsSync_written. }
  assert (Hu1 : filter Overlay.is_unlink (trace w1) = filter Overlay.is_unlink (trace w))
    by apply unlinks_after_spawn.
  destruct (VideoProcessor.ffmpeg_limit <? elapsed a)%N; subst w'.
  - cbn [fs trace with_clock with_event]. split; [intros _; exact Hthere|].
    rewrite filter_app, Hu1. reflexivity.
  - set (w2 := after_spawn E "ffmpeg" _ w1).
    assert (Hthere2 : existsSync titlePagePath (fs w2) = true).
    { unfold w2, after_spawn. cbn [fs with_fs with_clock with_event].
      now apply existsSync_writes. }
    rewrite (cleanup_unlinks titlePagePath w2 (title_path_truthy _) Hthere2).
    split; [discriminate|].
    unfold w2. now rewrite unlinks_after_spawn, Hu1.
Qed.

Lemma X14_title_page_unlinked_unless_timed_out_witness :
  fst (VideoProcessor.createVideo Scenario.slow_render Scenario.some_assets
         "/app/temp/out.mp4" 30 None (Some "Volcanoes"%string) None None
         Scenario.with_media)
  = Throw "Video creation timed out after 5 minutes"
  /\ ((VideoProcessor.ffmpeg_limit
        <? elapsed (run Scenario.slow_render "ffmpeg"
                      (VideoProcessor.video_args Scenario.some_assets "/app/temp/out.mp4"
                         30 (Some (path_join (dirname "/app/temp/out.mp4")
                                             "title_page.png")))))%N = true ->
      existsSync (path_join (dirname "/app/temp/out.mp4") "title_page.png")
        (fs (snd (VideoProcessor.createVideo Scenario.slow_render Scenario.some_assets
                    "/app/temp/out.mp4" 30 None (Some "Volcanoes"%string) None None
                    Scenario.with_media))) = true)
  /\ filter Overlay.is_unlink
       (trace (snd (VideoProcessor.createVideo Scenario.slow_render Scenario.some_assets
                      "/app/temp/out.mp4" 30 None (Some "Volcanoes"%string) None None
                      Scenario.with_media)))
     = filter Overlay.is_unlink (trace Scenario.with_media) ++ [].
Proof.
  refine (X14_title_page_unlinked_unless_timed_out Scenario.slow_render
            Scenario.some_assets "/app/temp/out.mp4" 30 None (Some "Volcanoes"%string)
            None None "Volcanoes" Scenario.with_media eq_refl _ _ eq_refl eq_refl _).
  - discriminate.
  - discriminate.
  - vm_compute. now left.
Defined.

(** X15: [createVideo] never waits for the encoder longer than five
    minutes.  When a call with images and audio settles, the clock has
    advanced by at most the time the title page took (none without a
    topic) plus five minutes, however long the encoder would have run. *)
Theorem X15_encoder_wait_is_bounded :
  forall (E : env) (assets : VideoAssets) (outputPath : string) (totalDuration : Q)
         (subtitles : option Subtitles) (videoTopic textFont textColor : option string)
         (w : world),
    deadline w = None ->
    images assets <> [] ->
    audioSegments assets <> [] ->
    (clock (snd (VideoProcessor.createVideo E assets outputPath totalDuration
                   subtitles videoTopic textFont textColor w))
     <= clock w
        + match VideoProcessor.truthy_string videoTopic with
          | Some topic =>
              elapsed (run E "ffmpeg"
                         (VideoProcessor.title_args topic
                            (path_join (dirname outputPath) "title_page.png")))
          | None => 0
          end
        + VideoProcessor.ffmpeg_limit)%N.
Proof.
  intros E assets outputPath totalDuration subtitles videoTopic textFont textColor w
         Hd Hi Ha.
  destruct (createVideo_runs E assets outputPath totalDuration subtitles videoTopic
              textFont textColor w Hd Hi Ha) as [w' [Hrun [Hclock _]]].
  rewrite Hrun. exact Hclock.
Qed.

Lemma X15_encoder_wait_is_bounded_witness :
  (clock (snd (VideoProcessor.createVideo Scenario.slow_render Scenario.some_assets
                 "/app/temp/out.mp4" 30 None None None None Scenario.with_media))
   <= clock Scenario.with_media + 0 + VideoProcessor.ffmpeg_limit)%N.
Proof.
  refine (X15_encoder_wait_is_bounded Scenario.slow_render Scenario.some_assets
            "/app/temp/out.mp4" 30 None None None None Scenario.with_media eq_refl _ _).
  - discriminate.
  - discriminate.
Defined.

(** ** Removal of temporary files *)

Lemma existsSync_remove p q f :
  existsSync p (remove_file q f) = (existsSync p f && negb (String.eqb p q))%bool.
Proof.
  destruct (String.eqb_spec p q) as [->|Hne].
  - rewrite existsSync_remove_same. now rewrite andb_false_r.
  - rewrite andb_true_r. apply existsSync_remove_other.
    destruct (String.eqb_spec q p); [congruence|reflexivity].
Qed.

Lemma fs_unlink_effect q w :
  exists w',
    fs_unlink q w = (Ok tt, w')
    /\ (forall p, existsSync p (fs w')
                  = (existsSync p (fs w) && negb (String.eqb p q))%bool)
    /\ videos w' = videos w /\ clock w' = clock w /\ deadline w' = deadline w
    /\ spawns (trace w') = spawns (trace w).
Proof.
  unfold fs_unlink. destruct (existsSync q (fs w)) eqn:Hq.
  - eexists. split; [reflexivity|]. cbn [fs videos clock deadline trace with_event with_fs].
    split; [intros p; apply existsSync_remove|].
    repeat split. rewrite spawns_app. apply app_nil_r.
  - exists w. split; [reflexivity|]. split; [|repeat split].
    intros p. destruct (String.eqb_spec p q) as [->|_].
    + now rewrite Hq.
    + now rewrite andb_true_r.
Qed.

Lemma cleanupTempFiles_effect l : forall w,
  exists w',
    VideoProcessor.cleanupTempFiles l w = (Ok tt, w')
    /\ (forall p, existsSync p (fs w')
                  = (existsSync p (fs w) && negb (existsb (String.eqb p) l))%bool)
    /\ videos w' = videos w /\ clock w' = clock w /\ deadline w' = deadline w
    /\ spawns (trace w') = spawns (trace w).
Proof.
  induction l as [|q r IH]; intros w; cbn [VideoProcessor.cleanupTempFiles].
  - exists w. split; [reflexivity|]. split; [|repeat split].
    intros p. cbn. now rewrite andb_true_r.
  - unfold bind at 1.
    destruct (fs_unlink_effect q w) as [w1 [H1 [F1 [V1 [C1 [D1 T1]]]]]]. rewrite H1.
    destruct (IH w1) as [w' [H2 [F2 [V2 [C2 [D2 T2]]]]]]. exists w'.
    split; [exact H2|]. split; [|repeat split; congruence].
    intros p. rewrite F2, F1. cbn [existsb]. rewrite negb_orb, andb_assoc. reflexivity.
Qed.

Lemma cleanupTempFiles_nothing l : forall w,
  (forall p, In p l -> existsSync p (fs w) = false) ->
  VideoProcessor.cleanupTempFiles l w = (Ok tt, w).
Proof.
  induction l as [|q r IH]; intros w H; cbn [VideoProcessor.cleanupTempFiles];
    [reflexivity|].
  unfold bind, fs_unlink. rewrite (H q (or_introl eq_refl)).
  apply IH. intros p Hp. apply H. now right.
Qed.

(** X16: the removal of temporary files never fails and removes exactly
    the listed files: afterwards a file is on the disk if and only if it
    was there before and is not in the list, whether or not the listed
    files existed; the video rows and the clock are untouched, no process
    is started, and running the removal again changes nothing. *)
Theorem X16_cleanup_removes_exactly_the_listed_files :
  forall (filePaths : list string) (w : world),
    exists w',
      VideoProcessor.cleanupTempFiles filePaths w = (Ok tt, w')
      /\ (forall p, existsSync p (fs w')
                    = (existsSync p (fs w)
                       && negb (existsb (String.eqb p) filePaths))%bool)
      /\ videos w' = videos w
      /\ clock w' = clock w
      /\ spawns (trace w') = spawns (trace w)
      /\ VideoProcessor.cleanupTempFiles filePaths w' = (Ok tt, w').
Proof.
  intros filePaths w.
  destruct (cleanupTempFiles_effect filePaths w) as [w' [H [F [V [C [_ T]]]]]].
  exists w'. repeat split; try assumption.
  apply cleanupTempFiles_nothing. intros p Hp. rewrite F.
  assert (Hin : existsb (String.eqb p) filePaths = true).
  { apply existsb_exists. exists p. split; [exact Hp|apply String.eqb_refl]. }
  rewrite Hin. apply andb_false_r.
Qed.

(** ** The Revideo attempt *)

Lemma prefix_join dir name : String.prefix (dir ++ "/") (path_join dir name) = true.
Proof.
  unfold path_join. induction dir as [|c a IH].
  - cbn. destruct (Ascii.ascii_dec "/" "/"); [|congruence]. now destruct name.
  - cbn. destruct (Ascii.ascii_dec c c); [exact IH|congruence].
Qed.

Lemma existsSync_filter p (keep : string -> bool) f :
  existsSync p (filter keep f) = (existsSync p f && keep p)%bool.
Proof.
  unfold existsSync. induction f as [|x r IH]; [reflexivity|].
  cbn [filter existsb]. destruct (keep x) eqn:Hx; cbn [existsb]; rewrite IH.
  - destruct (String.eqb_spec p x) as [->|_]; [now rewrite Hx|reflexivity].
  - destruct (String.eqb_spec p x) as [->|_]; [now rewrite Hx, andb_false_r|reflexivity].
Qed.

(** X17: the Revideo renderer removes its project directory only when the
    render succeeds.  After a successful render neither the directory
    [revideo-project] nor the generated [project.ts] is on the disk; when
    Chrome is missing or the render fails, the error is passed on and the
    generated [project.ts] is left behind. *)
Theorem X17_project_directory_removed_on_success_only :
  forall (E : env) (o : Revideo.RevideoRenderOptions) (w : world),
    deadline w = None ->
    let projectDir := path_join (dirname (Revideo.outputPath o)) "revideo-project" in
    let projectPath := path_join projectDir "project.ts" in
    let w' := snd (Revideo.renderVideoWithRevideo E o w) in
    if has_chrome E then
      match value (renderVideo E projectPath (Revideo.outputPath o)) with
      | inl _ =>
          fst (Revideo.renderVideoWithRevideo E o w) = Ok tt
          /\ existsSync projectDir (fs w') = false
          /\ existsSync projectPath (fs w') = false
      | inr e =>
          fst (Revideo.renderVideoWithRevideo E o w) = Throw e
          /\ existsSync projectPath (fs w') = true
      end
    else
      fst (Revideo.renderVideoWithRevideo E o w) = Throw Revideo.missing_dependencies
      /\ existsSync projectPath (fs w') = true.
Proof.
  intros E o w Hd projectDir projectPath w'. subst w'.
  assert (Hwritten : forall w0 : world,
             existsSync projectPath (fs (with_event (Wrote projectPath None)
                                           (with_fs (write_file projectPath) w0))) = true).
  { intros w0. cbn [fs with_event with_fs]. rewrite existsSync_write, String.eqb_refl.
    reflexivity. }
  unfold Revideo.renderVideoWithRevideo, Revideo.renderWithProgrammaticAPI,
    Revideo.checkSystemDependencies. cbv zeta. fold projectDir. fold projectPath.
  unfold try_catch, bind, fs_existsSync, fs_mkdirSync, fs_writeFileSync, ret, throw, call.
  destruct (has_chrome E); cbn [negb].
  - destruct (existsSync projectDir (fs w)) eqn:Hdir; cbn [negb];
      rewrite await_free by exact Hd;
      destruct (value (renderVideo E projectPath (Revideo.outputPath o))) as [out|e];
      cbn [fst snd].
    + match goal with
      | |- context [existsSync projectDir (fs ?x)] =>
          destruct (existsSync projectDir (fs x)) eqn:Hstill
      end; cbn [fst snd].
      * unfold fs_rmSync. cbn [fst snd fs with_fs]. split; [reflexivity|].
        rewrite !existsSync_filter. split.
        -- rewrite String.eqb_refl. cbn. apply andb_false_r.
        -- rewrite (prefix_join projectDir "project.ts"
                     : String.prefix (projectDir ++ "/") projectPath = true), orb_true_r.
           cbn. apply andb_false_r.
      * exfalso. cbn [fs with_fs with_clock with_event] in Hstill.
        rewrite existsSync_writes in Hstill; [discriminate|].
        rewrite existsSync_write, Hdir. apply orb_true_r.
    + split; [reflexivity|]. cbn [fs with_fs with_clock].
      apply existsSync_writes. apply Hwritten.
    + match goal with
      | |- context [existsSync projectDir (fs ?x)] =>
          destruct (existsSync projectDir (fs x)) eqn:Hstill
      end; cbn [fst snd].
      * unfold fs_rmSync. cbn [fst snd fs with_fs]. split; [reflexivity|].
        rewrite !existsSync_filter. split.
        -- rewrite String.eqb_refl. cbn. apply andb_false_r.
        -- rewrite (prefix_join projectDir "project.ts"
                     : String.prefix (projectDir ++ "/") projectPath = true), orb_true_r.
           cbn. apply andb_false_r.
      * exfalso. cbn [fs with_fs with_clock with_event] in Hstill.
        rewrite existsSync_writes in Hstill; [discriminate|].
        rewrite existsSync_write.
        destruct (String.eqb_spec projectDir projectPath); [reflexivity|].
        cbn [orb]. rewrite existsSync_write, String.eqb_refl. reflexivity.
    + split; [reflexivity|]. cbn [fs with_fs with_clock].
      apply existsSync_writes. apply Hwritten.
  - destruct (existsSync projectDir (fs w)); cbn [negb fst snd];
      (split; [reflexivity|apply Hwritten]).
Qed.

Lemma X17_project_directory_removed_on_success_only_witness :
  fst (Revideo.renderVideoWithRevideo Scenario.fine
         (Revideo.mkRenderOptions [] Scenario.three_images "/app/temp/final_audio.wav"
            "/app/temp/out.mp4" "yellow" "Arial" "Volcanoes" 30)
         Scenario.with_media) = Ok tt
  /\ existsSync "/app/temp/revideo-project"
       (fs (snd (Revideo.renderVideoWithRevideo Scenario.fine
                   (Revideo.mkRenderOptions [] Scenario.three_images
                      "/app/temp/final_audio.wav" "/app/temp/out.mp4" "yellow" "Arial"
                      "Volcanoes" 30)
                   Scenario.with_media))) = false
  /\ existsSync "/app/temp/revideo-project/project.ts"
       (fs (snd (Revideo.renderVideoWithRevideo Scenario.fine
                   (Revideo.mkRenderOptions [] Scenario.three_images
                      "/app/temp/final_audio.wav" "/app/temp/out.mp4" "yellow" "Arial"
                      "Volcanoes" 30)
                   Scenario.with_media))) = false.
Proof.
  exact (X17_project_directory_removed_on_success_only Scenario.fine
           (Revideo.mkRenderOptions [] Scenario.three_images "/app/temp/final_audio.wav"
              "/app/temp/out.mp4" "yellow" "Arial" "Volcanoes" 30)
           Scenario.with_media eq_refl).
Defined.

(** ** The generation routine: outcome and stored status *)

Lemma bind_ok_inv {A B} (m : M A) (k : A -> M B) w b w2 :
  bind m k w = (Ok b, w2) ->
  exists a w1, m w = (Ok a, w1) /\ k a w1 = (Ok b, w2).
Proof.
  unfold bind. destruct (m w) as [[a|e|] w1]; intros H; try discriminate H.
  now exists a, w1.
Qed.




(** ** The script step *)

Lemma at_start_fields E w :
  clock (at_start E w) = clock w
  /\ deadline (at_start E w) = Some (clock w + Routes.generation_limit)%N
  /\ trace (at_start E w) = trace w
  /\ tempFiles (at_start E w) = [].
Proof.
  unfold at_start, VideoProcessor.ensureTempDirectory, bind, fs_existsSync, fs_mkdirSync, ret.
  destruct (existsSync _ (fs w)); cbn; repeat split.
Qed.

Lemma call_in_time {A} (r : reply A) w :
  in_time (took r) w ->
  call r w
  = (match value r with inl a => Ok a | inr e => Throw e end,
     with_fs (write_files (wrote r)) (with_clock (clock w + took r)%N w)).
Proof.
  unfold in_time, call, await. intros H.
  destruct (deadline w) as [d|].
  - destruct (N.ltb_spec d (clock w + took r)) as [Hlt|_]; [lia|].
    destruct (value r); reflexivity.
  - destruct (value r); reflexivity.
Qed.

(** X19: what an error of the script service does to the job.  An error
    whose message mentions [quota] is absorbed: the script step returns
    the script of the fallback generator and the generation goes on.  Any
    other error fails the job with that very message before anything is
    produced: no process is spawned, no file is written by the routine
    and no temporary file is registered. *)
Theorem X19_script_error_policy :
  forall (E : env) (videoId : string) (video : Schema.Video) (w : world)
         (message : string),
    Routes.lookup videoId (videos w) = Some video ->
    let language := or_default (Schema.language video) "english" in
    let reply := generateScript E (Schema.topic video) (Schema.duration video) language in
    value reply = inr message ->
    (took reply <= Routes.generation_limit)%N ->
    if includes "quota" message
    then fst (Routes.script_step E video (at_start E w))
         = Ok (generateFallbackScript E (Schema.topic video) (Schema.duration video)
                                      language)
    else fst (Routes.generateVideoContent E videoId w) = Throw message
         /\ trace (snd (Routes.generateVideoContent E videoId w)) = trace w
         /\ tempFiles (snd (Routes.generateVideoContent E videoId w)) = [].
Proof.
  intros E videoId video w message Hfound language reply Hval Htook.
  destruct (at_start_fields E w) as [Hc [Hd [Ht Hf]]].
  assert (Htime : in_time (took reply) (at_start E w)).
  { unfold in_time. rewrite Hd, Hc. lia. }
  assert (Hstep : Routes.script_step E video (at_start E w)
                  = (if includes "quota" message
                     then Ok (generateFallbackScript E (Schema.topic video)
                                (Schema.duration video) language)
                     else Throw message,
                     with_fs (write_files (wrote reply))
                             (with_clock (clock (at_start E w) + took reply)%N
                                         (at_start E w)))).
  { unfold Routes.script_step. cbv zeta. fold language. fold reply.
    unfold try_catch. rewrite (call_in_time reply _ Htime), Hval.
    destruct (includes "quota" message); reflexivity. }
  destruct (includes "quota" message) eqn:Hq; [now rewrite Hstep|].
  set (w2 := with_fs _ _) in Hstep.
  assert (Hgen : Routes.generationPromise E video (tempDir_of E) videoId (at_start E w)
                 = (Throw message, w2)).
  { unfold Routes.generationPromise. unfold bind at 1. now rewrite Hstep. }
  rewrite (generateVideoContent_found E videoId video w Hfound), Hgen.
  destruct (on_failure_runs videoId message (with_deadline (deadline w) w2))
    as [w' [Hrun [_ [Htemp _]]]].
  assert (Hw' : w' = snd (Routes.on_failure videoId message (with_deadline (deadline w) w2)))
    by now rewrite Hrun.
  rewrite Hrun. cbn [fst snd]. split; [reflexivity|].
  split; [|rewrite Htemp; exact Hf].
  rewrite Hw'. unfold Routes.on_failure, bind, Routes.updateVideo, Routes.read_tempFiles.
  replace (tempFiles w2) with (@nil string) by (symmetry; exact Hf).
  cbn. exact Ht.
Qed.

Lemma X19_script_error_policy_witness :
  fst (Routes.generateVideoContent (Outage.script_fails "Invalid API key") "v1"
         Scenario.start)
  = Throw "Invalid API key"
  /\ trace (snd (Routes.generateVideoContent (Outage.script_fails "Invalid API key") "v1"
                   Scenario.start))
     = trace Scenario.start
  /\ tempFiles (snd (Routes.generateVideoContent (Outage.script_fails "Invalid API key")
                       "v1" Scenario.start))
     = [].
Proof.
  refine (X19_script_error_policy (Outage.script_fails "Invalid API key") "v1"
            Scenario.video1 Scenario.start "Invalid API key" eq_refl eq_refl _).
  vm_compute. discriminate.
Defined.

(** ** What a finished job has stored and registered *)

Lemma temp_ret {A} (a : A) : Bookkeeping.keeps_temp (ret a).
Proof. intros w r w' H. injection H as _ <-. reflexivity. Qed.

Lemma temp_throw {A} (e : string) : Bookkeeping.keeps_temp (@throw A e).
Proof. intros w r w' H. injection H as _ <-. reflexivity. Qed.

Lemma temp_bind {A B} (m : M A) (k : A -> M B) :
  Bookkeeping.keeps_temp m -> (forall a, Bookkeeping.keeps_temp (k a)) ->
  Bookkeeping.keeps_temp (bind m k).
Proof.
  intros Hm Hk w r w' H. unfold bind in H.
  destruct (m w) as [[a|e|] w1] eqn:Hmw.
  - rewrite (Hk a w1 r w' H). exact (Hm w _ w1 Hmw).
  - injection H as _ <-. exact (Hm w _ w1 Hmw).
  - injection H as _ <-. exact (Hm w _ w1 Hmw).
Qed.

Lemma temp_try {A} (m : M A) (h : string -> M A) :
  Bookkeeping.keeps_temp m -> (forall e, Bookkeeping.keeps_temp (h e)) ->
  Bookkeeping.keeps_temp (try_catch m h).
Proof.
  intros Hm Hh w r w' H. unfold try_catch in H.
  destruct (m w) as [[a|e|] w1] eqn:Hmw.
  - injection H as _ <-. exact (Hm w _ w1 Hmw).
  - rewrite (Hh e w1 r w' H). exact (Hm w _ w1 Hmw).
  - injection H as _ <-. exact (Hm w _ w1 Hmw).
Qed.

Lemma temp_await {A} (ms : N) (k : M A) :
  Bookkeeping.keeps_temp k -> Bookkeeping.keeps_temp (await ms k).
Proof.
  intros Hk w r w' H. unfold await in H.
  destruct (deadline w) as [d|].
  - destruct (d <? clock w + ms)%N.
    + injection H as _ <-. reflexivity.
    + exact (Hk _ r w' H).
  - exact (Hk _ r w' H).
Qed.

Lemma temp_local {A} (m : M A) :
  (forall w, tempFiles (snd (m w)) = tempFiles w) -> Bookkeeping.keeps_temp m.
Proof. intros Hm w r w' H. specialize (Hm w). rewrite H in Hm. exact Hm. Qed.

Lemma temp_spawn E tool args : Bookkeeping.keeps_temp (spawn E tool args).
Proof.
  intros w r w' H. unfold spawn in H.
  assert (K : Bookkeeping.keeps_temp
                (fun w0 : world =>
                   (Ok (run E tool args),
                    with_fs (write_files (written (run E tool args))) w0)))
    by (apply temp_local; reflexivity).
  exact (temp_await _ _ K _ _ _ H).
Qed.

Lemma temp_call {A} (r : reply A) : Bookkeeping.keeps_temp (call r).
Proof.
  unfold call. apply temp_await. apply temp_local. intros w.
  destruct (value r); reflexivity.
Qed.

Lemma temp_updateVideo videoId change :
  Bookkeeping.keeps_temp (Routes.updateVideo videoId change).
Proof. apply temp_local. reflexivity. Qed.

Lemma temp_for_of {A} (body : A -> M unit) l :
  (forall x, Bookkeeping.keeps_temp (body x)) ->
  Bookkeeping.keeps_temp (EnhancedVideoProcessor.for_of body l).
Proof.
  intros Hb. induction l as [|x r IH]; cbn [for_of].
  - apply temp_ret.
  - apply temp_bind; [apply Hb|intros _; exact IH].
Qed.

(** The routine steps of a proof that nothing is registered. *)
Ltac temp_step :=
  first
    [ apply temp_ret
    | apply temp_throw
    | apply temp_spawn
    | apply temp_call
    | apply temp_updateVideo
    | apply temp_bind; [|intros ?]
    | apply temp_try; [|intros ?]
    | apply temp_for_of; intros ?
    | (apply temp_local; intros ?;
       cbv [fs_existsSync fs_unlinkSync fs_unlink fs_writeFileSync fs_mkdirSync
            fs_rmSync fs_createWriteStream fs_statSync_size];
       repeat match goal with
              | |- context [if ?b then _ else _] => destruct b
              end;
       reflexivity)
    | match goal with
      | |- Bookkeeping.keeps_temp (match ?x with _ => _ end) => destruct x
      | |- Bookkeeping.keeps_temp (if ?b then _ else _) => destruct b
      | |- Bookkeeping.keeps_temp (let _ := _ in _) => cbv zeta
      end ].

Ltac temp := repeat temp_step.

Lemma temp_createVideo E assets out D sub t f c :
  Bookkeeping.keeps_temp (EnhancedVideoProcessor.createVideo E assets out D sub t f c).
Proof.
  unfold EnhancedVideoProcessor.createVideo.
  destruct (_ || _)%bool; [apply temp_throw|].
  apply temp_try; [|intros ?; apply temp_throw].
  cbv zeta. apply temp_bind.
  { unfold EnhancedVideoProcessor.processAudio, check_audio, unlink_quietly. temp. }
  intros _. apply temp_bind; [|intros _; apply temp_ret].
  unfold EnhancedVideoProcessor.createAdvancedVideo, check_image. temp.
Qed.

Lemma temp_downloadImage E url out :
  Bookkeeping.keeps_temp (EnhancedVideoProcessor.downloadImage E url out).
Proof. unfold EnhancedVideoProcessor.downloadImage. temp. Qed.

Lemma temp_timing_from E paths : forall rest i t acc,
  Bookkeeping.keeps_temp (Routes.timing_from E paths i rest t acc).
Proof.
  induction rest as [|seg r IH]; intros i t acc; cbn [Routes.timing_from].
  - apply temp_ret.
  - apply temp_bind; [|intros ?; apply IH].
    unfold Routes.duration_for, Routes.getAudioDuration. temp.
Qed.

Lemma push_tempFile_ok p w r w' :
  Routes.push_tempFile p w = (r, w') -> r = Ok tt /\ tempFiles w' = tempFiles w ++ [p].
Proof. intros H. injection H as <- <-. split; reflexivity. Qed.

Lemma images_from_ok E video tempDir videoId : forall rest i acc w l w',
  Routes.images_from E video tempDir videoId i rest acc w = (Ok l, w') ->
  l = acc ++ map (Routes.imagePath_of tempDir videoId) (seq i (List.length rest))
  /\ tempFiles w'
     = tempFiles w ++ map (Routes.imagePath_of tempDir videoId) (seq i (List.length rest)).
Proof.
  induction rest as [|seg r IH]; intros i acc w l w' H; cbn [Routes.images_from] in H.
  - injection H as <- <-. cbn. now rewrite !app_nil_r.
  - cbv zeta in H.
    apply bind_ok_inv in H. destruct H as [url [w1 [H1 H]]].
    apply bind_ok_inv in H. destruct H as [u2 [w2 [H2 H]]].
    apply bind_ok_inv in H. destruct H as [u3 [w3 [H3 H]]].
    apply IH in H. destruct H as [Hl Ht].
    apply push_tempFile_ok in H3. destruct H3 as [_ H3].
    apply temp_downloadImage in H2.
    assert (T1 : tempFiles w1 = tempFiles w).
    { revert H1. destruct (String.eqb _ _); apply temp_call. }
    cbn [List.length seq map]. split.
    + rewrite Hl, <- app_assoc. reflexivity.
    + rewrite Ht, H3, H2, T1, <- app_assoc. reflexivity.
Qed.

Lemma audio_from_ok E video tempDir videoId : forall rest i acc w l w',
  Routes.audio_from E video tempDir videoId i rest acc w = (Ok l, w') ->
  l = acc ++ map (Routes.audioPath_of tempDir videoId) (seq i (List.length rest))
  /\ tempFiles w'
     = tempFiles w ++ map (Routes.audioPath_of tempDir videoId) (seq i (List.length rest)).
Proof.
  induction rest as [|seg r IH]; intros i acc w l w' H; cbn [Routes.audio_from] in H.
  - injection H as <- <-. cbn. now rewrite !app_nil_r.
  - cbv zeta in H.
    apply bind_ok_inv in H. destruct H as [u1 [w1 [H1 H]]].
    apply bind_ok_inv in H. destruct H as [u2 [w2 [H2 H]]].
    apply IH in H. destruct H as [Hl Ht].
    apply push_tempFile_ok in H2. destruct H2 as [_ H2].
    apply temp_call in H1.
    cbn [List.length seq map]. split.
    + rewrite Hl, <- app_assoc. reflexivity.
    + rewrite Ht, H2, H1, <- app_assoc. reflexivity.
Qed.

(** X20: a job that completes has stored and registered exactly one
    image and one audio clip per script segment, in script order.  With
    [n] the number of segments the script step returned, the assets of
    the row are the files [image-id-i.jpg] and [audio-id-i.mp3] for
    [i = 0 .. n-1], and the registered temporary files are these images
    followed by these clips. *)
Theorem X20_assets_follow_the_script :
  forall (E : env) (videoId : string) (video : Schema.Video) (w : world),
    Routes.lookup videoId (videos w) = Some video ->
    fst (Routes.generateVideoContent E videoId w) = Ok tt ->
    exists segs v',
      fst (Routes.script_step E video (at_start E w)) = Ok segs
      /\ Routes.lookup videoId (videos (snd (Routes.generateVideoContent E videoId w)))
         = Some v'
      /\ Schema.assets v'
         = Some (Bookkeeping.image_files (tempDir_of E) videoId (List.length segs),
                 Bookkeeping.audio_files (tempDir_of E) videoId (List.length segs))
      /\ tempFiles (snd (Routes.generateVideoContent E videoId w))
         = Bookkeeping.image_files (tempDir_of E) videoId (List.length segs)
           ++ Bookkeeping.audio_files (tempDir_of E) videoId (List.length segs).
Proof.
  intros E videoId video w Hfound.
  rewrite (generateVideoContent_found E videoId video w Hfound).
  destruct (at_start_fields E w) as [_ [_ [_ Hf]]].
  assert (Hstart : Routes.lookup videoId (videos (at_start E w)) = Some video)
    by (now rewrite at_start_videos).
  destruct (Routes.generationPromise E video (tempDir_of E) videoId (at_start E w))
    as [[[]|e|] w2] eqn:Hrun.
  2:{ destruct (on_failure_runs videoId e (with_deadline (deadline w) w2)) as [w' [H _]].
      rewrite H. discriminate. }
  2:{ destruct (on_failure_runs videoId Routes.timeout_message
                  (with_deadline (deadline w) w2)) as [w' [H _]].
      rewrite H. discriminate. }
  intros _. cbn [fst snd videos tempFiles with_deadline].
  pose proof (keeps_generationPromise E video _ videoId _ _ _ Hrun) as Hkeys.
  destruct (lookup_keys videoId _ (videos w2) video Hstart Hkeys) as [v2 Hv2].
  unfold Routes.generationPromise in Hrun.
  apply bind_ok_inv in Hrun. destruct Hrun as [segs [wa [Ha Hrun]]].
  apply bind_ok_inv in Hrun. destruct Hrun as [ub [wb [Hb Hrun]]].
  apply bind_ok_inv in Hrun. destruct Hrun as [imagePaths [wc [Hc Hrun]]].
  apply bind_ok_inv in Hrun. destruct Hrun as [audioPaths [wd [Hd Hrun]]].
  cbv zeta in Hrun.
  apply bind_ok_inv in Hrun. destruct Hrun as [out [we [He Hrun]]].
  apply bind_ok_inv in Hrun. destruct Hrun as [subtitleData [wf [Hsub Hrun]]].
  assert (Ta : tempFiles wa = []).
  { rewrite <- Hf. revert Ha. unfold Routes.script_step. cbv zeta.
    apply temp_try; [apply temp_call|].
    intros e. destruct (includes _ _); [apply temp_ret|apply temp_throw]. }
  apply temp_updateVideo in Hb.
  apply images_from_ok in Hc. destruct Hc as [Hi Tc].
  apply audio_from_ok in Hd. destruct Hd as [Hau Td].
  apply temp_createVideo in He.
  assert (Tf : tempFiles wf = tempFiles we).
  { revert Hsub. unfold Routes.subtitle_step.
    destruct (_ && _)%bool; [|apply temp_ret].
    apply temp_bind; [apply temp_timing_from|intros ?; apply temp_ret]. }
  unfold Routes.updateVideo in Hrun. injection Hrun as <-.
  cbn [videos with_videos tempFiles] in *. rewrite lookup_updated in Hv2 |- *.
  destruct (Routes.lookup videoId (videos wf)) as [v1|]; [|discriminate Hv2].
  exists segs. eexists. split; [now rewrite Ha|]. split; [reflexivity|].
  cbn [Schema.assets Routes.set_completed app] in *.
  unfold Bookkeeping.image_files, Bookkeeping.audio_files.
  split; [now rewrite Hi, Hau|].
  rewrite Tf, He, Td, Tc, Hb, Ta. reflexivity.
Qed.

Lemma X20_assets_follow_the_script_witness :
  exists segs v',
    fst (Routes.script_step Scenario.fine Scenario.video1
           (at_start Scenario.fine Scenario.start)) = Ok segs
    /\ Routes.lookup "v1"
         (videos (snd (Routes.generateVideoContent Scenario.fine "v1" Scenario.start)))
       = Some v'
    /\ Schema.assets v'
       = Some (Bookkeeping.image_files (tempDir_of Scenario.fine) "v1" (List.length segs),
               Bookkeeping.audio_files (tempDir_of Scenario.fine) "v1" (List.length segs))
    /\ tempFiles (snd (Routes.generateVideoContent Scenario.fine "v1" Scenario.start))
       = Bookkeeping.image_files (tempDir_of Scenario.fine) "v1" (List.length segs)
         ++ Bookkeeping.audio_files (tempDir_of Scenario.fine) "v1" (List.length segs).
Proof.
  refine (X20_assets_follow_the_script Scenario.fine "v1" Scenario.video1 Scenario.start
            eq_refl _).
  vm_compute. reflexivity.
Defined.

(** ** The composition: image and caption of a frame *)







(** ** The fallback script *)

Lemma template_for_length topic : List.length (FallbackScript.template_for topic) = 4%nat.
Proof.
  unfold FallbackScript.template_for. cbv zeta.
  destruct (_ || _ || _)%bool; [reflexivity|].
  destruct (_ || _ || _)%bool; [reflexivity|].
  destruct (_ || _ || _)%bool; reflexivity.
Qed.

Lemma segmentsCount_min duration : (2 <= FallbackScript.segmentsCount duration)%Z.
Proof. unfold FallbackScript.segmentsCount. lia. Qed.

Lemma timed_from tps : forall segs i0,
  map FallbackScript.startTime
      (map (fun p => FallbackScript.timed tps (fst p) (snd p))
           (combine (seq i0 (List.length segs)) segs))
  = map (fun i => inject_Z (Z.of_nat i) * tps) (seq i0 (List.length segs))
  /\ map FallbackScript.endTime
         (map (fun p => FallbackScript.timed tps (fst p) (snd p))
              (combine (seq i0 (List.length segs)) segs))
     = map (fun i => inject_Z (Z.of_nat (i + 1)) * tps) (seq i0 (List.length segs))
  /\ Forall (fun e => FallbackScript.duration e = tps)
            (map (fun p => FallbackScript.timed tps (fst p) (snd p))
                 (combine (seq i0 (List.length segs)) segs))
  /\ FallbackScript.contiguous
       (map (fun p => FallbackScript.timed tps (fst p) (snd p))
            (combine (seq i0 (List.length segs)) segs))
  /\ (forall dflt, segs <> [] ->
        FallbackScript.endTime
          (last (map (fun p => FallbackScript.timed tps (fst p) (snd p))
                     (combine (seq i0 (List.length segs)) segs)) dflt)
        = inject_Z (Z.of_nat (i0 + List.length segs)) * tps).
Proof.
  induction segs as [|s r IH]; intros i0.
  - cbn. repeat split; try constructor. intros dflt H. congruence.
  - destruct (IH (S i0)) as [H1 [H2 [H3 [H4 H5]]]].
    cbn [List.length seq combine map fst snd]. rewrite H1, H2.
    split; [reflexivity|]. split; [reflexivity|].
    split; [constructor; [reflexivity|exact H3]|]. split.
    + destruct r as [|s' r']; [exact I|]. split; [|exact H4].
      cbn. now rewrite Nat.add_1_r.
    + intros dflt _. destruct r as [|s' r'].
      * cbn. now rewrite Nat.add_1_r.
      * specialize (H5 dflt ltac:(discriminate)).
        cbn [List.length seq combine map fst snd last] in H5 |- *.
        rewrite H5. f_equal. f_equal. lia.
Qed.

(** X22: the shape of the fallback script.  For every topic, duration
    and language it has between two and four segments - as many as
    [max(2, floor(duration / 15))] allows, but never more than the four
    its templates hold; segment [i] starts at [i] times the time per
    segment, ends at [i + 1] times it and lasts that time, so each
    segment ends where the next one starts; and the language makes no
    difference to the result. *)
Theorem X22_fallback_script_shape :
  forall (topic : string) (duration : Q) (language : string),
    let script := FallbackScript.generateFallbackScript topic duration language in
    let n := List.length script in
    let tps := FallbackScript.timePerSegment duration in
    n = Z.to_nat (Z.min 4 (FallbackScript.segmentsCount duration))
    /\ (2 <= n <= 4)%nat
    /\ map FallbackScript.startTime script
       = map (fun i => inject_Z (Z.of_nat i) * tps) (seq 0 n)
    /\ map FallbackScript.endTime script
       = map (fun i => inject_Z (Z.of_nat (i + 1)) * tps) (seq 0 n)
    /\ Forall (fun e => FallbackScript.duration e = tps) script
    /\ FallbackScript.contiguous script
    /\ script = FallbackScript.generateFallbackScript topic duration "english".
Proof.
  intros topic duration language script n tps.
  pose proof (segmentsCount_min duration) as Hk.
  assert (Hlen : List.length
                   (firstn (Z.to_nat (FallbackScript.segmentsCount duration))
                           (FallbackScript.template_for topic))
                 = Z.to_nat (Z.min 4 (FallbackScript.segmentsCount duration))).
  { rewrite length_firstn, template_for_length. lia. }
  assert (Hn : n = Z.to_nat (Z.min 4 (FallbackScript.segmentsCount duration))).
  { unfold n, script, FallbackScript.generateFallbackScript. cbv zeta.
    rewrite length_map, length_combine, length_seq, Nat.min_id. exact Hlen. }
  destruct (timed_from tps
              (firstn (Z.to_nat (FallbackScript.segmentsCount duration))
                      (FallbackScript.template_for topic)) 0)
    as [H1 [H2 [H3 [H4 _]]]].
  assert (Hn' : n = List.length
                      (firstn (Z.to_nat (FallbackScript.segmentsCount duration))
                              (FallbackScript.template_for topic)))
    by (now rewrite Hlen).
  split; [exact Hn|]. split; [lia|].
  rewrite Hn'. repeat split; assumption.
Qed.

(** X23: how much of the requested duration the fallback script covers.
    For a positive duration its last segment ends at
    [min(4, count) / count] of the duration, where
    [count = max(2, floor(duration / 15))]; so the script covers the whole
    duration exactly when the duration is below 75 seconds, and from 75
    seconds on it covers at most four fifths of it. *)
Theorem X23_fallback_script_coverage :
  forall (topic : string) (duration : Q) (language : string) (dflt : FallbackScript.Segment),
    0 < duration ->
    let ending :=
      FallbackScript.endTime
        (last (FallbackScript.generateFallbackScript topic duration language) dflt) in
    ending
    == inject_Z (Z.min 4 (FallbackScript.segmentsCount duration))
       * (duration / inject_Z (FallbackScript.segmentsCount duration))
    /\ (ending == duration <-> duration < 75)
    /\ (75 <= duration -> ending <= (4 # 5) * duration).
Proof.
  intros topic duration language dflt Hpos ending.
  pose proof (segmentsCount_min duration) as Hk.
  set (k := FallbackScript.segmentsCount duration) in *.
  set (segs := firstn (Z.to_nat k) (FallbackScript.template_for topic)).
  assert (Hlen : List.length segs = Z.to_nat (Z.min 4 k)).
  { unfold segs. rewrite length_firstn, template_for_length. lia. }
  assert (Hne : segs <> []).
  { intros H. rewrite H in Hlen. cbn in Hlen. lia. }
  destruct (timed_from (duration / inject_Z k) segs 0) as [_ [_ [_ [_ H5]]]].
  assert (Hend : ending = inject_Z (Z.min 4 k) * (duration / inject_Z k)).
  { unfold ending, FallbackScript.generateFallbackScript. cbv zeta. fold k. fold segs.
    rewrite (H5 dflt Hne), Hlen. cbn [Nat.add]. f_equal. f_equal. lia. }
  assert (Hk0 : ~ inject_Z k == 0).
  { unfold Qeq, inject_Z. cbn. lia. }
  assert (Hfloor : (Qfloor (duration / 15) <= 4)%Z <-> duration < 75).
  { split; intros H.
    - assert (Hlt : duration / 15 < inject_Z (Qfloor (duration / 15) + 1))
        by apply Qlt_floor.
      assert (Hle : inject_Z (Qfloor (duration / 15) + 1) <= 5).
      { change 5 with (inject_Z 5). rewrite <- Zle_Qle. lia. }
      assert (H5' : duration / 15 < 5) by (eapply Qlt_le_trans; eauto).
      assert (H75 : duration / 15 * 15 < 5 * 15)
        by (apply Qmult_lt_r; [reflexivity|exact H5']).
      setoid_replace (duration / 15 * 15) with duration in H75 by field.
      exact H75.
    - assert (Hd : duration / 15 < 5) by (apply Qlt_shift_div_r; [reflexivity|exact H]).
      assert (Hfl : inject_Z (Qfloor (duration / 15)) <= duration / 15)
        by apply Qfloor_le.
      assert (Hlt : inject_Z (Qfloor (duration / 15)) < inject_Z 5)
        by (eapply Qle_lt_trans; eauto).
      rewrite <- Zlt_Qlt in Hlt. lia. }
  split; [now rewrite Hend|]. split; [split|].
  - intros Heq. apply Hfloor. rewrite Hend in Heq.
    destruct (Z_le_gt_dec k 4) as [Hsmall|Hbig]; [unfold k, FallbackScript.segmentsCount in *; lia|].
    exfalso. rewrite Z.min_l in Heq by lia.
    assert (H4k : 4 * duration == inject_Z k * duration).
    { rewrite <- Heq at 2. change (inject_Z 4) with 4. field. exact Hk0. }
    assert (Hk4 : inject_Z k == 4).
    { apply (Qmult_inj_r _ _ duration); [intros H0; rewrite H0 in Hpos; discriminate|].
      now symmetry. }
    unfold Qeq, inject_Z in Hk4. cbn in Hk4. lia.
  - intros Hlt. apply Hfloor in Hlt. rewrite Hend.
    assert (Hsmall : (k <= 4)%Z) by (unfold k, FallbackScript.segmentsCount; lia).
    rewrite Z.min_r by lia. field. exact Hk0.
  - intros Hbig. rewrite Hend.
    assert (Hk5 : (5 <= k)%Z).
    { destruct (Z_le_gt_dec 5 k) as [H|H]; [exact H|]. exfalso.
      assert (Hlt : duration < 75).
      { apply Hfloor. unfold k, FallbackScript.segmentsCount in H. lia. }
      apply (Qlt_not_le _ _ Hlt Hbig). }
    rewrite Z.min_l by lia. change (inject_Z 4) with 4.
    assert (Hkpos : 0 < inject_Z k).
    { change 0 with (inject_Z 0). rewrite <- Zlt_Qlt. lia. }
    assert (H5k : 5 <= inject_Z k).
    { change 5 with (inject_Z 5). rewrite <- Zle_Qle. exact Hk5. }
    setoid_replace (4 * (duration / inject_Z k)) with ((4 * duration) / inject_Z k)
      by (field; exact Hk0).
    apply Qle_shift_div_r; [exact Hkpos|].
    setoid_replace ((4 # 5) * duration * inject_Z k)
      with ((4 * duration) * (inject_Z k / 5)) by field.
    rewrite <- (Qmult_1_r (4 * duration)) at 1.
    apply Qmult_le_l; [|apply Qle_shift_div_l; [reflexivity|now rewrite Qmult_1_l]].
    setoid_replace 0 with (4 * 0) by ring. apply Qmult_lt_l; [reflexivity|exact Hpos].
Qed.

Lemma X23_fallback_script_coverage_witness :
  FallbackScript.endTime
    (last (FallbackScript.generateFallbackScript "Volcanoes" 120 "english")
          (FallbackScript.mkSegment "" "" 0 0 0))
  <= (4 # 5) * 120.
Proof.
  refine (proj2 (proj2 (X23_fallback_script_coverage "Volcanoes" 120 "english"
                          (FallbackScript.mkSegment "" "" 0 0 0) _)) _).
  - reflexivity.
  - discriminate.
Defined.

(** ** SRT time stamps *)

Lemma Qfloor_plus_Z q z : Qfloor (q + inject_Z z) = (Qfloor q + z)%Z.
Proof.
  destruct q as [n d]. unfold Qfloor, Qplus, inject_Z. cbn [Qnum Qden].
  rewrite Pos.mul_1_r, Z.mul_1_r. apply Z.div_add. discriminate.
Qed.

Lemma Qfloor_minus_mult q k z :
  Qfloor (q - inject_Z k * inject_Z z) = (Qfloor q - k * z)%Z.
Proof.
  assert (H : q - inject_Z k * inject_Z z == q + inject_Z (- (k * z))).
  { rewrite inject_Z_opp, inject_Z_mult. ring. }
  rewrite (Qfloor_comp _ _ H), Qfloor_plus_Z. lia.
Qed.

Lemma Qfloor_div_pos q (k : positive) :
  Qfloor (q / inject_Z (Zpos k)) = (Qfloor q / Zpos k)%Z.
Proof.
  destruct q as [n d]. unfold Qfloor, Qdiv, Qmult, Qinv, inject_Z. cbn [Qnum Qden].
  rewrite Z.mul_1_r, Pos2Z.inj_mul. symmetry. apply Z.div_div; lia.
Qed.

Lemma truncate_nonneg q : 0 <= q -> SrtFile.truncate q = Qfloor q.
Proof.
  intros H. unfold SrtFile.truncate.
  destruct (Qle_bool 0 q) eqn:Hb; [reflexivity|].
  apply Qle_bool_iff in H. congruence.
Qed.

Lemma Qfloor_nonneg q : 0 <= q -> (0 <= Qfloor q)%Z.
Proof.
  intros H. destruct q as [n d]. unfold Qfloor. unfold Qle in H. cbn in H.
  apply Z.div_pos; lia.
Qed.

Lemma remainder_nonneg t (k : positive) :
  0 <= t ->
  SrtFile.remainder t (inject_Z (Zpos k))
  = t - inject_Z (Zpos k) * inject_Z (Qfloor t / Zpos k).
Proof.
  intros Ht. unfold SrtFile.remainder.
  rewrite truncate_nonneg, Qfloor_div_pos; [reflexivity|].
  apply Qle_shift_div_l; [reflexivity|]. now rewrite Qmult_0_l.
Qed.

Lemma pad_two z : (0 <= z < 100)%Z -> String.length (SrtFile.padStart 2 (string_of_Z z)) = 2%nat.
Proof.
  intros Hz.
  assert (H : forallb (fun n => Nat.eqb (String.length
                                 (SrtFile.padStart 2 (string_of_Z (Z.of_nat n)))) 2)
                      (seq 0 100) = true) by (vm_compute; reflexivity).
  rewrite forallb_forall in H. specialize (H (Z.to_nat z)).
  rewrite Z2Nat.id in H by lia. apply Nat.eqb_eq. apply H. apply in_seq. lia.
Qed.

Lemma pad_three z :
  (0 <= z < 1000)%Z -> String.length (SrtFile.padStart 3 (string_of_Z z)) = 3%nat.
Proof.
  intros Hz.
  assert (H : forallb (fun n => Nat.eqb (String.length
                                 (SrtFile.padStart 3 (string_of_Z (Z.of_nat n)))) 3)
                      (seq 0 1000) = true) by (vm_compute; reflexivity).
  rewrite forallb_forall in H. specialize (H (Z.to_nat z)).
  rewrite Z2Nat.id in H by lia. apply Nat.eqb_eq. apply H. apply in_seq. lia.
Qed.

Lemma length_append a b :
  String.length (a ++ b)%string = (String.length a + String.length b)%nat.
Proof. induction a as [|c a IH]; [reflexivity|]. cbn. now rewrite IH. Qed.

(** X24: an SRT time stamp splits the time correctly.  For a time that
    is not negative, the minutes and the seconds are below 60, the
    milliseconds below 1000, none of the fields is negative, and hours,
    minutes and seconds add up to the whole seconds of the time; for a
    time below one hundred hours the stamp has the fixed width of
    [HH:MM:SS,mmm], twelve characters. *)
Theorem X24_srt_stamp_fields :
  forall t : Q,
    0 <= t ->
    (0 <= SrtFile.hours t)%Z
    /\ (0 <= SrtFile.minutes t < 60)%Z
    /\ (0 <= SrtFile.seconds t < 60)%Z
    /\ (0 <= SrtFile.milliseconds t < 1000)%Z
    /\ (SrtFile.hours t * 3600 + SrtFile.minutes t * 60 + SrtFile.seconds t
        = Qfloor t)%Z
    /\ (t < 360000 -> String.length (SrtFile.formatSRTTime t) = 12%nat).
Proof.
  intros t Ht.
  pose proof (Qfloor_nonneg t Ht) as Hi.
  set (i := Qfloor t) in *.
  assert (Hh : SrtFile.hours t = (i / 3600)%Z).
  { unfold SrtFile.hours. exact (Qfloor_div_pos t 3600). }
  assert (Hm : SrtFile.minutes t = ((i - 3600 * (i / 3600)) / 60)%Z).
  { unfold SrtFile.minutes.
    rewrite (remainder_nonneg t 3600 Ht : SrtFile.remainder t 3600 = _).
    rewrite (Qfloor_div_pos _ 60), Qfloor_minus_mult. reflexivity. }
  assert (Hs : SrtFile.seconds t = (i - 60 * (i / 60))%Z).
  { unfold SrtFile.seconds.
    rewrite (remainder_nonneg t 60 Ht : SrtFile.remainder t 60 = _).
    apply Qfloor_minus_mult. }
  assert (Hms : (0 <= SrtFile.milliseconds t < 1000)%Z).
  { unfold SrtFile.milliseconds.
    rewrite (remainder_nonneg t 1 Ht : SrtFile.remainder t 1 = _).
    rewrite Z.div_1_r. fold i.
    assert (Hlo : inject_Z i <= t) by apply Qfloor_le.
    assert (Hhi : t < inject_Z (i + 1)) by apply Qlt_floor.
    rewrite inject_Z_plus in Hhi.
    change (inject_Z 1) with 1 in *.
    assert (H0 : 0 <= (t - 1 * inject_Z i) * 1000) by lra.
    assert (H1 : (t - 1 * inject_Z i) * 1000 < inject_Z 1000).
    { change (inject_Z 1000) with 1000. lra. }
    split; [now apply Qfloor_nonneg|].
    assert (Hf : inject_Z (Qfloor ((t - 1 * inject_Z i) * 1000))
                 < inject_Z 1000)
      by (eapply Qle_lt_trans; [apply Qfloor_le|exact H1]).
    now rewrite <- Zlt_Qlt in Hf. }
  pose proof (Z.div_mod i 3600 ltac:(lia)) as D1.
  pose proof (Z.mod_pos_bound i 3600 ltac:(lia)) as B1.
  pose proof (Z.div_mod i 60 ltac:(lia)) as D2.
  pose proof (Z.mod_pos_bound i 60 ltac:(lia)) as B2.
  assert (Hrem : (i - 3600 * (i / 3600) = i mod 3600)%Z) by lia.
  assert (Hsec : (i - 60 * (i / 60) = i mod 60)%Z) by lia.
  pose proof (Z.div_mod (i mod 3600) 60 ltac:(lia)) as D3.
  pose proof (Z.mod_pos_bound (i mod 3600) 60 ltac:(lia)) as B3.
  assert (Hmm : ((i mod 3600) mod 60 = i mod 60)%Z).
  { apply Z.mod_mod_divide. exists 60%Z. reflexivity. }
  assert (Hmin : (0 <= (i mod 3600) / 60 < 60)%Z).
  { split; [apply Z.div_pos; lia|apply Z.div_lt_upper_bound; lia]. }
  assert (H0h : (0 <= i / 3600)%Z) by (apply Z.div_pos; lia).
  rewrite Hh, Hm, Hs, Hrem, Hsec.
  split; [exact H0h|]. split; [exact Hmin|]. split; [lia|]. split; [exact Hms|].
  split; [lia|].
  intros Hlt. unfold SrtFile.formatSRTTime. rewrite Hh, Hm, Hs, Hrem, Hsec.
  assert (Hi' : (i < 360000)%Z).
  { assert (Hq : inject_Z i < inject_Z 360000)
      by (eapply Qle_lt_trans; [apply Qfloor_le|exact Hlt]).
    now rewrite <- Zlt_Qlt in Hq. }
  assert (Hhh : (i / 3600 < 100)%Z) by (apply Z.div_lt_upper_bound; lia).
  rewrite !length_append, !pad_two, pad_three by lia. reflexivity.
Qed.

Lemma X24_srt_stamp_fields_witness :
  (0 <= SrtFile.hours (7384 + (1 # 2)))%Z
  /\ (0 <= SrtFile.minutes (7384 + (1 # 2)) < 60)%Z
  /\ (0 <= SrtFile.seconds (7384 + (1 # 2)) < 60)%Z
  /\ (0 <= SrtFile.milliseconds (7384 + (1 # 2)) < 1000)%Z
  /\ (SrtFile.hours (7384 + (1 # 2)) * 3600 + SrtFile.minutes (7384 + (1 # 2)) * 60
      + SrtFile.seconds (7384 + (1 # 2))
      = Qfloor (7384 + (1 # 2)))%Z
  /\ (7384 + (1 # 2) < 360000 ->
      String.length (SrtFile.formatSRTTime (7384 + (1 # 2))) = 12%nat).
Proof.
  apply (X24_srt_stamp_fields (7384 + (1 # 2))). discriminate.
Defined.

(** ** The compile route *)

Lemma find_updated videoId change : forall l,
  Compile.find videoId
    (map (fun kv : string * Compile.Row =>
            if String.eqb videoId (fst kv) then (fst kv, change (snd kv)) else kv) l)
  = option_map change (Compile.find videoId l).
Proof.
  induction l as [|[k x] r IH]; [reflexivity|]. simpl.
  destruct (String.eqb videoId k) eqn:Hk; simpl; rewrite Hk; [reflexivity|exact IH].
Qed.

Lemma store_lift {A} (m : M A) : Compile.keeps_store (Compile.lift m).
Proof.
  intros s r s' H. unfold Compile.lift in H.
  destruct (m (Compile.outside s)) as [[a|e|] w]; injection H as _ <-; reflexivity.
Qed.

Lemma store_resolve {A} (a : A) : Compile.keeps_store (Compile.resolve a).
Proof. intros s r s' H. injection H as _ <-. reflexivity. Qed.

Lemma store_reject {A} (e : string) : Compile.keeps_store (@Compile.reject A e).
Proof. intros s r s' H. injection H as _ <-. reflexivity. Qed.

Lemma store_then {A B} (m : Compile.C A) (k : A -> Compile.C B) :
  Compile.keeps_store m -> (forall a, Compile.keeps_store (k a)) ->
  Compile.keeps_store (Compile.and_then m k).
Proof.
  intros Hm Hk s r s' H. unfold Compile.and_then in H.
  destruct (m s) as [[a|e|u] s1] eqn:Hms.
  - rewrite (Hk a s1 r s' H). exact (Hm s _ s1 Hms).
  - injection H as _ <-. exact (Hm s _ s1 Hms).
  - injection H as _ <-. exact (Hm s _ s1 Hms).
Qed.

Lemma store_catch {A} (m : Compile.C A) (h : string -> Compile.C A) :
  Compile.keeps_store m -> (forall e, Compile.keeps_store (h e)) ->
  Compile.keeps_store (Compile.catch m h).
Proof.
  intros Hm Hh s r s' H. unfold Compile.catch in H.
  destruct (m s) as [[a|e|u] s1] eqn:Hms.
  - injection H as _ <-. exact (Hm s _ s1 Hms).
  - rewrite (Hh e s1 r s' H). exact (Hm s _ s1 Hms).
  - injection H as _ <-. exact (Hm s _ s1 Hms).
Qed.

Lemma store_callback {A} (m : Compile.C A) :
  Compile.keeps_store m -> Compile.keeps_store (Compile.in_callback m).
Proof.
  intros Hm s r s' H. unfold Compile.in_callback in H.
  destruct (m s) as [[a|e|u] s1] eqn:Hms; injection H as _ <-; exact (Hm s _ s1 Hms).
Qed.

Lemma store_audio_from E video tempDir : forall rest i paths ds,
  Compile.keeps_store (Compile.audio_from E video tempDir i rest paths ds).
Proof.
  induction rest as [|seg r IH]; intros i paths ds; cbn [Compile.audio_from].
  - apply store_resolve.
  - cbv zeta. apply store_then; [apply store_lift|intros _].
    apply store_then; [apply store_lift|intros d]. apply IH.
Qed.

Lemma store_images_from E custom tempDir : forall rest i acc,
  Compile.keeps_store (Compile.images_from E custom tempDir i rest acc).
Proof.
  induction rest as [|url r IH]; intros i acc; cbn [Compile.images_from].
  - apply store_resolve.
  - cbv zeta. apply store_then; [apply store_lift|intros _]. apply IH.
Qed.

Lemma store_createVideoWithRemotion E R assets out D sub topic font color :
  Compile.keeps_store (Compile.createVideoWithRemotion E R assets out D sub topic font color).
Proof.
  unfold Compile.createVideoWithRemotion.
  apply store_catch; [|intros e; apply store_reject].
  apply store_then.
  - unfold Compile.concatenateAudioSegments. cbv zeta.
    apply store_then; [apply store_lift|intros _].
    apply store_then; [apply store_lift|intros a].
    destruct (exit_of a) as [code|e]; [|apply store_reject].
    apply store_then; [apply store_lift|intros _].
    destruct (code =? 0)%Z; [apply store_resolve|apply store_reject].
  - intros audioPath. unfold Compile.renderVideoWithRemotion.
    apply store_catch; [|intros e; apply store_reject].
    apply store_then; [apply store_lift|intros b].
    apply store_then; [apply store_lift|intros c]. cbv zeta.
    apply store_then; [apply store_lift|intros _].
    apply store_then; [apply store_lift|intros present].
    destruct (_ && _)%bool; [|apply store_resolve].
    unfold Compile.addAudioToVideo. cbv zeta.
    apply store_then; [apply store_lift|intros a].
    destruct (exit_of a) as [code|e]; [|apply store_reject].
    destruct (code =? 0)%Z; [|apply store_reject].
    apply store_callback, store_lift.
Qed.

(** The stored status agrees with the way the compilation settles. *)
Lemma compile_status E R videoId userId customImages s video :
  Compile.find videoId (Compile.rows s) = Some video ->
  forall p,
    Compile.compileVideoInBackground E R videoId userId customImages s = p ->
    exists v',
      Compile.find videoId (Compile.rows (snd p)) = Some v'
      /\ match fst p with
         | Compile.Resolved _ =>
             Compile.status v' = "completed"%string
             /\ Compile.videoUrl v'
                = Some (path_join (Compile.jobDir E videoId) (videoId ++ ".mp4"))
         | Compile.Rejected _ => Compile.status v' = "failed"%string
         | Compile.Unsettled _ => Compile.status v' = "compiling"%string
         end.
Proof.
  intros Hfound p Hrun.
  unfold Compile.compileVideoInBackground, Compile.catch in Hrun.
  unfold Compile.and_then at 1 in Hrun. unfold Compile.updateVideo at 1 in Hrun.
  set (s1 := Compile.mkState _ _) in Hrun.
  set (video1 := Compile.set_status "compiling" video).
  assert (H1 : Compile.find videoId (Compile.rows s1) = Some video1).
  { unfold s1. cbn [Compile.rows]. now rewrite find_updated, Hfound. }
  unfold Compile.and_then at 1 in Hrun. unfold Compile.getVideo at 1 in Hrun.
  rewrite H1 in Hrun.
  assert (Hfail : forall e s2,
             Compile.rows s2 = Compile.rows s1 ->
             (Compile.and_then (Compile.updateVideo videoId (Compile.set_status "failed"))
                               (fun _ => @Compile.reject unit e)) s2 = p ->
             exists v',
               Compile.find videoId (Compile.rows (snd p)) = Some v'
               /\ match fst p with
                  | Compile.Resolved _ =>
                      Compile.status v' = "completed"%string
                      /\ Compile.videoUrl v'
                         = Some (path_join (Compile.jobDir E videoId) (videoId ++ ".mp4"))
                  | Compile.Rejected _ => Compile.status v' = "failed"%string
                  | Compile.Unsettled _ => Compile.status v' = "compiling"%string
                  end).
  { intros e s2 Hrows <-. unfold Compile.and_then, Compile.updateVideo, Compile.reject.
    cbn [fst snd Compile.rows]. rewrite find_updated, Hrows, H1. eexists.
    split; reflexivity. }
  assert (Hstuck : forall u s2,
             Compile.rows s2 = Compile.rows s1 ->
             (@Compile.Unsettled unit u, s2) = p ->
             exists v',
               Compile.find videoId (Compile.rows (snd p)) = Some v'
               /\ match fst p with
                  | Compile.Resolved _ =>
                      Compile.status v' = "completed"%string
                      /\ Compile.videoUrl v'
                         = Some (path_join (Compile.jobDir E videoId) (videoId ++ ".mp4"))
                  | Compile.Rejected _ => Compile.status v' = "failed"%string
                  | Compile.Unsettled _ => Compile.status v' = "compiling"%string
                  end).
  { intros u s2 Hrows <-. cbn [fst snd]. exists video1. rewrite Hrows.
    split; [exact H1|reflexivity]. }
  destruct (match Compile.assets video1 with
            | Some a => Compile.storedScript a
            | None => None
            end) as [scriptSegments|];
    [|exact (Hfail _ s1 eq_refl Hrun)].
  cbv zeta in Hrun.
  unfold Compile.and_then at 1 in Hrun.
  destruct (Compile.lift (VideoProcessor.ensureTempDirectory E) s1) as [[dir|e|u] s2] eqn:H2;
    pose proof (store_lift _ _ _ _ H2) as R2;
    [|exact (Hfail _ s2 R2 Hrun)|exact (Hstuck _ s2 R2 Hrun)].
  unfold Compile.and_then at 1 in Hrun.
  destruct (Compile.audio_from E video1 _ 0 scriptSegments [] [] s2)
    as [[[audioSegments audioDurations]|e|u] s3] eqn:H3;
    pose proof (store_audio_from _ _ _ _ _ _ _ _ _ _ H3) as R3;
    [|exact (Hfail _ s3 (eq_trans R3 R2) Hrun)|exact (Hstuck _ s3 (eq_trans R3 R2) Hrun)].
  cbn [fst snd] in Hrun.
  destruct (match Compile.assets video1 with
            | Some a => Compile.storedImages a
            | None => None
            end) as [[|url urls]|];
    [exact (Hfail _ s3 (eq_trans R3 R2) Hrun)| |exact (Hfail _ s3 (eq_trans R3 R2) Hrun)].
  unfold Compile.and_then at 1 in Hrun.
  destruct (Compile.images_from E customImages _ 0 (url :: urls) [] s3)
    as [[images|e|u] s4] eqn:H4;
    pose proof (store_images_from _ _ _ _ _ _ _ _ _ H4) as R4;
    [|exact (Hfail _ s4 (eq_trans R4 (eq_trans R3 R2)) Hrun)
     |exact (Hstuck _ s4 (eq_trans R4 (eq_trans R3 R2)) Hrun)].
  unfold Compile.and_then at 1 in Hrun.
  match type of Hrun with
  | context [Compile.createVideoWithRemotion E R ?a ?o ?d ?sd ?t ?f ?c s4] =>
      destruct (Compile.createVideoWithRemotion E R a o d sd t f c s4)
        as [[[]|e|u] s5] eqn:H5;
      pose proof (store_createVideoWithRemotion _ _ _ _ _ _ _ _ _ _ _ _ H5) as R5
  end;
    [|exact (Hfail _ s5 (eq_trans R5 (eq_trans R4 (eq_trans R3 R2))) Hrun)
     |exact (Hstuck _ s5 (eq_trans R5 (eq_trans R4 (eq_trans R3 R2))) Hrun)].
  rewrite <- Hrun. unfold Compile.updateVideo. cbn [fst snd Compile.rows].
  rewrite find_updated, R5, R4, R3, R2, H1. eexists. split; [reflexivity|].
  split; reflexivity.
Qed.



Lemma lift_call_free {A} (r : reply A) s :
  deadline (Compile.outside s) = None ->
  Compile.lift (call r) s
  = (match value r with inl a => Compile.Resolved a | inr e => Compile.Rejected e end,
     Compile.mkState
       (with_fs (write_files (wrote r))
                (with_clock (clock (Compile.outside s) + took r)%N (Compile.outside s)))
       (Compile.rows s)).
Proof.
  intros Hd. unfold Compile.lift, call. rewrite await_free by exact Hd.
  destruct (value r); reflexivity.
Qed.

Lemma getAudioDuration_free E p w :
  deadline w = None ->
  Routes.getAudioDuration E p w
  = (match Compile.probe_result E p with inl d => Ok d | inr m => Throw m end,
     after_spawn E "ffprobe" (Routes.ffprobe_args p) w).
Proof.
  intros Hd. unfold Routes.getAudioDuration, Compile.probe_result, bind.
  rewrite (spawn_free E _ _ w Hd). cbv zeta.
  destruct (exit_of _) as [code|e]; [|reflexivity].
  destruct (code =? 0)%Z; [|reflexivity].
  destruct (parseFloat _); reflexivity.
Qed.

Lemma lift_probe_free E p s :
  deadline (Compile.outside s) = None ->
  Compile.lift (Routes.getAudioDuration E p) s
  = (match Compile.probe_result E p with
     | inl d => Compile.Resolved d
     | inr m => Compile.Rejected m
     end,
     Compile.mkState (after_spawn E "ffprobe" (Routes.ffprobe_args p) (Compile.outside s))
                     (Compile.rows s)).
Proof.
  intros Hd. unfold Compile.lift. rewrite (getAudioDuration_free E p _ Hd).
  destruct (Compile.probe_result E p); reflexivity.
Qed.

Lemma audio_from_stops E video tempDir message : forall pre i paths ds seg post s,
  deadline (Compile.outside s) = None ->
  (forall k sg, nth_error (pre ++ [seg]) k = Some sg ->
     value (generateAudio E (Script.text sg)
              (or_default (Compile.voiceStyle video) "professional")
              (Compile.clip_path tempDir (i + k))
              (or_default (Compile.language video) "english")) = inl tt) ->
  (forall k, (k < List.length pre)%nat ->
     exists d, Compile.probe_result E (Compile.clip_path tempDir (i + k)) = inl d) ->
  Compile.probe_result E (Compile.clip_path tempDir (i + List.length pre)) = inr message ->
  exists s',
    Compile.audio_from E video tempDir i (pre ++ seg :: post) paths ds s
    = (Compile.Rejected message, s')
    /\ Compile.rows s' = Compile.rows s
    /\ spawns (trace (Compile.outside s'))
       = spawns (trace (Compile.outside s))
         ++ map (fun p => ("ffprobe"%string, Routes.ffprobe_args p))
                (Compile.clip_paths tempDir i (S (List.length pre))).
Proof.
  induction pre as [|sg0 r IH]; intros i paths ds seg post s Hd Hgen Hok Hbad.
  - cbn [app List.length] in *. rewrite Nat.add_0_r in Hbad.
    cbn [Compile.audio_from]. cbv zeta.
    fold (Compile.clip_path tempDir i).
    unfold Compile.and_then at 1. rewrite (lift_call_free _ s Hd).
    pose proof (Hgen 0%nat seg eq_refl) as H0. rewrite Nat.add_0_r in H0. rewrite H0.
    set (s1 := Compile.mkState _ _).
    assert (Hd1 : deadline (Compile.outside s1) = None) by exact Hd.
    unfold Compile.and_then at 1. rewrite (lift_probe_free E _ s1 Hd1), Hbad.
    eexists. split; [reflexivity|]. split; [reflexivity|].
    cbn [Compile.outside]. unfold after_spawn. cbn [trace with_fs with_clock with_event].
    rewrite spawns_app. reflexivity.
  - cbn [app Compile.audio_from]. cbv zeta.
    fold (Compile.clip_path tempDir i).
    unfold Compile.and_then at 1. rewrite (lift_call_free _ s Hd).
    pose proof (Hgen 0%nat sg0 eq_refl) as H0. rewrite Nat.add_0_r in H0. rewrite H0.
    set (s1 := Compile.mkState _ _).
    assert (Hd1 : deadline (Compile.outside s1) = None) by exact Hd.
    unfold Compile.and_then at 1. rewrite (lift_probe_free E _ s1 Hd1).
    destruct (Hok 0%nat ltac:(cbn; lia)) as [d Hd0]. rewrite Nat.add_0_r in Hd0.
    rewrite Hd0.
    set (s2 := Compile.mkState _ _).
    assert (Hd2 : deadline (Compile.outside s2) = None) by exact Hd.
    destruct (IH (S i) (paths ++ [Compile.clip_path tempDir i]) (ds ++ [d]) seg post s2 Hd2)
      as [s' [Hrun [Hrows Htr]]].
    + intros k sg Hk. rewrite Nat.add_succ_l, <- Nat.add_succ_r. exact (Hgen (S k) sg Hk).
    + intros k Hk. rewrite Nat.add_succ_l, <- Nat.add_succ_r.
      apply Hok. cbn [List.length]. lia.
    + cbn [List.length] in Hbad. rewrite Nat.add_succ_l, <- Nat.add_succ_r. exact Hbad.
    + exists s'. split; [exact Hrun|]. split; [exact Hrows|].
      rewrite Htr. unfold s2, s1. cbn [Compile.outside]. unfold after_spawn.
      cbn [trace with_fs with_clock with_event].
      rewrite spawns_app. unfold Compile.clip_paths.
      cbn [List.length seq map spawns app]. now rewrite <- app_assoc.
Qed.

Lemma lift_ensureTempDirectory E s :
  exists w',
    Compile.lift (VideoProcessor.ensureTempDirectory E) s
    = (Compile.Resolved (tempDir_of E), Compile.mkState w' (Compile.rows s))
    /\ deadline w' = deadline (Compile.outside s)
    /\ trace w' = trace (Compile.outside s).
Proof.
  unfold Compile.lift, VideoProcessor.ensureTempDirectory, tempDir_of, bind,
    fs_existsSync, fs_mkdirSync, ret.
  destruct (existsSync _ (fs (Compile.outside s))); cbn; eexists; repeat split.
Qed.

Lemma compile_rejects_unmeasured E R videoId userId customImages s video pre seg post
      message :
  Compile.find videoId (Compile.rows s) = Some video ->
  match Compile.assets video with
  | Some a => Compile.storedScript a
  | None => None
  end = Some (pre ++ seg :: post) ->
  deadline (Compile.outside s) = None ->
  (forall k sg, nth_error (pre ++ [seg]) k = Some sg ->
     value (generateAudio E (Script.text sg)
              (or_default (Compile.voiceStyle video) "professional")
              (Compile.clip_path (Compile.jobDir E videoId) k)
              (or_default (Compile.language video) "english")) = inl tt) ->
  (forall k, (k < List.length pre)%nat ->
     exists d,
       Compile.probe_result E (Compile.clip_path (Compile.jobDir E videoId) k) = inl d) ->
  Compile.probe_result E (Compile.clip_path (Compile.jobDir E videoId) (List.length pre))
  = inr message ->
  exists s',
    Compile.compileVideoInBackground E R videoId userId customImages s
    = (Compile.Rejected message, s')
    /\ Compile.find videoId (Compile.rows s')
       = Some (Compile.set_status "failed" (Compile.set_status "compiling" video))
    /\ spawns (trace (Compile.outside s'))
       = spawns (trace (Compile.outside s))
         ++ map (fun p => ("ffprobe"%string, Routes.ffprobe_args p))
                (Compile.clip_paths (Compile.jobDir E videoId) 0 (S (List.length pre))).
Proof.
  intros Hfound Hscript Hd Hgen Hok Hbad.
  remember (Compile.compileVideoInBackground E R videoId userId customImages s) as p
    eqn:Hrun.
  unfold Compile.compileVideoInBackground, Compile.catch in Hrun.
  unfold Compile.and_then at 1 in Hrun. unfold Compile.updateVideo at 1 in Hrun.
  set (s1 := Compile.mkState _ _) in Hrun.
  set (video1 := Compile.set_status "compiling" video).
  assert (H1 : Compile.find videoId (Compile.rows s1) = Some video1).
  { unfold s1. cbn [Compile.rows]. now rewrite find_updated, Hfound. }
  unfold Compile.and_then at 1 in Hrun. unfold Compile.getVideo at 1 in Hrun.
  rewrite H1 in Hrun.
  change (Compile.assets video1) with (Compile.assets video) in Hrun.
  rewrite Hscript in Hrun. cbv zeta in Hrun. fold (Compile.jobDir E videoId) in Hrun.
  destruct (lift_ensureTempDirectory E s1) as [w2 [H2 [D2 T2]]].
  unfold Compile.and_then at 1 in Hrun. rewrite H2 in Hrun.
  set (s2 := Compile.mkState w2 _) in Hrun.
  assert (Hd2 : deadline (Compile.outside s2) = None).
  { unfold s2. cbn [Compile.outside]. rewrite D2. exact Hd. }
  destruct (audio_from_stops E video1 (Compile.jobDir E videoId) message pre 0 [] [] seg
              post s2 Hd2 Hgen Hok Hbad) as [s3 [H3 [R3 T3]]].
  unfold Compile.and_then at 1 in Hrun. rewrite H3 in Hrun.
  unfold Compile.and_then, Compile.updateVideo, Compile.reject in Hrun.
  rewrite Hrun. eexists. split; [reflexivity|]. cbn [Compile.rows Compile.outside].
  rewrite find_updated, R3. unfold s2. cbn [Compile.rows]. rewrite H1.
  split; [reflexivity|].
  rewrite T3. unfold s2. cbn [Compile.outside]. now rewrite T2.
Qed.

(** X26: in the compile route a duration that cannot be measured fails
    the job; nothing is guessed.  When the clips up to segment [k] are
    generated, the probes before [k] succeed and the probe of clip [k]
    fails with a message, the compilation stops there: the row gets the
    status [failed] and that message, and the only processes ever
    started are the probes of the clips 0 to [k]: no FFmpeg process
    runs. *)
Theorem X26_unmeasured_clip_fails_compilation :
  forall (E : env) (R : Compile.toolkit) (videoId userId : string)
         (customImages : option (list (string * string)))
         (s : Compile.state) (video : Compile.Row)
         (pre : list Script.ScriptSegment) (seg : Script.ScriptSegment)
         (post : list Script.ScriptSegment) (message : string),
    Compile.find videoId (Compile.rows s) = Some video ->
    match Compile.assets video with
    | Some a => Compile.storedScript a
    | None => None
    end = Some (pre ++ seg :: post) ->
    deadline (Compile.outside s) = None ->
    (forall k sg, nth_error (pre ++ [seg]) k = Some sg ->
       value (generateAudio E (Script.text sg)
                (or_default (Compile.voiceStyle video) "professional")
                (Compile.clip_path (Compile.jobDir E videoId) k)
                (or_default (Compile.language video) "english")) = inl tt) ->
    (forall k, (k < List.length pre)%nat ->
       exists d,
         Compile.probe_result E (Compile.clip_path (Compile.jobDir E videoId) k) = inl d) ->
    Compile.probe_result E (Compile.clip_path (Compile.jobDir E videoId) (List.length pre))
    = inr message ->
    exists s' v',
      Compile.compile_job E R videoId userId customImages s = (Compile.Resolved tt, s')
      /\ Compile.find videoId (Compile.rows s') = Some v'
      /\ Compile.status v' = "failed"%string
      /\ Compile.errorMessage v' = Some message
      /\ spawns (trace (Compile.outside s'))
         = spawns (trace (Compile.outside s))
           ++ map (fun p => ("ffprobe"%string, Routes.ffprobe_args p))
                  (Compile.clip_paths (Compile.jobDir E videoId) 0 (S (List.length pre))).
Proof.
  intros E R videoId userId customImages s video pre seg post message
         Hfound Hscript Hd Hgen Hok Hbad.
  destruct (compile_rejects_unmeasured E R videoId userId customImages s video pre seg
              post message Hfound Hscript Hd Hgen Hok Hbad) as [s1 [Hrun [Hrow Htr]]].
  unfold Compile.compile_job, Compile.catch. rewrite Hrun.
  unfold Compile.updateVideo. eexists. eexists. split; [reflexivity|].
  cbn [Compile.rows Compile.outside]. rewrite find_updated, Hrow.
  split; [reflexivity|]. split; [reflexivity|]. split; [reflexivity|exact Htr].
Qed.

Lemma X26_unmeasured_clip_fails_compilation_witness :
  exists s' v',
    Compile.compile_job Studio.second_probe_fails Studio.works "v1" "u1" None Studio.start
    = (Compile.Resolved tt, s')
    /\ Compile.find "v1" (Compile.rows s') = Some v'
    /\ Compile.status v' = "failed"%string
    /\ Compile.errorMessage v' = Some ("ffprobe failed with code " ++ string_of_Z 1)%string
    /\ spawns (trace (Compile.outside s'))
       = spawns (trace (Compile.outside Studio.start))
         ++ map (fun p => ("ffprobe"%string, Routes.ffprobe_args p))
                (Compile.clip_paths (Compile.jobDir Studio.second_probe_fails "v1") 0
                   (S (List.length [Scenario.segment "Volcanoes form"]))).
Proof.
  refine (X26_unmeasured_clip_fails_compilation Studio.second_probe_fails Studio.works
            "v1" "u1" None Studio.start Studio.editing
            [Scenario.segment "Volcanoes form"] (Scenario.segment "Magma rises")
            [Scenario.segment "Lava cools"] _ eq_refl eq_refl eq_refl _ _ eq_refl).
  - intros k sg _. reflexivity.
  - intros [|k] Hk; [|cbn in Hk; lia]. eexists. vm_compute. reflexivity.
Defined.

Lemma getAudioDuration_ok E p w d w' :
  Routes.getAudioDuration E p w = (Ok d, w') -> Compile.probe_result E p = inl d.
Proof.
  unfold Routes.getAudioDuration, Compile.probe_result, bind, spawn, await. cbv zeta.
  cbn [deadline clock with_event].
  set (a := run E "ffprobe" (Routes.ffprobe_args p)).
  assert (Hgo : forall w0 w1 : world,
             (match exit_of a with
              | Close code =>
                  if (code =? 0)%Z
                  then match parseFloat (trim (of_string (stdout a))) with
                       | Some duration => ret duration
                       | None => throw "Could not parse audio duration"
                       end
                  else throw ("ffprobe failed with code " ++ string_of_Z code)%string
              | ProcError error => throw error
              end) w0 = (Ok d, w1) ->
             match exit_of a with
             | Close code =>
                 if (code =? 0)%Z
                 then match parseFloat (trim (of_string (stdout a))) with
                      | Some d0 => inl d0
                      | None => inr "Could not parse audio duration"%string
                      end
                 else inr ("ffprobe failed with code " ++ string_of_Z code)%string
             | ProcError e => inr e
             end = inl d).
  { intros w0 w1. destruct (exit_of a) as [code|e]; [|discriminate].
    destruct (code =? 0)%Z; [|discriminate].
    destruct (parseFloat _); [|discriminate].
    unfold ret. intros H. now injection H as -> _. }
  destruct (deadline w) as [dl|].
  - destruct (dl <? clock w + elapsed a)%N; [discriminate|]. apply Hgo.
  - apply Hgo.
Qed.

Lemma then_resolved_inv {A B} (m : Compile.C A) (k : A -> Compile.C B) s b s' :
  Compile.and_then m k s = (Compile.Resolved b, s') ->
  exists a s1, m s = (Compile.Resolved a, s1) /\ k a s1 = (Compile.Resolved b, s').
Proof.
  unfold Compile.and_then. destruct (m s) as [[a|e|u] s1]; intros H; try discriminate H.
  now exists a, s1.
Qed.

Lemma lift_resolved_inv {A} (m : M A) s a s' :
  Compile.lift m s = (Compile.Resolved a, s') ->
  exists w', m (Compile.outside s) = (Ok a, w') /\ s' = Compile.mkState w' (Compile.rows s).
Proof.
  unfold Compile.lift. destruct (m (Compile.outside s)) as [[x|e|] w]; intros H;
    try discriminate H.
  injection H as -> <-. now exists w.
Qed.

Lemma audio_from_resolved E video tempDir : forall rest i paths ds s paths' ds' s',
  Compile.audio_from E video tempDir i rest paths ds s
  = (Compile.Resolved (paths', ds'), s') ->
  exists measured,
    paths' = paths ++ Compile.clip_paths tempDir i (List.length rest)
    /\ ds' = ds ++ measured
    /\ Forall2 (fun p d => Compile.probe_result E p = inl d)
               (Compile.clip_paths tempDir i (List.length rest)) measured.
Proof.
  induction rest as [|seg r IH]; intros i paths ds s paths' ds' s' H;
    cbn [Compile.audio_from] in H.
  - injection H as <- <- _. exists []. cbn. rewrite !app_nil_r. repeat split. constructor.
  - cbv zeta in H. fold (Compile.clip_path tempDir i) in H.
    apply then_resolved_inv in H. destruct H as [u [s1 [_ H]]].
    apply then_resolved_inv in H. destruct H as [d [s2 [Hd H]]].
    apply lift_resolved_inv in Hd. destruct Hd as [w' [Hd _]].
    apply getAudioDuration_ok in Hd.
    apply IH in H. destruct H as [measured [Hp [Hds HF]]].
    exists (d :: measured). unfold Compile.clip_paths in *.
    cbn [List.length seq map]. split; [|split].
    + rewrite Hp, <- app_assoc. reflexivity.
    + rewrite Hds, <- app_assoc. reflexivity.
    + constructor; assumption.
Qed.

Lemma entries_from_measured : forall rest ds pre t,
  List.length ds = List.length rest ->
  Compile.entries_from t (List.length pre) rest (pre ++ ds)
  = Compile.measured_entries t (map Script.text rest) ds.
Proof.
  induction rest as [|seg r IH]; intros ds pre t Hlen; [reflexivity|].
  destruct ds as [|d ds']; [discriminate Hlen|].
  cbn [Compile.entries_from Compile.measured_entries map]. cbv zeta.
  rewrite nth_middle. f_equal.
  specialize (IH ds' (pre ++ [d]) (t + d)).
  rewrite length_app, Nat.add_1_r, <- app_assoc in IH. apply IH.
  now injection Hlen.
Qed.

Lemma compile_resolved E R videoId userId customImages s video s' :
  Compile.find videoId (Compile.rows s) = Some video ->
  Compile.compileVideoInBackground E R videoId userId customImages s
  = (Compile.Resolved tt, s') ->
  exists script urls audioSegments audioDurations s2 s3,
    match Compile.assets video with
    | Some a => Compile.storedScript a
    | None => None
    end = Some script
    /\ match Compile.assets video with
       | Some a => Compile.storedImages a
       | None => None
       end = Some urls
    /\ urls <> []
    /\ Compile.audio_from E (Compile.set_status "compiling" video)
         (Compile.jobDir E videoId) 0 script [] [] s2
       = (Compile.Resolved (audioSegments, audioDurations), s3)
    /\ Compile.find videoId (Compile.rows s')
       = Some (Compile.set_completed
                 (path_join (Compile.jobDir E videoId) (videoId ++ ".mp4"))
                 (Compile.mkStoredSubtitles
                    (Compile.entries_from 0 0 script audioDurations)
                    (Some (Compile.enabled_of video)))
                 (Compile.mkStoredAssets
                    (Some urls)
                    (Some (map (Compile.replace_first (cwd E) EmptyString) audioSegments))
                    (Some script))
                 (Compile.set_status "compiling" video)).
Proof.
  intros Hfound Hrun.
  unfold Compile.compileVideoInBackground, Compile.catch in Hrun.
  unfold Compile.and_then at 1 in Hrun. unfold Compile.updateVideo at 1 in Hrun.
  set (s1 := Compile.mkState _ _) in Hrun.
  set (video1 := Compile.set_status "compiling" video) in *.
  assert (H1 : Compile.find videoId (Compile.rows s1) = Some video1).
  { unfold s1. cbn [Compile.rows]. now rewrite find_updated, Hfound. }
  unfold Compile.and_then at 1 in Hrun. unfold Compile.getVideo at 1 in Hrun.
  rewrite H1 in Hrun.
  change (Compile.assets video1) with (Compile.assets video) in Hrun.
  assert (Hfail : forall e s2,
             (Compile.and_then (Compile.updateVideo videoId (Compile.set_status "failed"))
                               (fun _ => @Compile.reject unit e)) s2
             <> (Compile.Resolved tt, s')).
  { intros e s2. unfold Compile.and_then, Compile.updateVideo, Compile.reject.
    discriminate. }
  destruct (match Compile.assets video with
            | Some a => Compile.storedScript a
            | None => None
            end) as [scriptSegments|]; [|now apply Hfail in Hrun].
  cbv zeta in Hrun. fold (Compile.jobDir E videoId) in Hrun.
  unfold Compile.and_then at 1 in Hrun.
  destruct (Compile.lift (VideoProcessor.ensureTempDirectory E) s1) as [[dir|e|u] s2] eqn:H2;
    pose proof (store_lift _ _ _ _ H2) as R2;
    [|now apply Hfail in Hrun|discriminate Hrun].
  unfold Compile.and_then at 1 in Hrun.
  destruct (Compile.audio_from E video1 _ 0 scriptSegments [] [] s2)
    as [[[audioSegments audioDurations]|e|u] s3] eqn:H3;
    pose proof (store_audio_from _ _ _ _ _ _ _ _ _ _ H3) as R3;
    [|now apply Hfail in Hrun|discriminate Hrun].
  cbn [fst snd] in Hrun.
  destruct (match Compile.assets video with
            | Some a => Compile.storedImages a
            | None => None
            end) as [[|url urls]|];
    [now apply Hfail in Hrun| |now apply Hfail in Hrun].
  unfold Compile.and_then at 1 in Hrun.
  destruct (Compile.images_from E customImages _ 0 (url :: urls) [] s3)
    as [[images|e|u] s4] eqn:H4;
    pose proof (store_images_from _ _ _ _ _ _ _ _ _ H4) as R4;
    [|now apply Hfail in Hrun|discriminate Hrun].
  unfold Compile.and_then at 1 in Hrun.
  match type of Hrun with
  | context [Compile.createVideoWithRemotion E R ?a ?o ?d ?sd ?t ?f ?c s4] =>
      destruct (Compile.createVideoWithRemotion E R a o d sd t f c s4)
        as [[[]|e|u] s5] eqn:H5;
      pose proof (store_createVideoWithRemotion _ _ _ _ _ _ _ _ _ _ _ _ H5) as R5
  end;
    [|now apply Hfail in Hrun|discriminate Hrun].
  unfold Compile.updateVideo in Hrun. injection Hrun as <-.
  exists scriptSegments, (url :: urls), audioSegments, audioDurations, s2, s3.
  split; [reflexivity|]. split; [reflexivity|]. split; [discriminate|].
  split; [exact H3|].
  cbn [Compile.rows]. rewrite find_updated, R5, R4, R3, R2, H1. reflexivity.
Qed.

Lemma run_from_outcome {A B} (p : A * B) (a : A) : fst p = a -> p = (a, snd p).
Proof. destruct p. cbn. now intros ->. Qed.

(** X27: the captions that the compile route stores are timed by the
    measured clips.  When a compilation resolves, the probe of every clip
    [audio_i.mp3] of the job returned a duration, and the stored subtitle
    data holds, for each script segment in order, its text, the measured
    duration of its clip, and a window that starts at 0 for the first
    segment and otherwise where the window before it ends; the planned
    durations of the script are not used. *)
Theorem X27_stored_captions_are_measured :
  forall (E : env) (R : Compile.toolkit) (videoId userId : string)
         (customImages : option (list (string * string)))
         (s s' : Compile.state) (video : Compile.Row),
    Compile.find videoId (Compile.rows s) = Some video ->
    Compile.compileVideoInBackground E R videoId userId customImages s
    = (Compile.Resolved tt, s') ->
    exists script ds v',
      match Compile.assets video with
      | Some a => Compile.storedScript a
      | None => None
      end = Some script
      /\ Forall2 (fun p d => Compile.probe_result E p = inl d)
                 (Compile.clip_paths (Compile.jobDir E videoId) 0 (List.length script)) ds
      /\ Compile.find videoId (Compile.rows s') = Some v'
      /\ Compile.subtitleData v'
         = Some (Compile.mkStoredSubtitles
                   (Compile.measured_entries 0 (map Script.text script) ds)
                   (Some (Compile.enabled_of video))).
Proof.
  intros E R videoId userId customImages s s' video Hfound Hrun.
  destruct (compile_resolved E R videoId userId customImages s video s' Hfound Hrun)
    as [script [urls [audioSegments [audioDurations [s2 [s3 [Hs [_ [_ [Ha Hrow]]]]]]]]]].
  apply audio_from_resolved in Ha. destruct Ha as [measured [_ [Hds HF]]].
  cbn [app] in Hds. subst audioDurations.
  exists script, measured. eexists. split; [exact Hs|]. split; [exact HF|].
  split; [exact Hrow|]. cbn [Compile.subtitleData Compile.set_completed].
  rewrite <- (entries_from_measured script measured [] 0); [reflexivity|].
  apply Forall2_length in HF. unfold Compile.clip_paths in HF.
  now rewrite length_map, length_seq in HF.
Qed.

Lemma X27_stored_captions_are_measured_witness :
  exists script ds v',
    match Compile.assets Studio.editing with
    | Some a => Compile.storedScript a
    | None => None
    end = Some script
    /\ Forall2 (fun p d => Compile.probe_result Studio.fine p = inl d)
               (Compile.clip_paths (Compile.jobDir Studio.fine "v1") 0 (List.length script))
               ds
    /\ Compile.find "v1"
         (Compile.rows (snd (Compile.compileVideoInBackground Studio.fine Studio.works
                               "v1" "u1" None Studio.start)))
       = Some v'
    /\ Compile.subtitleData v'
       = Some (Compile.mkStoredSubtitles
                 (Compile.measured_entries 0 (map Script.text script) ds)
                 (Some (Compile.enabled_of Studio.editing))).
Proof.
  refine (X27_stored_captions_are_measured Studio.fine Studio.works "v1" "u1" None
            Studio.start _ Studio.editing eq_refl _).
  apply run_from_outcome. vm_compute. reflexivity.
Defined.

(** ** The subtitle switch *)

Lemma alike_lift {A} (m : M A) : Switch.alike (Compile.lift m) (Compile.lift m).
Proof.
  intros s1 s2 H. unfold Switch.agree, Compile.lift. rewrite H.
  destruct (m (Compile.outside s2)) as [[a|e|] w]; split; reflexivity.
Qed.

Lemma alike_resolve {A} (a : A) : Switch.alike (Compile.resolve a) (Compile.resolve a).
Proof. intros s1 s2 H. split; [reflexivity|exact H]. Qed.

Lemma alike_reject {A} (e : string) : Switch.alike (@Compile.reject A e) (Compile.reject e).
Proof. intros s1 s2 H. split; [reflexivity|exact H]. Qed.

Lemma alike_update videoId f g :
  Switch.alike (Compile.updateVideo videoId f) (Compile.updateVideo videoId g).
Proof. intros s1 s2 H. split; [reflexivity|exact H]. Qed.

Lemma agree_then {A B} (m1 m2 : Compile.C A) (k1 k2 : A -> Compile.C B) s1 s2 :
  Switch.agree (m1 s1) (m2 s2) ->
  (forall a, Switch.alike (k1 a) (k2 a)) ->
  Switch.agree (Compile.and_then m1 k1 s1) (Compile.and_then m2 k2 s2).
Proof.
  intros [Hr Ho] Hk. unfold Compile.and_then.
  destruct (m1 s1) as [r1 t1], (m2 s2) as [r2 t2]. cbn [fst snd] in Hr, Ho. subst r2.
  destruct r1 as [a|e|u]; [apply Hk; exact Ho| |]; split; try reflexivity; exact Ho.
Qed.

Lemma agree_catch {A} (m1 m2 : Compile.C A) (h1 h2 : string -> Compile.C A) s1 s2 :
  Switch.agree (m1 s1) (m2 s2) ->
  (forall e, Switch.alike (h1 e) (h2 e)) ->
  Switch.agree (Compile.catch m1 h1 s1) (Compile.catch m2 h2 s2).
Proof.
  intros [Hr Ho] Hh. unfold Compile.catch.
  destruct (m1 s1) as [r1 t1], (m2 s2) as [r2 t2]. cbn [fst snd] in Hr, Ho. subst r2.
  destruct r1 as [a|e|u]; [|apply Hh; exact Ho|]; split; try reflexivity; exact Ho.
Qed.

Lemma alike_then {A B} (m1 m2 : Compile.C A) (k1 k2 : A -> Compile.C B) :
  Switch.alike m1 m2 -> (forall a, Switch.alike (k1 a) (k2 a)) ->
  Switch.alike (Compile.and_then m1 k1) (Compile.and_then m2 k2).
Proof. intros Hm Hk s1 s2 H. apply agree_then; [apply Hm; exact H|exact Hk]. Qed.

Lemma alike_catch {A} (m1 m2 : Compile.C A) (h1 h2 : string -> Compile.C A) :
  Switch.alike m1 m2 -> (forall e, Switch.alike (h1 e) (h2 e)) ->
  Switch.alike (Compile.catch m1 h1) (Compile.catch m2 h2).
Proof. intros Hm Hh s1 s2 H. apply agree_catch; [apply Hm; exact H|exact Hh]. Qed.

Lemma alike_callback {A} (m1 m2 : Compile.C A) :
  Switch.alike m1 m2 -> Switch.alike (Compile.in_callback m1) (Compile.in_callback m2).
Proof.
  intros Hm s1 s2 H. destruct (Hm s1 s2 H) as [Hr Ho]. unfold Switch.agree, Compile.in_callback.
  destruct (m1 s1) as [r1 t1], (m2 s2) as [r2 t2]. cbn [fst snd] in Hr, Ho. subst r2.
  destruct r1 as [a|e|u]; split; try reflexivity; exact Ho.
Qed.

Lemma alike_audio_from E v1 v2 tempDir :
  Compile.voiceStyle v1 = Compile.voiceStyle v2 ->
  Compile.language v1 = Compile.language v2 ->
  forall rest i paths ds,
    Switch.alike (Compile.audio_from E v1 tempDir i rest paths ds)
                 (Compile.audio_from E v2 tempDir i rest paths ds).
Proof.
  intros Hv Hl. induction rest as [|seg r IH]; intros i paths ds; cbn [Compile.audio_from].
  - apply alike_resolve.
  - cbv zeta. rewrite Hv, Hl. apply alike_then; [apply alike_lift|]. intros _.
    apply alike_then; [apply alike_lift|]. intros d. apply IH.
Qed.

Lemma alike_images_from E custom tempDir : forall rest i acc,
  Switch.alike (Compile.images_from E custom tempDir i rest acc)
               (Compile.images_from E custom tempDir i rest acc).
Proof.
  induction rest as [|url r IH]; intros i acc; cbn [Compile.images_from].
  - apply alike_resolve.
  - cbv zeta. apply alike_then; [apply alike_lift|]. intros _. apply IH.
Qed.

Lemma alike_addAudioToVideo E videoPath audioPath :
  Switch.alike (Compile.addAudioToVideo E videoPath audioPath)
               (Compile.addAudioToVideo E videoPath audioPath).
Proof.
  unfold Compile.addAudioToVideo. cbv zeta. apply alike_then; [apply alike_lift|].
  intros a. destruct (exit_of a) as [code|e]; [|apply alike_reject].
  destruct (code =? 0)%Z; [|apply alike_reject]. apply alike_callback, alike_lift.
Qed.

Lemma alike_renderVideoWithRemotion E R o :
  Switch.alike (Compile.renderVideoWithRemotion E R o)
               (Compile.renderVideoWithRemotion E R o).
Proof.
  unfold Compile.renderVideoWithRemotion.
  apply alike_catch; [|intros e; apply alike_reject].
  apply alike_then; [apply alike_lift|]. intros loc.
  apply alike_then; [apply alike_lift|]. intros comps. cbv zeta.
  apply alike_then; [apply alike_lift|]. intros _.
  apply alike_then; [apply alike_lift|]. intros present.
  destruct (_ && _); [apply alike_addAudioToVideo|apply alike_resolve].
Qed.

Lemma alike_concatenateAudioSegments E audioSegments outputDir :
  Switch.alike (Compile.concatenateAudioSegments E audioSegments outputDir)
               (Compile.concatenateAudioSegments E audioSegments outputDir).
Proof.
  unfold Compile.concatenateAudioSegments. cbv zeta.
  apply alike_then; [apply alike_lift|]. intros _.
  apply alike_then; [apply alike_lift|]. intros a.
  destruct (exit_of a) as [code|e]; [|apply alike_reject].
  apply alike_then; [apply alike_lift|]. intros _.
  destruct (code =? 0)%Z; [apply alike_resolve|apply alike_reject].
Qed.

Lemma alike_createVideoWithRemotion E R assets out D sub1 sub2 topic font color :
  Switch.alike (Compile.createVideoWithRemotion E R assets out D sub1 topic font color)
               (Compile.createVideoWithRemotion E R assets out D sub2 topic font color).
Proof.
  unfold Compile.createVideoWithRemotion.
  apply alike_catch; [|intros e; apply alike_reject].
  apply alike_then; [apply alike_concatenateAudioSegments|]. intros audioPath.
  apply alike_renderVideoWithRemotion.
Qed.

Lemma compile_starts {A} videoId change (k : option Compile.Row -> Compile.C A) s :
  Compile.and_then (Compile.updateVideo videoId change)
                   (fun _ => Compile.and_then (Compile.getVideo videoId) k) s
  = k (option_map change (Compile.find videoId (Compile.rows s)))
      (Compile.mkState (Compile.outside s)
         (map (fun kv : string * Compile.Row =>
                 if String.eqb videoId (fst kv) then (fst kv, change (snd kv)) else kv)
              (Compile.rows s))).
Proof.
  unfold Compile.and_then, Compile.updateVideo, Compile.getVideo. cbn [Compile.rows].
  now rewrite find_updated.
Qed.

(** X28: the subtitle switch does not reach the renderer.  Two
    compilations that start from the same outside world, for rows that
    agree on assets, topic, voice, language, font and colour - but not
    necessarily on the stored subtitle data, so one may have its
    subtitles switched off - settle alike and leave the same outside
    world: the same processes are started with the same arguments and the
    same files exist afterwards. *)
Theorem X28_subtitle_switch_does_not_reach_renderer :
  forall (E : env) (R : Compile.toolkit) (videoId userId : string)
         (customImages : option (list (string * string)))
         (s1 s2 : Compile.state) (video1 video2 : Compile.Row),
    Compile.outside s1 = Compile.outside s2 ->
    Compile.find videoId (Compile.rows s1) = Some video1 ->
    Compile.find videoId (Compile.rows s2) = Some video2 ->
    Compile.assets video1 = Compile.assets video2 ->
    Compile.topic video1 = Compile.topic video2 ->
    Compile.voiceStyle video1 = Compile.voiceStyle video2 ->
    Compile.language video1 = Compile.language video2 ->
    Compile.textFont video1 = Compile.textFont video2 ->
    Compile.textColor video1 = Compile.textColor video2 ->
    Switch.agree (Compile.compileVideoInBackground E R videoId userId customImages s1)
                 (Compile.compileVideoInBackground E R videoId userId customImages s2).
Proof.
  intros E R videoId userId customImages s1 s2 video1 video2
         Ho H1 H2 Hassets Htopic Hvoice Hlang Hfont Hcolor.
  unfold Compile.compileVideoInBackground.
  apply agree_catch;
    [|intros e; apply alike_then; [apply alike_update|intros _; apply alike_reject]].
  rewrite !compile_starts, H1, H2. cbn [option_map].
  change (Compile.assets (Compile.set_status "compiling" video1))
    with (Compile.assets video1).
  change (Compile.assets (Compile.set_status "compiling" video2))
    with (Compile.assets video2).
  change (Compile.topic (Compile.set_status "compiling" video1))
    with (Compile.topic video1).
  change (Compile.topic (Compile.set_status "compiling" video2))
    with (Compile.topic video2).
  change (Compile.textFont (Compile.set_status "compiling" video1))
    with (Compile.textFont video1).
  change (Compile.textFont (Compile.set_status "compiling" video2))
    with (Compile.textFont video2).
  change (Compile.textColor (Compile.set_status "compiling" video1))
    with (Compile.textColor video1).
  change (Compile.textColor (Compile.set_status "compiling" video2))
    with (Compile.textColor video2).
  rewrite Hassets, Htopic, Hfont, Hcolor.
  destruct (match Compile.assets video2 with
            | Some a => Compile.storedScript a
            | None => None
            end) as [scriptSegments|]; [|split; [reflexivity|exact Ho]].
  cbv zeta.
  apply agree_then; [apply alike_lift; exact Ho|]. intros _.
  apply alike_then; [apply alike_audio_from; assumption|]. intros [paths ds].
  cbn [fst snd].
  destruct (match Compile.assets video2 with
            | Some a => Compile.storedImages a
            | None => None
            end) as [[|url urls]|]; try apply alike_reject.
  apply alike_then; [apply alike_images_from|]. intros images.
  apply alike_then; [apply alike_createVideoWithRemotion|]. intros _.
  apply alike_update.
Qed.

Lemma X28_subtitle_switch_does_not_reach_renderer_witness :
  Switch.agree
    (Compile.compileVideoInBackground Studio.fine Studio.works "v1" "u1" None Studio.start)
    (Compile.compileVideoInBackground Studio.fine Studio.works "v1" "u1" None
       Switch.start_muted).
Proof.
  exact (X28_subtitle_switch_does_not_reach_renderer Studio.fine Studio.works "v1" "u1"
           None Studio.start Switch.start_muted Studio.editing Switch.muted
           eq_refl eq_refl eq_refl eq_refl eq_refl eq_refl eq_refl eq_refl eq_refl).
Defined.

(** ** The guard of the compile route *)

Lemma owner_of_store {A} (m : Compile.C A) : Compile.keeps_store m -> Owner.keeps_owner m.
Proof. intros Hm s r s' H videoId. now rewrite (Hm s r s' H). Qed.

Lemma owner_update videoId change :
  (forall v, Compile.userId (change v) = Compile.userId v) ->
  Owner.keeps_owner (Compile.updateVideo videoId change).
Proof.
  intros Hc s r s' H other. unfold Compile.updateVideo in H. injection H as _ <-.
  cbn [Compile.rows]. induction (Compile.rows s) as [|[k x] l IH]; [reflexivity|].
  cbn [map fst snd Compile.find].
  destruct (String.eqb videoId k); cbn [Compile.find];
    destruct (String.eqb other k); cbn [option_map]; try exact IH; try reflexivity.
  now rewrite Hc.
Qed.

Lemma owner_then {A B} (m : Compile.C A) (k : A -> Compile.C B) :
  Owner.keeps_owner m -> (forall a, Owner.keeps_owner (k a)) ->
  Owner.keeps_owner (Compile.and_then m k).
Proof.
  intros Hm Hk s r s' H videoId. unfold Compile.and_then in H.
  destruct (m s) as [[a|e|u] s1] eqn:H1.
  - rewrite (Hk a s1 r s' H), (Hm s _ s1 H1). reflexivity.
  - injection H as _ <-. exact (Hm s _ s1 H1 videoId).
  - injection H as _ <-. exact (Hm s _ s1 H1 videoId).
Qed.

Lemma owner_catch {A} (m : Compile.C A) (h : string -> Compile.C A) :
  Owner.keeps_owner m -> (forall e, Owner.keeps_owner (h e)) ->
  Owner.keeps_owner (Compile.catch m h).
Proof.
  intros Hm Hh s r s' H videoId. unfold Compile.catch in H.
  destruct (m s) as [[a|e|u] s1] eqn:H1.
  - injection H as _ <-. exact (Hm s _ s1 H1 videoId).
  - rewrite (Hh e s1 r s' H), (Hm s _ s1 H1). reflexivity.
  - injection H as _ <-. exact (Hm s _ s1 H1 videoId).
Qed.

Lemma owner_compile_job E R videoId userId customImages :
  Owner.keeps_owner (Compile.compile_job E R videoId userId customImages).
Proof.
  unfold Compile.compile_job.
  apply owner_catch; [|intros e; apply owner_update; reflexivity].
  unfold Compile.compileVideoInBackground.
  apply owner_catch;
    [|intros e; apply owner_then;
      [apply owner_update; reflexivity|intros _; apply owner_of_store, store_reject]].
  apply owner_then; [apply owner_update; reflexivity|]. intros _.
  apply owner_then.
  { intros s r s' H. unfold Compile.getVideo in H. now injection H as _ <-. }
  intros [video|]; [|apply owner_of_store, store_reject].
  destruct (match Compile.assets video with
            | Some a => Compile.storedScript a
            | None => None
            end) as [scriptSegments|]; [|apply owner_of_store, store_reject].
  cbv zeta.
  apply owner_then; [apply owner_of_store, store_lift|]. intros _.
  apply owner_then; [apply owner_of_store, store_audio_from|]. intros generated.
  destruct (match Compile.assets video with
            | Some a => Compile.storedImages a
            | None => None
            end) as [[|url urls]|]; try apply owner_of_store, store_reject.
  apply owner_then; [apply owner_of_store, store_images_from|]. intros images.
  apply owner_then; [apply owner_of_store, store_createVideoWithRemotion|]. intros _.
  apply owner_update. reflexivity.
Qed.

Lemma compile_job_status E R videoId userId customImages s video :
  Compile.find videoId (Compile.rows s) = Some video ->
  exists v',
    Compile.find videoId
      (Compile.rows (snd (Compile.compile_job E R videoId userId customImages s)))
    = Some v'
    /\ Owner.after_job (Compile.status v') = true.
Proof.
  intros Hfound.
  destruct (compile_status E R videoId userId customImages s video Hfound _ eq_refl)
    as [v' [Hv Hs]].
  unfold Compile.compile_job, Compile.catch.
  destruct (Compile.compileVideoInBackground E R videoId userId customImages s)
    as [[[]|e|u] s'] eqn:Hrun; cbn [fst snd] in *.
  - exists v'. split; [exact Hv|]. destruct Hs as [Hs _]. now rewrite Hs.
  - unfold Compile.updateVideo. cbn [fst snd Compile.rows].
    rewrite find_updated, Hv. eexists. split; reflexivity.
  - exists v'. split; [exact Hv|]. now rewrite Hs.
Qed.

Lemma compile_route_runs E R videoId requester customImages s :
  Compile.compile_route E R videoId requester customImages s
  = match Compile.find videoId (Compile.rows s) with
    | None => (Compile.Resolved (Compile.Json 404 "Video not found"), s)
    | Some video =>
        if negb (String.eqb (Compile.userId video) requester)
        then (Compile.Resolved (Compile.Json 404 "Video not found"), s)
        else if negb (String.eqb (Compile.status video) "editing")
        then (Compile.Resolved
                (Compile.Json 400 "Video must be in editing status to compile"), s)
        else (Compile.Resolved (Compile.Json 200 "Video compilation started"),
              snd (Compile.compile_job E R videoId requester customImages
                     (snd (Compile.updateVideo videoId
                             (Compile.set_status "generating") s))))
    end.
Proof.
  unfold Compile.compile_route, Compile.catch.
  unfold Compile.and_then at 1. unfold Compile.getVideo.
  destruct (Compile.find videoId (Compile.rows s)) as [video|]; [|reflexivity].
  destruct (negb (String.eqb (Compile.userId video) requester)); [reflexivity|].
  destruct (negb (String.eqb (Compile.status video) "editing")); reflexivity.
Qed.

(** X29: the guard of the compile route.  A request for a row that does
    not exist or belongs to somebody else is answered with 404, a request
    for a row that is not in the status [editing] with 400, and in these
    cases nothing is changed and nothing is started.  Any other request
    is answered with 200 whatever becomes of the job; once the job has
    run, the row has one of the statuses [completed], [failed] and
    [compiling], and a further compile request of the owner for it is
    answered with 400 and changes nothing. *)
Theorem X29_compile_route_guard :
  forall (E : env) (R : Compile.toolkit) (videoId requester : string)
         (customImages : option (list (string * string))) (s : Compile.state),
    let p := Compile.compile_route E R videoId requester customImages s in
    match Compile.find videoId (Compile.rows s) with
    | None => p = (Compile.Resolved (Compile.Json 404 "Video not found"), s)
    | Some video =>
        if negb (String.eqb (Compile.userId video) requester)
        then p = (Compile.Resolved (Compile.Json 404 "Video not found"), s)
        else if negb (String.eqb (Compile.status video) "editing")
        then p = (Compile.Resolved
                    (Compile.Json 400 "Video must be in editing status to compile"), s)
        else
          fst p = Compile.Resolved (Compile.Json 200 "Video compilation started")
          /\ (exists v',
                Compile.find videoId (Compile.rows (snd p)) = Some v'
                /\ Owner.after_job (Compile.status v') = true)
          /\ forall (E' : env) (R' : Compile.toolkit)
                    (again : option (list (string * string))),
               Compile.compile_route E' R' videoId requester again (snd p)
               = (Compile.Resolved
                    (Compile.Json 400 "Video must be in editing status to compile"),
                  snd p)
    end.
Proof.
  intros E R videoId requester customImages s p. subst p.
  rewrite compile_route_runs.
  destruct (Compile.find videoId (Compile.rows s)) as [video|] eqn:Hfound;
    [|reflexivity].
  destruct (String.eqb (Compile.userId video) requester) eqn:Huser; cbn [negb];
    [|reflexivity].
  destruct (String.eqb (Compile.status video) "editing") eqn:Hstatus; cbn [negb];
    [|reflexivity].
  set (s1 := snd (Compile.updateVideo videoId (Compile.set_status "generating") s)).
  assert (Hrow : Compile.find videoId (Compile.rows s1)
                 = Some (Compile.set_status "generating" video)).
  { unfold s1, Compile.updateVideo. cbn [snd Compile.rows].
    now rewrite find_updated, Hfound. }
  cbn [fst snd].
  destruct (compile_job_status E R videoId requester customImages s1 _ Hrow)
    as [v' [Hv Hs]].
  pose proof (owner_compile_job E R videoId requester customImages s1 _ _
                (surjective_pairing _) videoId) as Ho.
  rewrite Hv, Hrow in Ho. cbn [option_map Compile.userId Compile.set_status] in Ho.
  injection Ho as Ho.
  split; [reflexivity|]. split; [exists v'; split; assumption|].
  intros E' R' again.
  rewrite compile_route_runs, Hv, Ho, Huser. cbn [negb].
  unfold Owner.after_job in Hs.
  destruct (String.eqb (Compile.status v') "editing") eqn:He; [|reflexivity].
  apply String.eqb_eq in He. rewrite He in Hs. discriminate Hs.
Qed.

(** ** The probe in the generation routine *)

(** A probe that ends before the timer settles as its process ends. *)
Lemma getAudioDuration_in_time E p w :
  in_time (probe_ms E p) w ->
  Routes.getAudioDuration E p w
  = (match Compile.probe_result E p with inl d => Ok d | inr m => Throw m end,
     after_spawn E "ffprobe" (Routes.ffprobe_args p) w).
Proof.
  intros Ht. unfold Routes.getAudioDuration, Compile.probe_result, bind.
  rewrite (spawn_in_time E _ _ w Ht). cbv zeta.
  destruct (exit_of _) as [code|e]; [|reflexivity].
  destruct (code =? 0)%Z; [|reflexivity].
  destruct (parseFloat _); reflexivity.
Qed.

(** While the timer does not expire, the caption loop uses the measured
    duration of each clip whose probe succeeds and the planned duration
    of each segment whose probe fails. *)
Lemma timing_from_uses E audioPaths : forall rest i t acc w,
  in_time (Planned.probing_ms E audioPaths i rest) w ->
  exists w',
    Routes.timing_from E audioPaths i rest t acc w
    = (Ok (acc ++ captions t (Planned.used_durations E audioPaths i rest)
                           (map Script.text rest)), w').
Proof.
  induction rest as [|seg r IH]; intros i t acc w Ht.
  - exists w. cbn. unfold ret. now rewrite app_nil_r.
  - cbn [Routes.timing_from Planned.used_durations Planned.probing_ms map captions]
      in Ht |- *.
    set (p := nth i audioPaths EmptyString) in *.
    assert (Ht1 : in_time (probe_ms E p) w).
    { unfold in_time in *. destruct (deadline w); [lia|exact I]. }
    unfold bind, Routes.duration_for, try_catch.
    rewrite (getAudioDuration_in_time E p w Ht1).
    set (w1 := after_spawn E "ffprobe" (Routes.ffprobe_args p) w).
    assert (Ht2 : in_time (Planned.probing_ms E audioPaths (S i) r) w1).
    { unfold in_time in *. subst w1. cbn [deadline clock after_spawn with_fs with_clock].
      change (deadline (with_event (Spawned "ffprobe" (Routes.ffprobe_args p)) w))
        with (deadline w).
      destruct (deadline w); [|exact I].
      unfold probe_ms in Ht.
      change (clock (with_event (Spawned "ffprobe" (Routes.ffprobe_args p)) w))
        with (clock w).
      lia. }
    unfold Planned.used_duration.
    destruct (Compile.probe_result E p) as [d|m].
    + destruct (IH (S i) (t + d)
                   (acc ++ [mkSubtitle t (t + d) (Script.text seg)]) w1 Ht2)
        as [w' Hrun].
      exists w'. rewrite Hrun, <- app_assoc. reflexivity.
    + unfold ret.
      destruct (IH (S i) (t + Script.duration seg)
                   (acc ++ [mkSubtitle t (t + Script.duration seg) (Script.text seg)])
                   w1 Ht2) as [w' Hrun].
      exists w'. rewrite Hrun, <- app_assoc. reflexivity.
Qed.

(** C1 (as amended): a probe that ends before the timer rejects when
    [ffprobe] does not exit with 0, cannot be started, or prints what
    cannot be read as a number, and resolves with the number read
    otherwise.  The generation routine guards the probe of each clip:
    when it rejects, the planned duration of that segment is used
    instead, so that the caption step succeeds whenever its probes end
    before the timer, and its captions are timed by the measured
    durations of the clips whose probe succeeded and by the planned
    durations of the others. *)
Theorem C1_probe_failure_uses_planned_duration :
  forall (E : env) (video : Schema.Video) (segs : list Script.ScriptSegment)
         (audioPaths : list string) (w : world),
    Schema.subtitles video = true ->
    segs <> [] ->
    in_time (Planned.probing_ms E audioPaths 0 segs) w ->
    (forall audioPath,
        in_time (probe_ms E audioPath) w ->
        fst (Routes.getAudioDuration E audioPath w)
        = match exit_of (run E "ffprobe" (Routes.ffprobe_args audioPath)) with
          | Close code =>
              if (code =? 0)%Z
              then match parseFloat
                           (trim (of_string
                                    (stdout (run E "ffprobe"
                                               (Routes.ffprobe_args audioPath))))) with
                   | Some d => Ok d
                   | None => Throw "Could not parse audio duration"
                   end
              else Throw ("ffprobe failed with code " ++ string_of_Z code)%string
          | ProcError e => Throw e
          end)
    /\ (forall audioPath segment,
          in_time (probe_ms E audioPath) w ->
          fst (Routes.duration_for E audioPath segment w)
          = Ok (match fst (Routes.getAudioDuration E audioPath w) with
                | Ok d => d
                | _ => Script.duration segment
                end))
    /\ fst (Routes.subtitle_step E video segs audioPaths w)
       = Ok (Some (captions 0 (Planned.used_durations E audioPaths 0 segs)
                            (map Script.text segs))).
Proof.
  intros E video segs audioPaths w Hsub Hne Htime. split; [|split].
  - intros audioPath Ht. rewrite (getAudioDuration_in_time E audioPath w Ht).
    unfold Compile.probe_result. cbv zeta. cbn [fst].
    destruct (exit_of _) as [code|e]; [|reflexivity].
    destruct (code =? 0)%Z; [|reflexivity].
    destruct (parseFloat _); reflexivity.
  - intros audioPath segment Ht. unfold Routes.duration_for, try_catch.
    rewrite (getAudioDuration_in_time E audioPath w Ht). cbn [fst].
    destruct (Compile.probe_result E audioPath); reflexivity.
  - unfold Routes.subtitle_step. rewrite Hsub.
    destruct segs as [|s r]; [congruence|].
    cbn [List.length Nat.ltb Nat.leb andb]. unfold bind.
    destruct (timing_from_uses E audioPaths (s :: r) 0 0 [] w Htime) as [w' Hrun].
    rewrite Hrun. reflexivity.
Qed.

Lemma C1_probe_failure_uses_planned_duration_witness :
  deadline (at_start Scenario.probe_fails Scenario.start) <> None
  /\ fst (Routes.subtitle_step Scenario.probe_fails Scenario.video1
                               Scenario.three_segments Scenario.audio_paths
                               (at_start Scenario.probe_fails Scenario.start))
     = Ok (Some (captions 0 (Planned.used_durations Scenario.probe_fails
                               Scenario.audio_paths 0 Scenario.three_segments)
                          (map Script.text Scenario.three_segments)))
  /\ Planned.used_durations Scenario.probe_fails Scenario.audio_paths 0
                            Scenario.three_segments
     = [10; 10; 10].
Proof.
  split; [vm_compute; discriminate|]. split; [|vm_compute; reflexivity].
  apply (C1_probe_failure_uses_planned_duration Scenario.probe_fails Scenario.video1
           Scenario.three_segments Scenario.audio_paths
           (at_start Scenario.probe_fails Scenario.start) eq_refl).
  - discriminate.
  - vm_compute. discriminate.
Defined.
